(** * TaskFlow: the task model ([js/taskModel.js]) and the view pipeline
    ([js/main.js], [applyFiltersAndSort]) as a shallow embedding.

    JavaScript objects are finite maps from property names to values, arrays
    are lists, [this.tasks] / [this.deletedTask] are threaded explicitly.
    Readings of the clock and of [Math.random] are inputs of the operations
    that consult them.  Exceptions are an explicit [Throw] result. *)

From stdpp Require Import gmap strings list fin_maps.
From Stdlib Require Import ZArith Ascii Sorting.Sorted Permutation.
From Stdlib Require Import DecimalString.

#[local] Set Warnings "-register-all".
#[local] Open Scope Z_scope.

(** ** Values

    The values that tasks hold: everything JSON can denote.  [undefined] is
    not a value of this type; a property read yields [option value] and [None]
    is [undefined].  Numbers are the integer-valued ones (identifiers, clock
    readings and indexes are all integers); [NaN] appears only as the [None]
    result of a numeric conversion. *)

Inductive value : Type :=
  | VNull
  | VBool (b : bool)
  | VNum (z : Z)
  | VStr (s : string)
  | VArr (l : list value)
  | VObj (m : gmap string value).

(** A task, a subtask, a patch: plain objects. *)
Abbreviation Obj := (gmap string value).
Abbreviation Task := (gmap string value).

(** Abrupt completion: the only exceptions in this code are [TypeError]s of
    property reads and method calls on values that do not support them. *)
Inductive completion (A : Type) : Type :=
  | Normal (a : A)
  | Throw.
Arguments Normal {A} a.
Arguments Throw {A}.

#[global] Instance completion_bind : MBind completion := fun A B k c =>
  match c with
  | Normal a => k a
  | Throw => Throw
  end.

(** [arr.map(p => ...)]; the position of the element selects the clock and
    random readings taken while it is converted. *)
Fixpoint mapM_from {A B} (i : nat) (f : nat -> A -> completion B) (l : list A)
  : completion (list B) :=
  match l with
  | [] => Normal []
  | a :: r => b ← f i a; bs ← mapM_from (S i) f r; Normal (b :: bs)
  end.

(** [arr.filter(pred)] where [pred] may throw. *)
Fixpoint filterM {A} (f : A -> completion bool) (l : list A) : completion (list A) :=
  match l with
  | [] => Normal []
  | a :: r => b ← f a; rs ← filterM f r; Normal (if (b : bool) then a :: rs else rs)
  end.

(** [arr.some(pred)]: stops at the first element for which [pred] holds. *)
Fixpoint someM {A} (f : A -> completion bool) (l : list A) : completion bool :=
  match l with
  | [] => Normal false
  | a :: r => b ← f a; if (b : bool) then Normal true else someM f r
  end.

(** ** Strings *)

(** White space as [String.prototype.trim] sees it, among the code units
    below 256 that [ascii] holds: TAB, LF, VT, FF, CR, SP and NBSP. *)
Definition is_white_space (c : ascii) : bool :=
  let n := nat_of_ascii c in
  ((n =? 9) || (n =? 10) || (n =? 11) || (n =? 12) || (n =? 13) || (n =? 32)
   || (n =? 160))%nat.

Fixpoint trimStart (s : string) : string :=
  match s with
  | EmptyString => EmptyString
  | String c r => if is_white_space c then trimStart r else s
  end.

Fixpoint trimEnd (s : string) : string :=
  match s with
  | EmptyString => EmptyString
  | String c r =>
      match trimEnd r with
      | EmptyString => if is_white_space c then EmptyString else String c EmptyString
      | r' => String c r'
      end
  end.

Definition trim (s : string) : string := trimEnd (trimStart s).

Definition is_empty (s : string) : bool :=
  match s with EmptyString => true | _ => false end.

(** [s.split(',')]: never the empty array. *)
Fixpoint split_comma (s : string) : list string :=
  match s with
  | EmptyString => [EmptyString]
  | String c r =>
      if Ascii.eqb c ","%char then EmptyString :: split_comma r
      else match split_comma r with
           | [] => [String c EmptyString]
           | w :: ws => String c w :: ws
           end
  end.

Fixpoint prefixb (p s : string) : bool :=
  match p, s with
  | EmptyString, _ => true
  | String a p', String b s' => Ascii.eqb a b && prefixb p' s'
  | String _ _, EmptyString => false
  end.

(** [s.includes(q)] *)
Fixpoint includes (s q : string) : bool :=
  prefixb q s ||
  match s with
  | EmptyString => false
  | String _ r => includes r q
  end.

Fixpoint join_comma (l : list string) : string :=
  match l with
  | [] => EmptyString
  | [a] => a
  | a :: r => a +:+ "," +:+ join_comma r
  end.

(** ** The host

    What the program takes from the JavaScript engine and its locale, and
    which the results below do not depend on. *)
Class Host := {
  (** [Number::toString] on an integer-valued number *)
  NumberToString : Z -> string;
  (** [StringToNumber]; [None] is [NaN] *)
  StringToNumber : string -> option Z;
  (** [Date.parse]; [None] is [NaN] (an invalid date) *)
  DateParse : string -> option Z;
  toLowerCase : string -> string;
  localeCompare : string -> string -> Z;
}.

(** ** Conversions *)

(** [ToBoolean] of the result of a property read. *)
Definition truthy (v : option value) : bool :=
  match v with
  | None => false
  | Some VNull => false
  | Some (VBool b) => b
  | Some (VNum z) => negb (z =? 0)
  | Some (VStr s) => negb (is_empty s)
  | Some (VArr _) => true
  | Some (VObj _) => true
  end.

(** [a || b] on a property read: the first operand when truthy. *)
Definition or_else (v : option value) (d : value) : value :=
  match v with
  | Some x => if truthy v then x else d
  | None => d
  end.

(** [p.k].  Reading a property of [null] is a [TypeError]; primitives and
    arrays have none of the property names this program reads. *)
Definition get (p : value) (k : string) : completion (option value) :=
  match p with
  | VNull => Throw
  | VObj m => Normal (m !! k)
  | _ => Normal None
  end.

Section Conversions.
Context `{Host}.

(** [ToString].  An object parsed from JSON has no callable property of its
    own, so one with an own [toString] key cannot be converted to a
    primitive ([TypeError]); any other converts to ["[object Object]"].
    Arrays convert through [join], where [null] elements are empty. *)
Fixpoint ToString (v : value) : completion string :=
  match v with
  | VNull => Normal "null"%string
  | VBool b => Normal (if b then "true" else "false")%string
  | VNum z => Normal (NumberToString z)
  | VStr s => Normal s
  | VArr l =>
      ss ← (fix elems (l : list value) : completion (list string) :=
               match l with
               | [] => Normal []
               | VNull :: r => rs ← elems r; Normal (EmptyString :: rs)
               | e :: r => s ← ToString e; rs ← elems r; Normal (s :: rs)
               end) l;
      Normal (join_comma ss)
  | VObj m =>
      match m !! "toString"%string with
      | Some _ => Throw
      | None => Normal "[object Object]"%string
      end
  end.

(** The elements of an array as [join] converts them. *)
Fixpoint ToStrings (l : list value) : completion (list string) :=
  match l with
  | [] => Normal []
  | VNull :: r => rs ← ToStrings r; Normal (EmptyString :: rs)
  | e :: r => s ← ToString e; rs ← ToStrings r; Normal (s :: rs)
  end.

(** [String(v)] on the result of a property read *)
Definition String_ (v : option value) : completion string :=
  match v with
  | None => Normal "undefined"%string
  | Some x => ToString x
  end.

(** [Number(v)]; [None] is [NaN]. *)
Definition Number_ (v : option value) : completion (option Z) :=
  match v with
  | None => Normal None
  | Some VNull => Normal (Some 0)
  | Some (VBool b) => Normal (Some (if b then 1 else 0))
  | Some (VNum z) => Normal (Some z)
  | Some (VStr s) => Normal (StringToNumber s)
  | Some x => s ← ToString x; Normal (StringToNumber s)
  end.

(** The time value of [new Date(v)]; [None] is an invalid date.
    [TimeClip] bounds the representable instants. *)
Definition time_clip (z : Z) : option Z :=
  if Z.abs z <=? 8640000000000000 then Some z else None.

Definition Date_ (v : option value) : completion (option Z) :=
  match v with
  | None => Normal None
  | Some VNull => Normal (Some 0)
  | Some (VBool b) => Normal (Some (if b then 1 else 0))
  | Some (VNum z) => Normal (time_clip z)
  | Some (VStr s) => Normal (DateParse s)
  | Some x => s ← ToString x; Normal (DateParse s)
  end.
End Conversions.

(** ** The task model ([class TaskModel])

    [this.tasks] holds task objects; [this.deletedTask] is [null] or the
    record [{ task, index }] of the last deletion. *)

Record Deleted := { task : Task; index : nat }.

Record TaskModel := {
  tasks : list Task;
  deletedTask : option Deleted;
}.

(** [new TaskModel(initialTasks)]: [None] stands for an argument that is not
    an array. *)
Definition constructor (initialTasks : option (list Task)) : TaskModel :=
  {| tasks := default [] initialTasks; deletedTask := None |}.

(** [t.id === id] for a number [id] *)
Definition has_id (id : Z) (t : Obj) : bool :=
  match t !! "id"%string with
  | Some (VNum z) => (z =? id)%Z
  | _ => false
  end.

(** [arr.find(t => t.id === id)] together with the position of the element
    found, which is where an assignment to its properties lands. *)
Definition find_task (id : Z) (l : list Task) : option (nat * Task) :=
  list_find (fun t => Is_true (has_id id t)) l.

(** The argument of [addTask]; [None] is an omitted property, for which the
    destructuring default applies. *)
Record Draft := {
  text : string;
  priority : option string;
  category : option string;
  dueDate : option string;
  tags : option (list string);
}.

Definition value_of_entry (d : Deleted) : value :=
  VObj (<["task"%string := VObj (task d)]> (<["index"%string := VNum (Z.of_nat (index d))]> ∅)).

Section Model.
Context `{Host}.
#[local] Open Scope string_scope.

(** *** Basic CRUD *)

(** [now] is the reading of [Date.now()], [iso] of
    [new Date().toISOString()]. *)
Definition new_task (now : Z) (iso : string) (d : Draft) : Task :=
  list_to_map
    [ ("id", VNum now);
      ("text", VStr (trim (text d)));
      ("completed", VBool false);
      ("priority", VStr (default "medium" (priority d)));
      ("category", VStr (default "personal" (category d)));
      ("dueDate", match dueDate d with
                  | Some s => if is_empty s then VNull else VStr s
                  | None => VNull
                  end);
      ("tags", VArr (VStr <$> List.filter (fun t => negb (is_empty t))
                                (trim <$> default [] (tags d))));
      ("notes", VStr EmptyString);
      ("subtasks", VArr []);
      ("createdAt", VStr iso);
      ("completedAt", VNull) ].

Definition addTask (now : Z) (iso : string) (d : Draft) (m : TaskModel)
  : value * TaskModel :=
  let t := new_task now iso d in
  (VObj t, {| tasks := t :: tasks m; deletedTask := deletedTask m |}).

(** [{ ...this.tasks[idx], ...patch }] is [patch ∪ t]: the properties of
    the patch win. *)
Definition updateTask (id : Z) (patch : Obj) (m : TaskModel) : value * TaskModel :=
  match find_task id (tasks m) with
  | None => (VNull, m)
  | Some (idx, t) =>
      let updated := patch ∪ t in
      (VObj updated,
       {| tasks := <[idx := updated]> (tasks m); deletedTask := deletedTask m |})
  end.

Definition toggled (iso : string) (t : Task) : Task :=
  let completed := negb (truthy (t !! "completed")) in
  <["completedAt" := if completed then VStr iso else VNull]>
    (<["completed" := VBool completed]> t).

Definition toggleTask (id : Z) (iso : string) (m : TaskModel) : value * TaskModel :=
  match find_task id (tasks m) with
  | None => (VNull, m)
  | Some (idx, t) =>
      let t' := toggled iso t in
      (VObj t', {| tasks := <[idx := t']> (tasks m); deletedTask := deletedTask m |})
  end.

Definition deleteTask (id : Z) (m : TaskModel) : value * TaskModel :=
  match find_task id (tasks m) with
  | None => (VNull, m)
  | Some (idx, t) =>
      let d := {| task := t; index := idx |} in
      (value_of_entry d, {| tasks := delete idx (tasks m); deletedTask := Some d |})
  end.

(** [arr.splice(index, 0, x)]: past the end, [x] is appended. *)
Definition splice_in {A} (i : nat) (x : A) (l : list A) : list A :=
  take i l ++ x :: drop i l.

Definition undoDelete (m : TaskModel) : value * TaskModel :=
  match deletedTask m with
  | None => (VNull, m)
  | Some d =>
      (VObj (task d),
       {| tasks := splice_in (index d) (task d) (tasks m); deletedTask := None |})
  end.

Definition is_completed (t : Task) : bool := truthy (t !! "completed").

Definition clearCompleted (m : TaskModel) : TaskModel :=
  {| tasks := List.filter (fun t => negb (is_completed t)) (tasks m);
     deletedTask := deletedTask m |}.

(** *** Subtasks *)

(** [task.subtasks.push(subtask)] needs [task.subtasks] to be an array. *)
Definition addSubtask (taskId : Z) (txt : string) (now : Z) (m : TaskModel)
  : completion value * TaskModel :=
  match find_task taskId (tasks m) with
  | None => (Normal VNull, m)
  | Some (idx, t) =>
      if is_empty (trim txt) then (Normal VNull, m)
      else
        let subtask : Obj :=
          list_to_map [ ("id", VNum now); ("text", VStr (trim txt));
                        ("completed", VBool false) ] in
        match t !! "subtasks" with
        | Some (VArr l) =>
            let t' := <["subtasks" := VArr (l ++ [VObj subtask])]> t in
            (Normal (VObj subtask),
             {| tasks := <[idx := t']> (tasks m); deletedTask := deletedTask m |})
        | _ => (Throw, m)
        end
  end.

(** [subtasks.find(s => s.id === subtaskId)]: reading [s.id] of a [null]
    element throws. *)
Fixpoint find_subtask (subtaskId : Z) (j : nat) (l : list value)
  : completion (option (nat * Obj)) :=
  match l with
  | [] => Normal None
  | VNull :: _ => Throw
  | VObj s :: r =>
      if has_id subtaskId s then Normal (Some (j, s))
      else find_subtask subtaskId (S j) r
  | _ :: r => find_subtask subtaskId (S j) r
  end.

Definition toggleSubtask (taskId subtaskId : Z) (m : TaskModel)
  : completion value * TaskModel :=
  match find_task taskId (tasks m) with
  | None => (Normal VNull, m)
  | Some (idx, t) =>
      match t !! "subtasks" with
      | Some (VArr l) =>
          match find_subtask subtaskId 0 l with
          | Throw => (Throw, m)
          | Normal None => (Normal VNull, m)
          | Normal (Some (j, s)) =>
              let s' := <["completed" := VBool (negb (truthy (s !! "completed")))]> s in
              let t' := <["subtasks" := VArr (<[j := VObj s']> l)]> t in
              (Normal (VObj s'),
               {| tasks := <[idx := t']> (tasks m); deletedTask := deletedTask m |})
          end
      | _ => (Throw, m)
      end
  end.

Definition updateNotes (taskId : Z) (notes : string) (m : TaskModel)
  : value * TaskModel :=
  match find_task taskId (tasks m) with
  | None => (VNull, m)
  | Some (idx, t) =>
      let t' := <["notes" := VStr notes]> t in
      (VObj t', {| tasks := <[idx := t']> (tasks m); deletedTask := deletedTask m |})
  end.

(** *** Import / export

    A text is taken as what [JSON.parse] makes of it: a [SyntaxError], or
    the value it denotes.  [JSON.stringify] of a value of type [value] is
    a text that denotes it. *)
Inductive blob : Type :=
  | NotJSON (s : string)
  | Json (v : value).

Definition exportTasks (m : TaskModel) : blob :=
  Json (VArr (VObj <$> tasks m)).

(** The readings taken while the [i]-th element is converted:
    [Date.now() + Math.floor(Math.random() * 1000)] and
    [new Date().toISOString()]. *)
Record Readings := {
  fresh : nat -> Z;
  stamp : nat -> string;
}.

Definition array_or_empty (v : option value) : value :=
  match v with
  | Some (VArr l) => VArr l
  | _ => VArr []
  end.

Definition importItem (r : Readings) (i : nat) (p : value) : completion Task :=
  p_id ← get p "id";
  n ← Number_ p_id;
  let id := match n with
            | Some z => if (z =? 0)%Z then fresh r i else z
            | None => fresh r i
            end in
  p_text ← get p "text";
  txt ← ToString (or_else p_text (VStr EmptyString));
  p_completed ← get p "completed";
  p_priority ← get p "priority";
  p_category ← get p "category";
  p_dueDate ← get p "dueDate";
  p_tags ← get p "tags";
  p_notes ← get p "notes";
  p_subtasks ← get p "subtasks";
  p_createdAt ← get p "createdAt";
  p_completedAt ← get p "completedAt";
  Normal (list_to_map
    [ ("id", VNum id);
      ("text", VStr txt);
      ("completed", VBool (truthy p_completed));
      ("priority", or_else p_priority (VStr "medium"));
      ("category", or_else p_category (VStr "personal"));
      ("dueDate", or_else p_dueDate VNull);
      ("tags", array_or_empty p_tags);
      ("notes", or_else p_notes (VStr EmptyString));
      ("subtasks", array_or_empty p_subtasks);
      ("createdAt", or_else p_createdAt (VStr (stamp r i)));
      ("completedAt", or_else p_completedAt VNull) ] : Task).

(** Everything thrown inside the [try] is caught and reported as [false];
    [this.tasks] is assigned only once the whole array is converted. *)
Definition importTasks (b : blob) (r : Readings) (m : TaskModel) : bool * TaskModel :=
  match b with
  | NotJSON _ => (false, m)
  | Json (VArr parsed) =>
      match mapM_from 0 (importItem r) parsed with
      | Normal ts => (true, {| tasks := ts; deletedTask := deletedTask m |})
      | Throw => (false, m)
      end
  | Json _ => (false, m)
  end.

Definition getTasks (m : TaskModel) : list Task := tasks m.
End Model.

(** ** [Array.prototype.sort]

    The comparator returns a number ([None] is [NaN], which [sort] reads as
    [+0]) or throws.  The engine's algorithm is modelled as a stable
    insertion sort: each element in turn moves left past the elements it
    compares below.  Where a comparator does not order two elements
    consistently their relative order is the engine's choice; no result
    below depends on it. *)
Section Sort.
Context {A : Type} (comparefn : A -> A -> completion (option Z)).

(** [sorted_rev] is the sorted prefix, last element first. *)
Fixpoint sort_insert (x : A) (sorted_rev : list A) : completion (list A) :=
  match sorted_rev with
  | [] => Normal [x]
  | y :: r =>
      v ← comparefn x y;
      if default 0 (v : option Z) <? 0
      then r' ← sort_insert x r; Normal (y :: r')
      else Normal (x :: y :: r)
  end.

Fixpoint sort_from (sorted_rev : list A) (l : list A) : completion (list A) :=
  match l with
  | [] => Normal (rev sorted_rev)
  | x :: r => acc ← sort_insert x sorted_rev; sort_from acc r
  end.

Definition sort (l : list A) : completion (list A) := sort_from [] l.
End Sort.

(** ** The view pipeline ([main.js]) *)

Record ViewState := {
  currentFilter : string;
  currentCategory : string;
  currentSort : string;
  searchQuery : string;
}.

(** What the add button reads from the form. *)
Record AddForm := {
  taskInput : string;
  prioritySelect : string;
  categorySelect : string;
  dueDateInput : string;
  tagInput : string;
}.

(** [utils.js] *)
Definition tagsFromString (tagString : string) : list string :=
  List.filter (fun s => negb (is_empty s)) (trim <$> split_comma tagString).

Section View.
Context `{Host}.
#[local] Open Scope string_scope.

(** [v.toLowerCase().includes(q)]: only strings have the method. *)
Definition lower_includes (v : option value) (q : string) : completion bool :=
  match v with
  | Some (VStr s) => Normal (includes (toLowerCase s) q)
  | _ => Throw
  end.

Definition matches_search (q : string) (t : Task) : completion bool :=
  in_text ← lower_includes (t !! "text") q;
  if (in_text : bool) then Normal true
  else
    in_notes ← (if truthy (t !! "notes") then lower_includes (t !! "notes") q
                else Normal false);
    if (in_notes : bool) then Normal true
    else if truthy (t !! "tags") then
      match t !! "tags" with
      | Some (VArr l) => someM (fun tag => lower_includes (Some tag) q) l
      | _ => Throw
      end
    else Normal false.

Definition is_category (c : string) (t : Task) : bool :=
  match t !! "category" with
  | Some (VStr s) => String.eqb s c
  | _ => false
  end.

(** [x - y] on numbers, [NaN] absorbing *)
Definition minus (x y : option Z) : option Z :=
  match x, y with
  | Some a, Some b => Some (a - b)
  | _, _ => None
  end.

(** [order[p]] for [order = { high: 3, medium: 2, low: 1 }] *)
Definition order (p : option value) : completion (option Z) :=
  k ← String_ p;
  Normal (if String.eqb k "high" then Some 3
          else if String.eqb k "medium" then Some 2
          else if String.eqb k "low" then Some 1
          else None).

Definition by_createdAt (a b : Task) : completion (option Z) :=
  da ← Date_ (a !! "createdAt");
  db ← Date_ (b !! "createdAt");
  Normal (minus da db).

Definition by_priority (a b : Task) : completion (option Z) :=
  ob ← order (b !! "priority");
  oa ← order (a !! "priority");
  Normal (minus ob oa).

(** [a.k.localeCompare(b.k)]: the receiver must be a string, the argument
    is converted to one. *)
Definition by_locale (k : string) (a b : Task) : completion (option Z) :=
  match a !! k with
  | Some (VStr s) => s' ← String_ (b !! k); Normal (Some (localeCompare s s'))
  | _ => Throw
  end.

Definition by_dueDate (a b : Task) : completion (option Z) :=
  if negb (truthy (a !! "dueDate")) then Normal (Some 1)
  else if negb (truthy (b !! "dueDate")) then Normal (Some (-1))
  else
    da ← Date_ (a !! "dueDate");
    db ← Date_ (b !! "dueDate");
    Normal (minus da db).

(** The three filters of [applyFiltersAndSort], in their order. *)
Definition apply_filters (state : ViewState) (ts : list Task)
  : completion (list Task) :=
  let out := ts in
  (* status filter *)
  let out :=
    if String.eqb (currentFilter state) "active"
    then List.filter (fun t => negb (is_completed t)) out
    else if String.eqb (currentFilter state) "completed"
    then List.filter is_completed out
    else out in
  (* category *)
  let out :=
    if negb (String.eqb (currentCategory state) "all")
    then List.filter (is_category (currentCategory state)) out
    else out in
  (* search *)
  if negb (is_empty (searchQuery state))
  then filterM (matches_search (toLowerCase (searchQuery state))) out
  else Normal out.

(** The [switch] on [state.currentSort]. *)
Definition apply_sort (state : ViewState) (out : list Task)
  : completion (list Task) :=
  let key := currentSort state in
  if String.eqb key "date-desc" then sort (fun a b => by_createdAt b a) out
  else if String.eqb key "date-asc" then sort by_createdAt out
  else if String.eqb key "priority" then sort by_priority out
  else if String.eqb key "alphabetical" then sort (by_locale "text") out
  else if String.eqb key "duedate" then sort by_dueDate out
  else if String.eqb key "category" then sort (by_locale "category") out
  else Normal out.

Definition applyFiltersAndSort (state : ViewState) (ts : list Task)
  : completion (list Task) :=
  out ← apply_filters state ts;
  apply_sort state out.

(** The click handler of the add button, up to the call of the model; what
    follows it (clearing the form, rendering, saving) does not touch the
    collection. *)
Definition onAddTaskClick (now : Z) (iso : string) (f : AddForm) (m : TaskModel)
  : TaskModel :=
  let txt := trim (taskInput f) in
  if is_empty txt then m
  else
    snd (addTask now iso
           {| text := txt;
              priority := Some (prioritySelect f);
              category := Some (categorySelect f);
              dueDate := if is_empty (dueDateInput f) then None
                         else Some (dueDateInput f);
              tags := Some (tagsFromString (tagInput f)) |} m).
End View.

(** ** Sessions: sequences of calls on one model *)

Inductive op : Type :=
  | AddTask (now : Z) (iso : string) (d : Draft)
  | UpdateTask (id : Z) (patch : Obj)
  | ToggleTask (id : Z) (iso : string)
  | DeleteTask (id : Z)
  | UndoDelete
  | ClearCompleted
  | AddSubtask (taskId : Z) (txt : string) (now : Z)
  | ToggleSubtask (taskId subtaskId : Z)
  | UpdateNotes (taskId : Z) (notes : string)
  | ImportTasks (b : blob) (r : Readings).

Section Sessions.
Context `{Host}.

Definition step (m : TaskModel) (o : op) : TaskModel :=
  match o with
  | AddTask now iso d => snd (addTask now iso d m)
  | UpdateTask id patch => snd (updateTask id patch m)
  | ToggleTask id iso => snd (toggleTask id iso m)
  | DeleteTask id => snd (deleteTask id m)
  | UndoDelete => snd (undoDelete m)
  | ClearCompleted => clearCompleted m
  | AddSubtask taskId txt now => snd (addSubtask taskId txt now m)
  | ToggleSubtask taskId subtaskId => snd (toggleSubtask taskId subtaskId m)
  | UpdateNotes taskId notes => snd (updateNotes taskId notes m)
  | ImportTasks b r => snd (importTasks b r m)
  end.

Definition run (m : TaskModel) (ops : list op) : TaskModel := foldl step m ops.
End Sessions.

(** ** A reference host

    Used to evaluate the model on concrete inputs: decimal numerals, dates of
    the form [YYYY-MM-DD], ASCII case folding and comparison by code unit. *)
Module Reference.
Definition number_to_string (z : Z) : string := NilZero.string_of_int (Z.to_int z).

Definition string_to_number (s : string) : option Z :=
  if is_empty (trim s) then Some 0
  else Z.of_int <$> NilZero.int_of_string (trim s).

Definition digits (s : string) : option Z :=
  match s with
  | EmptyString => None
  | _ => Z.of_uint <$> NilEmpty.uint_of_string s
  end.

(** Days since 1970-01-01 of a proleptic Gregorian date. *)
Definition days_from_civil (y m d : Z) : Z :=
  let y' := if m <=? 2 then y - 1 else y in
  let era := y' / 400 in
  let yoe := y' mod 400 in
  let doy := (153 * (if 2 <? m then m - 3 else m + 9) + 2) / 5 + d - 1 in
  let doe := yoe * 365 + yoe / 4 - yoe / 100 + doy in
  era * 146097 + doe - 719468.

Definition date_parse (s : string) : option Z :=
  if (String.length s =? 10)%nat
     && String.eqb (String.substring 4 1 s) "-" && String.eqb (String.substring 7 1 s) "-"
  then
    y ← digits (String.substring 0 4 s);
    m ← digits (String.substring 5 2 s);
    d ← digits (String.substring 8 2 s);
    if (1 <=? m) && (m <=? 12) && (1 <=? d) && (d <=? 31)
    then Some (days_from_civil y m d * 86400000)
    else None
  else None.

Definition lower_char (c : ascii) : ascii :=
  let n := nat_of_ascii c in
  if ((65 <=? n) && (n <=? 90))%nat then ascii_of_nat (n + 32) else c.

Fixpoint to_lower (s : string) : string :=
  match s with
  | EmptyString => EmptyString
  | String c r => String (lower_char c) (to_lower r)
  end.

Definition compare_units (a b : string) : Z :=
  match String.compare a b with
  | Lt => -1
  | Eq => 0
  | Gt => 1
  end.

#[export] Instance host : Host := {|
  NumberToString := number_to_string;
  StringToNumber := string_to_number;
  DateParse := date_parse;
  toLowerCase := to_lower;
  localeCompare := compare_units;
|}.
End Reference.

(** ** Sample data *)
Module Sample.
#[local] Open Scope string_scope.

Definition readings : Readings :=
  {| fresh := fun i => 1700000000000 + Z.of_nat i;
     stamp := fun _ => "2023-11-14T22:13:20.000Z" |}.

Definition draft (txt : string) : Draft :=
  {| text := txt; priority := None; category := None; dueDate := None; tags := None |}.

Definition empty : TaskModel := constructor None.

(** One active task, created at clock reading 7. *)
Definition one : TaskModel :=
  snd (addTask 7 "2024-01-01T00:00:00.000Z" (draft "Buy milk") empty).

Definition milk : Task := new_task 7 "2024-01-01T00:00:00.000Z" (draft "Buy milk").

(** The same task, completed on 2 January. *)
Definition milk_done : Task := toggled "2024-01-02T00:00:00.000Z" milk.

(** Three walks, with and without due date. *)
Definition walk (id : Z) (due : option string) : Task :=
  new_task id "2024-01-01T00:00:00.000Z"
    {| text := "Walk dog"; priority := None; category := None;
       dueDate := due; tags := Some ["dog"; "outside"] |}.

Definition walks : list Task :=
  [walk 1 None; walk 2 (Some "2024-03-01"); walk 3 (Some "2024-02-01")].
End Sample.

(** * The rest of the model and its callers *)

(** ** Statistics ([TaskModel.getStatistics])

    What the method reads of the calendar: the time value of [new Date()]
    and those of the local midnight of today and of the first of the
    month, which depend on the time zone. *)
Record Calendar := {
  clock : Z;
  todayStart : Z;
  monthStart : Z;
}.

Record Statistics := {
  total : Z;
  completed : Z;
  active : Z;
  todayCompleted : Z;
  weekCompleted : Z;
  monthCompleted : Z;
}.

(** [d >= start] on two dates: false when either is invalid. *)
Definition on_or_after (d start : option Z) : bool :=
  match d, start with
  | Some x, Some y => y <=? x
  | _, _ => false
  end.

(** [d > start] and [d < start] on two dates *)
Definition after (d start : option Z) : bool :=
  match d, start with
  | Some x, Some y => y <? x
  | _, _ => false
  end.

Definition before (d start : option Z) : bool :=
  match d, start with
  | Some x, Some y => x <? y
  | _, _ => false
  end.

Section Statistics.
Context `{Host}.

(** [t.completed && new Date(t.completedAt) >= start] *)
Definition completed_since (start : option Z) (t : Task) : completion bool :=
  if is_completed t
  then d ← Date_ (t !! "completedAt"); Normal (on_or_after d start)
  else Normal false.

Definition count {A} (l : list A) : Z := Z.of_nat (length l).

Definition getStatistics (c : Calendar) (m : TaskModel) : completion Statistics :=
  let weekStart := time_clip (clock c - 7 * 24 * 60 * 60 * 1000) in
  let total := count (tasks m) in
  let completed := count (List.filter is_completed (tasks m)) in
  let active := total - completed in
  today ← filterM (completed_since (Some (todayStart c))) (tasks m);
  week ← filterM (completed_since weekStart) (tasks m);
  month ← filterM (completed_since (Some (monthStart c))) (tasks m);
  Normal {| total := total; completed := completed; active := active;
            todayCompleted := count today;
            weekCompleted := count week;
            monthCompleted := count month |}.
End Statistics.

(** ** More of [main.js] and [ui.js] *)

(** [reorderModelFromDOM]: [ids] are the identifiers of the items of the
    list as it is displayed after a drag, in their order. *)
Definition reorderModelFromDOM (ids : list Z) (m : TaskModel) : TaskModel :=
  let newOrder := omap (fun id => snd <$> find_task id (tasks m)) ids in
  match newOrder with
  | [] => m
  | _ => {| tasks := newOrder; deletedTask := deletedTask m |}
  end.

(** The [save] closure of [inlineEdit]: [prev] is the text displayed
    before the edit, [input] what the field holds when it loses focus. *)
Definition onEditSave (id : Z) (prev input : string) (m : TaskModel) : TaskModel :=
  let newVal := trim input in
  if negb (is_empty newVal) && negb (String.eqb newVal prev)
  then snd (updateTask id {[ "text" := VStr newVal ]} m)
  else m.

(** The click handler of a subtask's add button. *)
Definition onAddSubtaskClick (tId : Z) (input : string) (now : Z) (m : TaskModel)
  : TaskModel :=
  if negb (is_empty (trim input)) then snd (addSubtask tId input now m) else m.

Section Dates.
Context `{Host}.

(** [UI._isOverdue(task)], [now] being the reading of its [new Date()]. *)
Definition isOverdue (now : Z) (t : Task) : completion bool :=
  if negb (truthy (t !! "dueDate")) || is_completed t then Normal false
  else due ← Date_ (t !! "dueDate"); Normal (before due (Some now)).

(** The test of [checkDueDatesAndNotify] on one task: whether a reminder is
    requested for it. *)
Definition dueSoon (now : Z) (t : Task) : completion bool :=
  let soon := time_clip (now + 60 * 60 * 1000) in
  if negb (truthy (t !! "dueDate")) || is_completed t then Normal false
  else due ← Date_ (t !! "dueDate");
       Normal (after due (Some now) && on_or_after soon due).

(** [Math.ceil(x / d)] for an integer [x] and a positive integer [d].
    The difference [x] of two time values is exact up to [2 ^ 53] in
    absolute value, and its quotient by the milliseconds of a day is then
    far enough from the next integer, when it is not one, for the rounding
    of the division not to reach it.  Past [2 ^ 53] the difference is
    rounded, and the quotient stays far from the week that the labels
    distinguish. *)
Definition ceil_div (x d : Z) : Z := - ((- x) / d).

(** [formatDueDate] ([utils.js]); [now] is the reading of its [new Date()],
    [toLocaleDateString] the host's rendering of a date (of an invalid one
    too) under the options the function passes. *)
Definition formatDueDate (toLocaleDateString : option Z -> string)
    (now : Z) (dueISO : option value) : completion string :=
  if negb (truthy dueISO) then Normal EmptyString
  else
    date ← Date_ dueISO;
    let diffMs := minus date (Some now) in
    let diffDays := (fun x => ceil_div x (1000 * 60 * 60 * 24)) <$> diffMs in
    Normal match diffDays with
           | None => toLocaleDateString date
           | Some n =>
               if n <? 0
               then ("Overdue by " +:+ NumberToString (Z.abs n) +:+ " days")%string
               else if n =? 0 then "Due today"%string
               else if n =? 1 then "Due tomorrow"%string
               else if n <=? 7
               then ("Due in " +:+ NumberToString n +:+ " days")%string
               else toLocaleDateString date
           end.
End Dates.

(** ** The single-file version ([script.js])

    Its collection is the variable [tasks]; tasks have [id], [text],
    [completed], [priority] and [createdAt]. *)
Module Script.
Definition toggleTask (id : Z) (ts : list Task) : list Task :=
  match find_task id ts with
  | None => ts
  | Some (i, t) =>
      <[i := <["completed" := VBool (negb (truthy (t !! "completed")))]> t]> ts
  end.

Definition deleteTask (id : Z) (ts : list Task) : list Task :=
  List.filter (fun t => negb (has_id id t)) ts.

(** The three counters of [updateStats]: total, active, completed. *)
Definition updateStats (ts : list Task) : Z * Z * Z :=
  (Z.of_nat (length ts),
   Z.of_nat (length (List.filter (fun t => negb (is_completed t)) ts)),
   Z.of_nat (length (List.filter is_completed ts))).
End Script.

(** * Vocabulary of the properties *)

(** [t], at position [i], is the first task of [l] whose [id] is [id]. *)
Definition first_with_id (id : Z) (l : list Task) (i : nat) (t : Task) : Prop :=
  l !! i = Some t /\ has_id id t = true /\
  forall j u, l !! j = Some u -> (j < i)%nat -> has_id id u = false.

Definition no_task_with_id (id : Z) (l : list Task) : Prop :=
  Forall (fun t => has_id id t = false) l.

(** [completedAt] is set: present and not [null]. *)
Definition completedAt_set (t : Task) : bool :=
  match t !! "completedAt" with
  | None | Some VNull => false
  | Some _ => true
  end.

(** [completed] holds exactly when [completedAt] is set. *)
Definition consistent (t : Task) : Prop := is_completed t = completedAt_set t.

(** The task held in the undo slot may come back into the collection, so
    the invariant of the model covers it too. *)
Definition model_consistent (m : TaskModel) : Prop :=
  Forall consistent (tasks m) /\
  forall d, deletedTask m = Some d -> consistent (task d).

(** The calls that cannot break the invariant: all but [importTasks] and
    an [updateTask] whose patch provides [completed] or [completedAt]. *)
Definition keeps_completion (o : op) : Prop :=
  match o with
  | UpdateTask _ patch => patch !! "completed" = None /\ patch !! "completedAt" = None
  | ImportTasks _ _ => False
  | _ => True
  end.

(** The identifiers in the collection, in order. *)
Definition ids (m : TaskModel) : list (option value) :=
  (fun t : Task => t !! "id") <$> tasks m.

(** No white space at the start. *)
Definition starts_clean (s : string) : Prop :=
  match s with
  | EmptyString => True
  | String c _ => is_white_space c = false
  end.

(** The property names of a task. *)
Definition task_keys : gset string :=
  {[ "id"; "text"; "completed"; "priority"; "category"; "dueDate"; "tags";
     "notes"; "subtasks"; "createdAt"; "completedAt" ]}.

(** Values that [ToString] converts: no object with a property [toString]
    of its own, at the top or in the elements of an array. *)
Fixpoint convertible (v : value) : bool :=
  match v with
  | VArr l => forallb convertible l
  | VObj m => match m !! "toString" with Some _ => false | None => true end
  | _ => true
  end.

(** The property of an element, [undefined] for what is not an object. *)
Definition property (p : value) (k : string) : option value :=
  match p with
  | VObj m => m !! k
  | _ => None
  end.

(** Elements that are not [null] and whose [id] and [text], when present,
    are convertible. *)
Definition importable (p : value) : Prop :=
  p <> VNull /\
  (forall v, property p "id" = Some v -> convertible v = true) /\
  (forall v, property p "text" = Some v -> convertible v = true).

Section Coercion.
Context `{Host}.

(** The number that [v] converts to, unless [v] cannot be converted or
    converts to [0] or [NaN]: those are the values for which the default
    stands in. *)
Definition number_of (v : option value) : option Z :=
  match Number_ v with
  | Normal (Some z) => if z =? 0 then None else Some z
  | _ => None
  end.

(** The string that [v] converts to when it is truthy, the empty string
    when it is falsy or missing. *)
Definition string_of (v : option value) : string :=
  if truthy v
  then match String_ v with Normal s => s | Throw => EmptyString end
  else EmptyString.

(** What [importTasks] makes of an element [p] at position [i]: a task with
    exactly the eleven properties, each of them determined: the given
    value where it is usable, the default where it is missing or falsy
    (for [id]: where it does not convert to a number other than 0). *)
Definition coerced (r : Readings) (i : nat) (p : value) (t : Task) : Prop :=
  dom t = task_keys /\
  t !! "id" = Some (VNum (default (fresh r i) (number_of (property p "id")))) /\
  t !! "text" = Some (VStr (string_of (property p "text"))) /\
  t !! "completed" = Some (VBool (truthy (property p "completed"))) /\
  t !! "priority" = Some (or_else (property p "priority") (VStr "medium")) /\
  t !! "category" = Some (or_else (property p "category") (VStr "personal")) /\
  t !! "dueDate" = Some (or_else (property p "dueDate") VNull) /\
  t !! "tags" = Some (array_or_empty (property p "tags")) /\
  t !! "notes" = Some (or_else (property p "notes") (VStr EmptyString)) /\
  t !! "subtasks" = Some (array_or_empty (property p "subtasks")) /\
  t !! "createdAt" = Some (or_else (property p "createdAt") (VStr (stamp r i))) /\
  t !! "completedAt" = Some (or_else (property p "completedAt") VNull).
End Coercion.

Definition nonempty_string (v : option value) : Prop :=
  exists s, v = Some (VStr s) /\ s <> EmptyString.

Definition null_or_nonempty_string (v : option value) : Prop :=
  v = Some VNull \/ nonempty_string v.

(** A task as the header of [taskModel.js] describes it, with a non-zero
    identifier and non-empty [priority], [category] and time stamps. *)
Definition well_formed (t : Task) : Prop :=
  dom t = task_keys /\
  (exists z, t !! "id" = Some (VNum z) /\ z <> 0) /\
  (exists s, t !! "text" = Some (VStr s)) /\
  (exists b, t !! "completed" = Some (VBool b)) /\
  nonempty_string (t !! "priority") /\
  nonempty_string (t !! "category") /\
  null_or_nonempty_string (t !! "dueDate") /\
  (exists l, t !! "tags" = Some (VArr l)) /\
  (exists s, t !! "notes" = Some (VStr s)) /\
  (exists l, t !! "subtasks" = Some (VArr l)) /\
  nonempty_string (t !! "createdAt") /\
  null_or_nonempty_string (t !! "completedAt").

Definition has_dueDate (t : Task) : bool := truthy (t !! "dueDate").

Definition is_string (v : value) : Prop := exists s, v = VStr s.

(** Tasks on which the search filter does not throw: [text] is a string,
    [notes] a string when not empty, [tags] an array of strings when
    present. *)
Definition searchable (t : Task) : Prop :=
  (exists s, t !! "text" = Some (VStr s)) /\
  (truthy (t !! "notes") = true -> exists s, t !! "notes" = Some (VStr s)) /\
  (truthy (t !! "tags") = true ->
     exists l, t !! "tags" = Some (VArr l) /\ Forall is_string l).

Section DueOrder.
Context `{Host}.

(** The instant that the due date of a task denotes. *)
Definition due_instant (t : Task) (z : Z) : Prop :=
  Date_ (t !! "dueDate") = Normal (Some z).

(** A due date, when there is one, denotes an instant. *)
Definition dated (t : Task) : Prop :=
  has_dueDate t = true -> exists z, due_instant t z.

Definition due_key (t : Task) : option Z :=
  if has_dueDate t then
    match Date_ (t !! "dueDate") with
    | Normal (Some z) => Some z
    | _ => None
    end
  else None.

(** Earlier due dates first, no due date last. *)
Definition due_le (a b : Task) : Prop :=
  match due_key a, due_key b with
  | _, None => True
  | None, Some _ => False
  | Some x, Some y => x <= y
  end.
End DueOrder.

(** ** Vocabulary of the further properties *)

Section StatisticsVocabulary.
Context `{Host}.

(** The completion time of a completed task can be read as a date (a valid
    or an invalid one). *)
Definition timed (t : Task) : Prop :=
  is_completed t = true -> exists d, Date_ (t !! "completedAt") = Normal d.

(** The date that [completedAt] denotes, invalid when it cannot be read. *)
Definition completion_date (t : Task) : option Z :=
  match Date_ (t !! "completedAt") with
  | Normal d => d
  | Throw => None
  end.

(** Completed, at [start] or later. *)
Definition since (start : option Z) (t : Task) : bool :=
  is_completed t && on_or_after (completion_date t) start.
End StatisticsVocabulary.

(** No comma in the string. *)
Fixpoint comma_free (s : string) : bool :=
  match s with
  | EmptyString => true
  | String c r => negb (Ascii.eqb c ","%char) && comma_free r
  end.

(** A string that is not empty and has no white space at either end. *)
Definition trimmed_nonempty (s : string) : Prop :=
  s <> EmptyString /\ trim s = s.

(** A task whose [text] is a non-empty trimmed string. *)
Definition named (t : Task) : Prop :=
  exists s, t !! "text" = Some (VStr s) /\ trimmed_nonempty s.

(** The undo slot holds a well-formed task, if any. *)
Definition model_well_formed (m : TaskModel) : Prop :=
  Forall well_formed (tasks m) /\
  forall d, deletedTask m = Some d -> well_formed (task d).

(** The calls that keep the documented shape of the tasks: those of the
    interface, with clock readings that are not zero or empty and, for a
    new task, a priority and a category that are not empty; [updateTask]
    as the inline edit calls it, with a patch of the text alone. *)
Definition keeps_shape (o : op) : Prop :=
  match o with
  | AddTask now iso d =>
      now <> 0 /\ iso <> EmptyString /\
      priority d <> Some EmptyString /\ category d <> Some EmptyString
  | UpdateTask _ patch => exists s, patch = {[ "text" := VStr s ]}
  | ToggleTask _ iso => iso <> EmptyString
  | ImportTasks _ _ => False
  | _ => True
  end.

(** What the documented shape asks of the value of a property. *)
Definition field_ok (k : string) (v : value) : Prop :=
  (k = "id" -> exists z, v = VNum z /\ z <> 0) /\
  (k = "text" -> exists s, v = VStr s) /\
  (k = "completed" -> exists b, v = VBool b) /\
  (k = "priority" -> nonempty_string (Some v)) /\
  (k = "category" -> nonempty_string (Some v)) /\
  (k = "dueDate" -> null_or_nonempty_string (Some v)) /\
  (k = "tags" -> exists l, v = VArr l) /\
  (k = "notes" -> exists s, v = VStr s) /\
  (k = "subtasks" -> exists l, v = VArr l) /\
  (k = "createdAt" -> nonempty_string (Some v)) /\
  (k = "completedAt" -> null_or_nonempty_string (Some v)).

(** The identifier of a task, when it is a number. *)
Definition task_id (t : Task) : option Z :=
  match t !! "id" with
  | Some (VNum z) => Some z
  | _ => None
  end.

(** Every task has a numeric identifier and no two share one. *)
Definition distinct_ids (l : list Task) : Prop :=
  Forall (fun t => is_Some (task_id t)) l /\ NoDup (task_id <$> l).

Section SortVocabulary.
Context {A : Type} (comparefn : A -> A -> completion (option Z)).
Context (P : A -> Prop).

(** A class of elements that the comparator never sends one before the
    other: called on two of them it does not answer below zero. *)
Definition tied (f : A -> bool) : Prop :=
  forall x y v, P x -> P y -> f x = true -> f y = true ->
    comparefn x y = Normal v -> 0 <= default 0 v.

(** Each element, compared with the one before it, is not sent before
    it. *)
Fixpoint settled (prev : option A) (l : list A) : Prop :=
  match l with
  | [] => True
  | x :: r =>
      match prev with
      | Some y => exists v, comparefn x y = Normal v /\ 0 <= default 0 v
      | None => True
      end /\ settled (Some x) r
  end.
End SortVocabulary.

(** Only white space and commas. *)
Fixpoint blank_or_commas (s : string) : bool :=
  match s with
  | EmptyString => true
  | String c r => (is_white_space c || Ascii.eqb c ","%char) && blank_or_commas r
  end.

(** The priority is one of the three of the interface. *)
Definition ranked (t : Task) : Prop :=
  t !! "priority" = Some (VStr "high") \/
  t !! "priority" = Some (VStr "medium") \/
  t !! "priority" = Some (VStr "low").

(** The number that the sort by priority gives a task. *)
Definition rank (t : Task) : Z :=
  match t !! "priority" with
  | Some (VStr s) =>
      if String.eqb s "high" then 3
      else if String.eqb s "medium" then 2
      else if String.eqb s "low" then 1
      else 0
  | _ => 0
  end.

(** The priority is the string [p]. *)
Definition has_priority (p : string) (t : Task) : bool :=
  match t !! "priority" with
  | Some (VStr s) => String.eqb s p
  | _ => false
  end.

Section ScheduledVocabulary.
Context `{Host}.

(** The task has a due date, and the due date denotes an instant.  On
    such tasks the comparator of the sort by due date is the difference
    of the instants. *)
Definition scheduled (t : Task) : Prop :=
  has_dueDate t = true /\ exists z, due_instant t z.

(** The due instant of a scheduled task. *)
Definition due_time (t : Task) : Z := default 0 (due_key t).
End ScheduledVocabulary.

Section CreatedVocabulary.
Context `{Host}.

(** The creation time denotes an instant. *)
Definition created (t : Task) : Prop :=
  exists z, Date_ (t !! "createdAt") = Normal (Some z).

(** The instant of creation. *)
Definition created_instant (t : Task) : Z :=
  match Date_ (t !! "createdAt") with
  | Normal (Some z) => z
  | _ => 0
  end.
End CreatedVocabulary.

(** The status filter lets the task through. *)
Definition status_ok (state : ViewState) (t : Task) : bool :=
  if String.eqb (currentFilter state) "active" then negb (is_completed t)
  else if String.eqb (currentFilter state) "completed" then is_completed t
  else true.

(** The category filter lets the task through. *)
Definition category_ok (state : ViewState) (t : Task) : bool :=
  if negb (String.eqb (currentCategory state) "all")
  then is_category (currentCategory state) t
  else true.

Section ViewVocabulary.
Context `{Host}.

(** The search, when there is a query, finds it in the task. *)
Definition search_ok (state : ViewState) (t : Task) : Prop :=
  is_empty (searchQuery state) = false ->
  matches_search (toLowerCase (searchQuery state)) t = Normal true.

(** The three filters let the task through. *)
Definition passes (state : ViewState) (t : Task) : Prop :=
  status_ok state t = true /\ category_ok state t = true /\ search_ok state t.

(** The tasks are as the comparator of the sort key needs them to order
    them consistently: for the due date, every task has one that denotes
    an instant.  The two keys that compare with the locale are left
    out. *)
Definition sort_typed (state : ViewState) (l : list Task) : Prop :=
  (currentSort state = "duedate" -> Forall scheduled l) /\
  (currentSort state = "priority" -> Forall ranked l) /\
  (currentSort state = "date-asc" \/ currentSort state = "date-desc" ->
   Forall created l) /\
  currentSort state <> "alphabetical" /\
  currentSort state <> "category".
End ViewVocabulary.

(** The milliseconds of a day. *)
Definition day_ms : Z := 1000 * 60 * 60 * 24.

(** How many tasks of the list have the identifier. *)
Definition occurrences (id : Z) (l : list Task) : nat :=
  length (List.filter (has_id id) l).

(** ** More sample data *)
Module Samples.
#[local] Open Scope string_scope.

(** Noon of 2 January 2024, with the midnights of that day and of the
    first of the month (UTC). *)
Definition calendar : Calendar :=
  {| clock := 1704196800000; todayStart := 1704153600000;
     monthStart := 1704067200000 |}.

(** The milk, bought on 2 January. *)
Definition milk_bought : Task := toggled "2024-01-02" Sample.milk.

Definition household : TaskModel :=
  {| tasks := [milk_bought; Sample.walk 1 None]; deletedTask := None |}.

(** The statistics of the household on that calendar. *)
Definition household_statistics : Statistics :=
  {| total := 2; completed := 1; active := 1;
     todayCompleted := 1; weekCompleted := 1; monthCompleted := 1 |}.

(** The milk with one step to it. *)
Definition carton : Obj :=
  list_to_map [ ("id", VNum 11); ("text", VStr "carton"); ("completed", VBool false) ].

Definition milk_with_step : Task := <["subtasks" := VArr [VObj carton]]> Sample.milk.

Definition stepped : TaskModel :=
  {| tasks := [milk_with_step]; deletedTask := None |}.

(** Chores of several priorities, created on different days. *)
Definition chore (id : Z) (p day : string) : Task :=
  new_task id day
    {| text := "Chore"; priority := Some p; category := None;
       dueDate := None; tags := None |}.

Definition chores : list Task :=
  [chore 1 "low" "2024-01-03"; chore 2 "high" "2024-01-01"; chore 3 "low" "2024-01-02"].

Definition by_due : ViewState :=
  {| currentFilter := "all"; currentCategory := "all";
     currentSort := "duedate"; searchQuery := "dog" |}.

(** Walks that all have a due date, two of them the same. *)
Definition errands : list Task :=
  [Sample.walk 1 (Some "2024-03-01"); Sample.walk 2 (Some "2024-02-01");
   Sample.walk 3 (Some "2024-03-01")].

Definition errands_by_due : list Task :=
  [Sample.walk 2 (Some "2024-02-01"); Sample.walk 1 (Some "2024-03-01");
   Sample.walk 3 (Some "2024-03-01")].

(** Midnight of 1 March 2024 (UTC). *)
Definition march_first : Z := 1709251200000.
End Samples.

(** * Properties *)

(** ** Finding a task by identifier *)

Lemma find_task_Some id l i t :
  find_task id l = Some (i, t) <-> first_with_id id l i t.
Proof.
  unfold find_task, first_with_id. rewrite list_find_Some. split.
  - intros (Hl & Hp & Hmin). split_and!; [done | by apply Is_true_true |].
    intros j u Hj Hlt. specialize (Hmin j u Hj Hlt).
    destruct (has_id id u); [by destruct Hmin | done].
  - intros (Hl & Hp & Hmin). split_and!; [done | by apply Is_true_true |].
    intros j u Hj Hlt. rewrite (Hmin j u Hj Hlt). by intros [].
Qed.

Lemma find_task_None id l :
  find_task id l = None <-> no_task_with_id id l.
Proof.
  unfold find_task, no_task_with_id. rewrite list_find_None.
  apply Forall_iff; intros t. destruct (has_id id t); simpl; naive_solver.
Qed.

Lemma has_id_insert id k v (t : Task) :
  k <> "id" -> has_id id (<[k := v]> t) = has_id id t.
Proof. intros Hk. unfold has_id. by rewrite lookup_insert_ne. Qed.

(** Replacing the task found by one with the same identifier leaves it
    the first with that identifier. *)
Lemma first_with_id_insert id l i t t' :
  first_with_id id l i t -> has_id id t' = true ->
  first_with_id id (<[i := t']> l) i t'.
Proof.
  intros (Hl & _ & Hmin) Ht'. split_and!; [| done |].
  - apply list_lookup_insert_eq. by eapply lookup_lt_Some.
  - intros j u Hj Hlt. rewrite list_lookup_insert_ne in Hj by lia. eauto.
Qed.

(** ** C7: deleteTask *)

(** C7, as the code has it: [deleteTask id] removes the first task whose
    identifier is [id], records it with its index in the undo slot whatever
    the slot held, and returns that record [{ task, index }]; when no task
    has the identifier it returns [null] and changes nothing. *)
Theorem deleteTask_removes_and_buffers (m : TaskModel) (id : Z) :
  (forall i t, first_with_id id (tasks m) i t ->
     deleteTask id m =
       (value_of_entry {| task := t; index := i |},
        {| tasks := take i (tasks m) ++ drop (S i) (tasks m);
           deletedTask := Some {| task := t; index := i |} |})) /\
  (no_task_with_id id (tasks m) -> deleteTask id m = (VNull, m)).
Proof.
  split.
  - intros i t Hf. apply find_task_Some in Hf. unfold deleteTask.
    rewrite Hf. by rewrite delete_take_drop.
  - intros Hn. apply find_task_None in Hn. unfold deleteTask. by rewrite Hn.
Qed.

Lemma deleteTask_removes_and_buffers_witness :
  deleteTask 7 Sample.one =
    (value_of_entry {| task := Sample.milk; index := 0 |},
     {| tasks := []; deletedTask := Some {| task := Sample.milk; index := 0 |} |}) /\
  deleteTask 8 Sample.one = (VNull, Sample.one).
Proof.
  split.
  - apply (proj1 (deleteTask_removes_and_buffers Sample.one 7) 0%nat Sample.milk).
    split_and!; [reflexivity | reflexivity |]. intros j u _ Hlt. lia.
  - apply (proj2 (deleteTask_removes_and_buffers Sample.one 8)).
    repeat constructor.
Defined.

(** C7 as stated fails: what [deleteTask] returns is the undo record, not
    the removed task. *)
Lemma deleteTask_returns_entry_not_task :
  first_with_id 7 (tasks Sample.one) 0 Sample.milk /\
  fst (deleteTask 7 Sample.one) <> VObj Sample.milk /\
  fst (deleteTask 7 Sample.one) =
    VObj (<["task" := VObj Sample.milk]> (<["index" := VNum 0]> ∅)).
Proof.
  split_and!.
  - split_and!; [reflexivity | reflexivity |]. intros j u _ Hlt. lia.
  - intros Heq. vm_compute in Heq. discriminate Heq.
  - reflexivity.
Qed.

(** ** C8: undoDelete *)

Lemma splice_in_delete {A} (l : list A) i x :
  l !! i = Some x -> splice_in i x (delete i l) = l.
Proof.
  intros Hl. unfold splice_in. rewrite delete_take_drop.
  assert (length (take i l) = i) as Hlen.
  { rewrite length_take. apply lookup_lt_Some in Hl. lia. }
  rewrite take_app_length', drop_app_length' by done.
  by apply take_drop_middle.
Qed.

Lemma splice_in_past_end {A} (l : list A) i x :
  (length l <= i)%nat -> splice_in i x l = l ++ [x].
Proof.
  intros Hle. unfold splice_in. by rewrite take_ge, drop_ge.
Qed.

Lemma splice_in_lookup {A} (l : list A) i x :
  (i <= length l)%nat -> splice_in i x l !! i = Some x.
Proof.
  intros Hle. unfold splice_in.
  rewrite lookup_app_r; rewrite length_take; [| lia].
  by replace (i - i `min` length l)%nat with 0%nat by lia.
Qed.

Section Undo.
Context `{Host}.

(** C8: in whatever state a session has left the model, [undoDelete] right
    after a successful [deleteTask] puts the very task that was removed
    back at its index, so that the collection is what it was, empties the
    undo slot and returns the task.  In general a filled slot is emptied,
    its task inserted at the recorded index, or appended when the
    collection is shorter than that; with an empty slot [undoDelete]
    returns [null] and changes nothing. *)
Theorem undoDelete_restores (m0 : TaskModel) (ops : list op) (id : Z) :
  let m := run m0 ops in
  (forall i t, first_with_id id (tasks m) i t ->
     undoDelete (snd (deleteTask id m)) =
       (VObj t, {| tasks := tasks m; deletedTask := None |}) /\
     tasks (snd (undoDelete (snd (deleteTask id m)))) !! i = Some t) /\
  (forall d, deletedTask m = Some d ->
     undoDelete m =
       (VObj (task d),
        {| tasks := splice_in (index d) (task d) (tasks m); deletedTask := None |}) /\
     ((index d <= length (tasks m))%nat ->
        splice_in (index d) (task d) (tasks m) !! index d = Some (task d)) /\
     ((length (tasks m) <= index d)%nat ->
        splice_in (index d) (task d) (tasks m) = tasks m ++ [task d])) /\
  (deletedTask m = None -> undoDelete m = (VNull, m)).
Proof.
  intros m. split_and!.
  - intros i t Hf. pose proof Hf as (Hl & _).
    apply find_task_Some in Hf. unfold deleteTask. rewrite Hf. simpl.
    unfold undoDelete. simpl. by rewrite splice_in_delete.
  - intros d Hd. unfold undoDelete. rewrite Hd. split_and!; [done | |].
    + apply splice_in_lookup.
    + apply splice_in_past_end.
  - intros Hd. unfold undoDelete. by rewrite Hd.
Qed.
End Undo.

Lemma undoDelete_restores_witness :
  let m := run (H := Reference.host) Sample.empty
             [AddTask 7 "2024-01-01T00:00:00.000Z" (Sample.draft "Buy milk");
              AddTask 9 "2024-01-01T00:00:00.002Z" (Sample.draft "Walk dog");
              DeleteTask 9; UndoDelete] in
  undoDelete (snd (deleteTask 7 m)) =
    (VObj Sample.milk, {| tasks := tasks m; deletedTask := None |}) /\
  undoDelete m = (VNull, m).
Proof.
  intros m. split.
  - apply (proj1 (undoDelete_restores (H := Reference.host) Sample.empty _ 7) 1%nat).
    split_and!; [reflexivity | reflexivity |].
    intros j u Hj Hlt. assert (j = 0%nat) as -> by lia.
    vm_compute in Hj. injection Hj as <-. reflexivity.
  - apply (proj2 (proj2 (undoDelete_restores (H := Reference.host) Sample.empty _ 7))).
    reflexivity.
Defined.

(** ** C4: updateTask *)

(** C4, as the code has it: [updateTask id patch] replaces the first task
    with the identifier by the task overlaid with the patch, every property
    the patch provides taking the patch's value, [id] and [createdAt]
    included, and every other property keeping the task's; the other tasks
    and the undo slot are untouched.  [id] and [createdAt] are kept when the
    patch does not provide them.  When no task has the identifier it
    returns [null] and changes nothing. *)
Theorem updateTask_overlays_patch (m : TaskModel) (id : Z) (patch : Obj) :
  (forall i t, first_with_id id (tasks m) i t ->
     let updated : Task := patch ∪ t in
     updateTask id patch m =
       (VObj updated,
        {| tasks := <[i := updated]> (tasks m); deletedTask := deletedTask m |}) /\
     (forall k, updated !! k =
                match patch !! k with Some v => Some v | None => t !! k end) /\
     (patch !! "id" = None -> updated !! "id" = t !! "id") /\
     (patch !! "createdAt" = None -> updated !! "createdAt" = t !! "createdAt") /\
     (forall j, j <> i -> <[i := updated]> (tasks m) !! j = tasks m !! j)) /\
  (no_task_with_id id (tasks m) -> updateTask id patch m = (VNull, m)).
Proof.
  assert (forall (t : Task) k,
    (patch ∪ t) !! k = match patch !! k with Some v => Some v | None => t !! k end)
    as Hov.
  { intros t k. rewrite lookup_union.
    by destruct (patch !! k), (t !! k). }
  split.
  - intros i t Hf updated. split_and!.
    + apply find_task_Some in Hf. unfold updateTask. by rewrite Hf.
    + apply Hov.
    + intros Hp. unfold updated. by rewrite Hov, Hp.
    + intros Hp. unfold updated. by rewrite Hov, Hp.
    + intros j Hj. by apply list_lookup_insert_ne.
  - intros Hn. apply find_task_None in Hn. unfold updateTask. by rewrite Hn.
Qed.

Lemma updateTask_overlays_patch_witness :
  updateTask 7 {[ "text" := VStr "Buy oat milk" ]} Sample.one =
    (VObj (<["text" := VStr "Buy oat milk"]> Sample.milk),
     {| tasks := [<["text" := VStr "Buy oat milk"]> Sample.milk];
        deletedTask := None |}) /\
  updateTask 8 {[ "text" := VStr "Buy oat milk" ]} Sample.one = (VNull, Sample.one).
Proof.
  split.
  - destruct (proj1 (updateTask_overlays_patch Sample.one 7
                       {[ "text" := VStr "Buy oat milk" ]}) 0%nat Sample.milk)
      as (Heq & _).
    + split_and!; [reflexivity | reflexivity |]. intros j u _ Hlt. lia.
    + rewrite Heq. reflexivity.
  - apply (proj2 (updateTask_overlays_patch Sample.one 8 _)).
    repeat constructor.
Defined.

(** C4 as stated fails: a patch that provides [id] or [createdAt] changes
    them. *)
Lemma updateTask_patch_changes_id :
  let patch : Obj := <["id" := VNum 99]> {[ "createdAt" := VStr "1999-12-31T00:00:00.000Z" ]} in
  let m' := snd (updateTask 7 patch Sample.one) in
  tasks Sample.one !! 0%nat ≫= (.!! "id") = Some (VNum 7) /\
  tasks m' !! 0%nat ≫= (.!! "id") = Some (VNum 99) /\
  tasks Sample.one !! 0%nat ≫= (.!! "createdAt") = Some (VStr "2024-01-01T00:00:00.000Z") /\
  tasks m' !! 0%nat ≫= (.!! "createdAt") = Some (VStr "1999-12-31T00:00:00.000Z").
Proof. split_and!; reflexivity. Qed.

(** ** C3: toggleTask *)

Lemma has_id_toggled id iso t : has_id id (toggled iso t) = has_id id t.
Proof. unfold toggled. by rewrite !has_id_insert. Qed.

Lemma toggled_twice iso1 iso2 (t : Task) :
  toggled iso2 (toggled iso1 t) =
    <["completedAt" := if is_completed t then VStr iso2 else VNull]>
      (<["completed" := VBool (is_completed t)]> t).
Proof.
  unfold toggled at 1. unfold is_completed.
  assert (truthy (toggled iso1 t !! "completed") = negb (truthy (t !! "completed")))
    as ->.
  { unfold toggled. rewrite lookup_insert_ne by done. by rewrite lookup_insert_eq. }
  rewrite negb_involutive. unfold toggled.
  apply map_eq. intros k.
  destruct (decide (k = "completedAt")) as [-> | Hk1].
  { by rewrite !lookup_insert_eq. }
  rewrite !(lookup_insert_ne _ "completedAt") by done.
  destruct (decide (k = "completed")) as [-> | Hk2].
  { by rewrite !lookup_insert_eq. }
  rewrite !(lookup_insert_ne _ "completed") by done.
  by rewrite !lookup_insert_ne by done.
Qed.

Lemma toggleTask_found (m : TaskModel) id iso i t :
  first_with_id id (tasks m) i t ->
  toggleTask id iso m =
    (VObj (toggled iso t),
     {| tasks := <[i := toggled iso t]> (tasks m); deletedTask := deletedTask m |}).
Proof.
  intros Hf. apply find_task_Some in Hf. unfold toggleTask. by rewrite Hf.
Qed.

(** C3, as the code has it: toggling the same identifier twice leaves
    [completed] as it was.  [completedAt] is as it was when the task was not
    completed and carried no completion time: the collection is then
    exactly what it was.  For a task that was completed, [completedAt] ends
    as the time of the second toggle. *)
Theorem toggleTask_twice (m : TaskModel) (id : Z) (iso1 iso2 : string) (i : nat) (t : Task) :
  first_with_id id (tasks m) i t ->
  let m2 := snd (toggleTask id iso2 (snd (toggleTask id iso1 m))) in
  exists t2,
    tasks m2 = <[i := t2]> (tasks m) /\
    tasks m2 !! i = Some t2 /\
    is_completed t2 = is_completed t /\
    (forall b, t !! "completed" = Some (VBool b) -> t2 !! "completed" = Some (VBool b)) /\
    (t !! "completed" = Some (VBool false) -> t !! "completedAt" = Some VNull ->
       t2 = t /\ tasks m2 = tasks m) /\
    (is_completed t = true -> t2 !! "completedAt" = Some (VStr iso2)).
Proof.
  intros Hf m2. pose proof Hf as (Hl & Hid & _).
  assert (i < length (tasks m))%nat as Hlt by by eapply lookup_lt_Some.
  exists (toggled iso2 (toggled iso1 t)).
  assert (tasks m2 = <[i := toggled iso2 (toggled iso1 t)]> (tasks m)) as Hm2.
  { unfold m2. rewrite (toggleTask_found m id iso1 i t Hf). simpl.
    rewrite (toggleTask_found _ id iso2 i (toggled iso1 t)); simpl.
    - by rewrite list_insert_insert_eq.
    - apply (first_with_id_insert id (tasks m) i t); [done |].
      by rewrite has_id_toggled. }
  rewrite Hm2, toggled_twice. split_and!.
  - done.
  - by apply list_lookup_insert_eq.
  - unfold is_completed at 1. rewrite lookup_insert_ne by done.
    rewrite lookup_insert_eq. done.
  - intros b Hb. rewrite lookup_insert_ne by done. rewrite lookup_insert_eq.
    unfold is_completed. by rewrite Hb.
  - intros Hc Ha. unfold is_completed. rewrite Hc. simpl.
    assert (<["completedAt" := VNull]> (<["completed" := VBool false]> t) = t) as ->.
    { rewrite (insert_id t "completed") by done. by rewrite insert_id. }
    split; [done |]. by apply list_insert_id.
  - intros Hc. rewrite Hc. by rewrite lookup_insert_eq.
Qed.

Lemma toggleTask_twice_witness :
  exists t2,
    tasks (snd (toggleTask 7 "2024-02-02T00:00:00.000Z"
                  (snd (toggleTask 7 "2024-02-01T00:00:00.000Z" Sample.one))))
      = <[0%nat := t2]> (tasks Sample.one) /\
    t2 = Sample.milk.
Proof.
  destruct (toggleTask_twice Sample.one 7 "2024-02-01T00:00:00.000Z"
              "2024-02-02T00:00:00.000Z" 0 Sample.milk) as (t2 & H1 & _ & _ & _ & H5 & _).
  - split_and!; [reflexivity | reflexivity |]. intros j u _ Hlt. lia.
  - exists t2. split; [exact H1 |]. apply H5; reflexivity.
Defined.

(** C3 as stated fails for a task that was completed: its completion time
    is not restored but replaced by the time of the second toggle. *)
Lemma toggleTask_twice_loses_completedAt :
  let m := {| tasks := [Sample.milk_done]; deletedTask := None |} in
  let m2 := snd (toggleTask 7 "2024-02-02T00:00:00.000Z"
                   (snd (toggleTask 7 "2024-02-01T00:00:00.000Z" m))) in
  first_with_id 7 (tasks m) 0 Sample.milk_done /\
  tasks m !! 0%nat ≫= (.!! "completedAt") = Some (VStr "2024-01-02T00:00:00.000Z") /\
  tasks m2 !! 0%nat ≫= (.!! "completedAt") = Some (VStr "2024-02-02T00:00:00.000Z") /\
  tasks m2 !! 0%nat ≫= (.!! "completedAt") <> tasks m !! 0%nat ≫= (.!! "completedAt").
Proof.
  split_and!.
  - split_and!; [reflexivity | reflexivity |]. intros j u _ Hlt. lia.
  - reflexivity.
  - reflexivity.
  - vm_compute. discriminate.
Qed.

(** ** C2: completed if and only if completedAt is set *)

Lemma consistent_same (t t' : Task) :
  t' !! "completed" = t !! "completed" ->
  t' !! "completedAt" = t !! "completedAt" ->
  consistent t -> consistent t'.
Proof.
  unfold consistent, is_completed, completedAt_set. by intros -> ->.
Qed.

Lemma consistent_insert (t : Task) k v :
  k <> "completed" -> k <> "completedAt" -> consistent t -> consistent (<[k := v]> t).
Proof.
  intros H1 H2. apply consistent_same; by rewrite lookup_insert_ne.
Qed.

Lemma consistent_toggled iso t : consistent (toggled iso t).
Proof.
  unfold consistent, is_completed, completedAt_set, toggled.
  rewrite lookup_insert_eq, lookup_insert_ne, lookup_insert_eq by done.
  by destruct (truthy (t !! "completed")).
Qed.

Lemma consistent_new_task now iso d : consistent (new_task now iso d).
Proof. reflexivity. Qed.

Lemma Forall_splice_in {A} (P : A -> Prop) i x l :
  P x -> Forall P l -> Forall P (splice_in i x l).
Proof.
  intros Hx Hl. unfold splice_in. apply Forall_app. split.
  - by apply Forall_take.
  - constructor; [done |]. by apply Forall_drop.
Qed.

Lemma Forall_List_filter {A} (P : A -> Prop) f l :
  Forall P l -> Forall P (List.filter f l).
Proof.
  induction 1 as [| x l Hx Hl IH]; simpl; [constructor |].
  destruct (f x); [by constructor | done].
Qed.

Section Invariant.
Context `{Host}.

(** One call that leaves [completed] and [completedAt] to the model. *)
Lemma step_consistent (m : TaskModel) (o : op) :
  model_consistent m -> keeps_completion o -> model_consistent (step m o).
Proof.
  intros Hm Hk. pose proof Hm as [Hts Hd]. destruct o; simpl in *.
  - (* addTask *)
    split; [| done]. constructor; [apply consistent_new_task | done].
  - (* updateTask *)
    destruct Hk as [Hk1 Hk2]. unfold updateTask.
    destruct (find_task id (tasks m)) as [[i t] |] eqn:Hf; [| done].
    apply find_task_Some in Hf as (Hl & _). split; [| done]. simpl.
    apply Forall_insert; [done |].
    apply (consistent_same t).
    + rewrite lookup_union, Hk1. by destruct (t !! "completed").
    + rewrite lookup_union, Hk2. by destruct (t !! "completedAt").
    + by eapply Forall_lookup_1.
  - (* toggleTask *)
    unfold toggleTask.
    destruct (find_task id (tasks m)) as [[i t] |] eqn:Hf; [| done].
    split; [| done]. simpl.
    apply Forall_insert; [done | apply consistent_toggled].
  - (* deleteTask *)
    unfold deleteTask.
    destruct (find_task id (tasks m)) as [[i t] |] eqn:Hf; [| done].
    apply find_task_Some in Hf as (Hl & _). split; simpl.
    + by apply Forall_delete.
    + intros d [= <-]. simpl. by eapply Forall_lookup_1.
  - (* undoDelete *)
    unfold undoDelete. destruct (deletedTask m) as [d |] eqn:Hdel; [| exact Hm].
    split; [| done]. simpl. apply Forall_splice_in; [by apply Hd | done].
  - (* clearCompleted *)
    split; [| done]. simpl. by apply Forall_List_filter.
  - (* addSubtask *)
    unfold addSubtask.
    destruct (find_task taskId (tasks m)) as [[i t] |] eqn:Hf; [| done].
    apply find_task_Some in Hf as (Hl & _).
    destruct (is_empty (trim txt)); [done |].
    destruct (t !! "subtasks") as [[] |]; try done.
    split; [| done]. simpl. apply Forall_insert; [done |].
    apply consistent_insert; [done | done |]. by eapply Forall_lookup_1.
  - (* toggleSubtask *)
    unfold toggleSubtask.
    destruct (find_task taskId (tasks m)) as [[i t] |] eqn:Hf; [| done].
    apply find_task_Some in Hf as (Hl & _).
    destruct (t !! "subtasks") as [[] |]; try done.
    destruct (find_subtask subtaskId 0 l) as [[[j s] |] |]; try done.
    split; [| done]. simpl. apply Forall_insert; [done |].
    apply consistent_insert; [done | done |]. by eapply Forall_lookup_1.
  - (* updateNotes *)
    unfold updateNotes.
    destruct (find_task taskId (tasks m)) as [[i t] |] eqn:Hf; [| done].
    apply find_task_Some in Hf as (Hl & _).
    split; [| done]. simpl. apply Forall_insert; [done |].
    apply consistent_insert; [done | done |]. by eapply Forall_lookup_1.
  - (* importTasks *)
    done.
Qed.

(** C2, as the code has it: [addTask], [toggleTask], [deleteTask],
    [undoDelete], [clearCompleted], [addSubtask], [toggleSubtask] and
    [updateNotes] keep, for every task of the collection and for the task
    in the undo slot, that [completed] holds exactly when [completedAt] is
    set; so does [updateTask] when the patch provides neither property.
    Hence the invariant holds after any sequence of such calls. *)
Theorem calls_keep_consistency (m : TaskModel) (ops : list op) :
  model_consistent m -> Forall keeps_completion ops ->
  model_consistent (run m ops) /\ Forall consistent (tasks (run m ops)).
Proof.
  intros Hm Hops.
  assert (model_consistent (run m ops)) as Hrun.
  { revert m Hm. induction Hops as [| o ops Ho Hops IH]; intros m Hm; [done |].
    simpl. apply IH. by apply step_consistent. }
  split; [done | by destruct Hrun].
Qed.
End Invariant.

Lemma calls_keep_consistency_witness :
  Forall consistent
    (tasks (run (H := Reference.host) Sample.one
              [ToggleTask 7 "2024-01-02T00:00:00.000Z";
               AddTask 9 "2024-01-03T00:00:00.000Z" (Sample.draft "Walk dog");
               UpdateTask 9 {[ "text" := VStr "Walk the dog" ]};
               DeleteTask 7; UndoDelete; ClearCompleted])).
Proof.
  apply (calls_keep_consistency (H := Reference.host)).
  - split; [| intros d Hd; discriminate Hd].
    apply Forall_cons. split; [reflexivity | apply Forall_nil_2].
  - repeat (apply Forall_cons; split; [first [exact I | split; reflexivity] |]).
    apply Forall_nil_2.
Defined.

(** C2 as stated fails for [updateTask] and for [importTasks]: a patch or
    an imported element that sets [completed] alone leaves a completed task
    without completion time. *)
Lemma updateTask_and_importTasks_break_consistency :
  model_consistent Sample.one /\
  ~ Forall consistent
      (tasks (snd (updateTask 7 {[ "completed" := VBool true ]} Sample.one))) /\
  (exists m',
     importTasks (H := Reference.host)
       (Json (VArr [VObj {[ "completed" := VBool true ]}]))
       Sample.readings Sample.one = (true, m') /\
     ~ Forall consistent (tasks m')).
Proof.
  split_and!.
  - split; [| intros d Hd; discriminate Hd].
    constructor; [reflexivity | constructor].
  - intros Hall. apply Forall_inv in Hall. vm_compute in Hall. discriminate Hall.
  - eexists. split; [reflexivity |].
    intros Hall. apply Forall_inv in Hall. vm_compute in Hall. discriminate Hall.
Qed.

(** ** C6: the identifier of a new task *)

(** C6, as the code has it: the identifier of a new task is the clock
    reading of the call.  It differs from the identifiers of all tasks in
    the collection whenever that reading is not already one of them, and
    then identifiers that were pairwise distinct stay so. *)
Theorem addTask_id_is_clock_reading (now : Z) (iso : string) (d : Draft) (m : TaskModel) :
  Forall (fun t : Task => t !! "id" <> Some (VNum now)) (tasks m) ->
  exists t : Task,
    addTask now iso d m =
      (VObj t, {| tasks := t :: tasks m; deletedTask := deletedTask m |}) /\
    t !! "id" = Some (VNum now) /\
    Forall (fun u : Task => u !! "id" <> t !! "id") (tasks m) /\
    (NoDup (ids m) -> NoDup (ids (snd (addTask now iso d m)))).
Proof.
  intros Hfresh. exists (new_task now iso d).
  assert (new_task now iso d !! "id" = Some (VNum now)) as Hid by reflexivity.
  split_and!; [done | done | by rewrite Hid |].
  intros Hnd. unfold ids. simpl. rewrite Hid. constructor; [| done].
  intros Hin. apply list_elem_of_fmap in Hin as (u & Hu & Hin).
  rewrite Forall_forall in Hfresh. by apply (Hfresh u).
Qed.

Lemma addTask_id_is_clock_reading_witness :
  exists t : Task,
    addTask 9 "2024-01-01T00:00:00.002Z" (Sample.draft "Walk dog") Sample.one =
      (VObj t, {| tasks := t :: tasks Sample.one; deletedTask := None |}) /\
    t !! "id" = Some (VNum 9).
Proof.
  destruct (addTask_id_is_clock_reading 9 "2024-01-01T00:00:00.002Z"
              (Sample.draft "Walk dog") Sample.one) as (t & H1 & H2 & _).
  - constructor; [| constructor]. vm_compute. discriminate.
  - exists t. split; [exact H1 | exact H2].
Defined.

(** C6 as stated fails: two calls at the same clock reading give two tasks
    the same identifier. *)
Lemma addTask_same_reading_repeats_id :
  let r := addTask 7 "2024-01-01T00:00:00.000Z" (Sample.draft "Walk dog") Sample.one in
  exists t old : Task,
    fst r = VObj t /\ old ∈ tasks Sample.one /\ t !! "id" = old !! "id" /\
    ~ NoDup (ids (snd r)).
Proof.
  intros r.
  exists (new_task 7 "2024-01-01T00:00:00.000Z" (Sample.draft "Walk dog")), Sample.milk.
  split_and!.
  - reflexivity.
  - apply list_elem_of_here.
  - reflexivity.
  - intros Hnd. apply NoDup_cons in Hnd as [Hnotin _]. apply Hnotin.
    apply list_elem_of_here.
Qed.

(** ** C1: drafts with blank text *)

Lemma trimStart_clean s : starts_clean (trimStart s).
Proof.
  induction s as [| c s IH]; simpl; [done |].
  by destruct (is_white_space c) eqn:Hc.
Qed.

Lemma trimStart_of_clean s : starts_clean s -> trimStart s = s.
Proof. destruct s as [| c s]; simpl; [done |]. by intros ->. Qed.

Lemma trimEnd_clean s : starts_clean s -> starts_clean (trimEnd s).
Proof.
  destruct s as [| c s]; simpl; [done |]. intros Hc.
  destruct (trimEnd s); [by rewrite Hc | done].
Qed.

Lemma trimEnd_idempotent s : trimEnd (trimEnd s) = trimEnd s.
Proof.
  induction s as [| c s IH]; simpl; [done |].
  destruct (trimEnd s) as [| c' r] eqn:Hs.
  - destruct (is_white_space c) eqn:Hc; simpl; [done | by rewrite Hc].
  - simpl in *. by rewrite IH.
Qed.

Lemma trim_idempotent s : trim (trim s) = trim s.
Proof.
  unfold trim.
  rewrite (trimStart_of_clean (trimEnd (trimStart s))).
  - apply trimEnd_idempotent.
  - apply trimEnd_clean, trimStart_clean.
Qed.

(** C1, as the code has it: the rejection of blank text is the caller's.
    The add button, for an input that is empty after trimming, returns
    without calling the model, and the collection is what it was; for any
    other input it adds a task with the trimmed text.  [addTask], given a
    draft whose text is not blank, puts a task with the trimmed text at the
    head of the collection and returns it. *)
Theorem blank_text_rejected_by_caller (now : Z) (iso : string) (f : AddForm) (m : TaskModel) :
  (is_empty (trim (taskInput f)) = true -> onAddTaskClick now iso f m = m) /\
  (is_empty (trim (taskInput f)) = false ->
     exists t : Task,
       tasks (onAddTaskClick now iso f m) = t :: tasks m /\
       t !! "text" = Some (VStr (trim (taskInput f)))) /\
  (forall d, is_empty (trim (text d)) = false ->
     exists t : Task,
       addTask now iso d m =
         (VObj t, {| tasks := t :: tasks m; deletedTask := deletedTask m |}) /\
       t !! "text" = Some (VStr (trim (text d)))).
Proof.
  split_and!.
  - intros He. unfold onAddTaskClick. by rewrite He.
  - intros He. unfold onAddTaskClick. rewrite He. simpl.
    eexists. split; [reflexivity |].
    change (new_task now iso _ !! "text") with
      (Some (VStr (trim (trim (taskInput f))))).
    by rewrite trim_idempotent.
  - intros d _. eexists. split; reflexivity.
Qed.

Lemma blank_text_rejected_by_caller_witness :
  let f := {| taskInput := "   "; prioritySelect := "medium";
              categorySelect := "personal"; dueDateInput := EmptyString; tagInput := EmptyString |} in
  onAddTaskClick 9 "2024-01-01T00:00:00.002Z" f Sample.one = Sample.one.
Proof.
  intros f.
  apply (proj1 (blank_text_rejected_by_caller 9 "2024-01-01T00:00:00.002Z" f Sample.one)).
  reflexivity.
Defined.

(** C1 as stated fails: given a draft whose text is blank, [addTask] adds a
    task with empty text and returns it. *)
Lemma addTask_accepts_blank_text :
  let r := addTask 9 "2024-01-01T00:00:00.002Z" (Sample.draft "   ") Sample.one in
  is_empty (trim (text (Sample.draft "   "))) = true /\
  r <> (VNull, Sample.one) /\
  length (tasks (snd r)) = S (length (tasks Sample.one)) /\
  tasks (snd r) !! 0%nat ≫= (.!! "text") = Some (VStr EmptyString) /\
  fst r = VObj (new_task 9 "2024-01-01T00:00:00.002Z" (Sample.draft "   ")).
Proof.
  intros r. split_and!; try reflexivity.
  intros Heq. apply (f_equal fst) in Heq. vm_compute in Heq. discriminate Heq.
Qed.

(** ** C5: importTasks *)

Section ImportSpec.
Context `{Host}.

Lemma get_property p k : p <> VNull -> get p k = Normal (property p k).
Proof. by destruct p. Qed.

Lemma value_induction (P : value -> Prop) :
  P VNull -> (forall b, P (VBool b)) -> (forall z, P (VNum z)) ->
  (forall s, P (VStr s)) -> (forall l, Forall P l -> P (VArr l)) ->
  (forall m, P (VObj m)) -> forall v, P v.
Proof.
  intros Hnull Hbool Hnum Hstr Harr Hobj.
  fix IH 1. intros [| b | z | s | l | m]; [done | done | done | done | | done].
  apply Harr.
  exact ((fix elems (l : list value) : Forall P l :=
            match l with
            | [] => Forall_nil_2 P
            | e :: r => Forall_cons_2 P e r (IH e) (elems r)
            end) l).
Qed.

Lemma ToString_VArr l :
  ToString (VArr l) = ss ← ToStrings l; Normal (join_comma ss).
Proof. reflexivity. Qed.

Lemma ToString_convertible v :
  convertible v = true -> exists s, ToString v = Normal s.
Proof.
  induction v as [| b | z | s | l IH | m] using value_induction; intros Hc;
    try (by eexists).
  - simpl in Hc. rewrite ToString_VArr.
    assert (exists ss, ToStrings l = Normal ss) as (ss & ->); [| by eexists].
    induction IH as [| e r He Hr IHr]; [by eexists |].
    simpl in Hc. apply andb_prop in Hc as [Hce Hcr].
    destruct (IHr Hcr) as (rs & Hrs).
    destruct (He Hce) as (se & Hse).
    destruct e; simpl; rewrite ?Hrs; simpl; try (by eexists);
      simpl in Hse; rewrite Hse; simpl; by eexists.
  - simpl in *. destruct (m !! "toString"); [done | by eexists].
Qed.

Lemma Number_convertible (v : option value) :
  (forall x, v = Some x -> convertible x = true) ->
  exists n, Number_ v = Normal n.
Proof.
  intros Hc. destruct v as [x |]; [| by exists None].
  destruct (ToString_convertible x (Hc x eq_refl)) as (s & Hs).
  destruct x; unfold Number_; rewrite ?Hs; by eexists.
Qed.

Lemma ToString_text (v : option value) :
  (forall x, v = Some x -> convertible x = true) ->
  ToString (or_else v (VStr EmptyString)) = Normal (string_of v).
Proof.
  intros Hc. unfold string_of. destruct v as [x |]; [| reflexivity].
  destruct (ToString_convertible x (Hc x eq_refl)) as (sx & Hsx).
  unfold or_else. destruct (truthy (Some x)) eqn:Ht; [| reflexivity].
  unfold String_. by rewrite Hsx.
Qed.

Lemma importItem_importable r i p :
  importable p -> exists t, importItem r i p = Normal t /\ coerced r i p t.
Proof.
  intros (Hnn & Hid & Htext). unfold importItem.
  rewrite !get_property by done.
  destruct (Number_convertible _ Hid) as (n & Hn).
  pose proof (ToString_text _ Htext) as Hs.
  simpl. rewrite Hn. simpl. rewrite Hs. simpl.
  eexists. split; [done |].
  split_and!; try reflexivity.
  rewrite lookup_insert_eq. do 2 f_equal. unfold number_of. rewrite Hn.
  destruct n as [z |]; [| done]. by destruct (z =? 0).
Qed.

Lemma mapM_from_importable r l : forall k,
  Forall importable l ->
  exists ts, mapM_from k (importItem r) l = Normal ts /\
    length ts = length l /\
    forall i p t, l !! i = Some p -> ts !! i = Some t -> coerced r (k + i) p t.
Proof.
  induction l as [| p l IH]; intros k Hall.
  - exists []. by split_and!.
  - apply Forall_cons in Hall as [Hp Hl].
    destruct (importItem_importable r k p Hp) as (t & Ht & Hc).
    destruct (IH (S k) Hl) as (ts & Hts & Hlen & Hco).
    exists (t :: ts). simpl. rewrite Ht. simpl. rewrite Hts. simpl.
    split_and!; [done | by rewrite Hlen |].
    intros [| i] p' t' Hp' Ht'; simpl in *.
    + injection Hp' as <-. injection Ht' as <-. by rewrite Nat.add_0_r.
    + replace (k + S i)%nat with (S k + i)%nat by lia. by eapply Hco.
Qed.

(** C5, as the code has it: [importTasks] returns [false] and leaves the
    model as it was when the text is not JSON or denotes something other
    than an array; whenever it returns [false] the model is what it was.
    For an array whose elements are not [null] and whose [id] and [text],
    where present, convert to primitives, it returns [true] and the
    collection becomes the array of the coerced elements, the undo slot
    untouched.  Each coerced element is determined: it has the eleven
    properties, with the element's value where that is usable and the
    default where it is missing or falsy; the identifier is the number
    that [id] converts to, or the fresh one when that is 0 or not a
    number. *)
Theorem importTasks_outcomes (r : Readings) (m : TaskModel) :
  (forall s, importTasks (NotJSON s) r m = (false, m)) /\
  (forall v, (forall l, v <> VArr l) -> importTasks (Json v) r m = (false, m)) /\
  (forall b, fst (importTasks b r m) = false -> snd (importTasks b r m) = m) /\
  (forall l, Forall importable l ->
     exists ts,
       importTasks (Json (VArr l)) r m =
         (true, {| tasks := ts; deletedTask := deletedTask m |}) /\
       length ts = length l /\
       forall i p t, l !! i = Some p -> ts !! i = Some t -> coerced r i p t).
Proof.
  split_and!.
  - done.
  - intros v Hv. destruct v; try done. by destruct (Hv l).
  - intros b. destruct b as [s | v]; [done |]. destruct v; try done. simpl.
    by destruct (mapM_from 0 (importItem r) l).
  - intros l Hall.
    destruct (mapM_from_importable r l 0 Hall) as (ts & Hts & Hlen & Hco).
    exists ts. simpl. rewrite Hts. by split_and!.
Qed.
End ImportSpec.

Lemma importTasks_outcomes_witness :
  let l := [VObj {[ "text" := VStr "Walk dog" ]}; VNum 3;
            VObj {[ "id" := VNum 0 ]}; VObj {[ "id" := VNull ]}] in
  importTasks (H := Reference.host) (NotJSON "not an array") Sample.readings Sample.one
    = (false, Sample.one) /\
  exists ts,
    importTasks (H := Reference.host) (Json (VArr l)) Sample.readings Sample.one
      = (true, {| tasks := ts; deletedTask := None |}) /\
    length ts = 4%nat /\
    forall i p t, l !! i = Some p -> ts !! i = Some t ->
      coerced (H := Reference.host) Sample.readings i p t.
Proof.
  intros l.
  pose proof (importTasks_outcomes (H := Reference.host) Sample.readings Sample.one)
    as (Hnot & _ & _ & Harr).
  split; [apply Hnot |].
  apply (Harr l).
  repeat (apply Forall_cons; split); [| | | | apply Forall_nil_2];
    (split_and!; [discriminate | |]);
    intros v Hv; vm_compute in Hv;
    first [discriminate Hv | injection Hv as <-; reflexivity].
Defined.

(** The same import, evaluated: an [id] that is 0 or [null] is replaced by
    the fresh identifier of its position, as a missing one is. *)
Example importTasks_falsy_id_evaluated :
  (fun t : Task => t !! "id") <$>
    tasks (snd (importTasks (H := Reference.host)
                  (Json (VArr [VObj {[ "text" := VStr "Walk dog" ]}; VNum 3;
                               VObj {[ "id" := VNum 0 ]}; VObj {[ "id" := VNull ]};
                               VObj {[ "id" := VNum 7 ]}]))
                  Sample.readings Sample.one))
  = [Some (VNum 1700000000000); Some (VNum 1700000000001);
     Some (VNum 1700000000002); Some (VNum 1700000000003); Some (VNum 7)].
Proof. vm_compute. reflexivity. Qed.

(** An [id] that cannot be converted to a primitive makes the import fail
    as well. *)
Lemma importTasks_unconvertible_id_fails :
  importTasks (H := Reference.host)
    (Json (VArr [VObj {[ "id" := VObj {[ "toString" := VNum 1 ]} ]}]))
    Sample.readings Sample.one
    = (false, Sample.one).
Proof. reflexivity. Qed.

(** C5 as stated fails: an array with a [null] element is a sequence, yet
    the import of it fails (and leaves the model as it was). *)
Lemma importTasks_null_element_fails :
  importTasks (H := Reference.host) (Json (VArr [VNull])) Sample.readings Sample.one
    = (false, Sample.one) /\
  importTasks (H := Reference.host)
    (Json (VArr [VObj {[ "text" := VStr "Walk dog" ]}; VNull]))
    Sample.readings Sample.one
    = (false, Sample.one).
Proof. split; reflexivity. Qed.

(** ** C9: export then import *)

Lemma or_else_nonempty v d :
  nonempty_string v -> Some (or_else v d) = v.
Proof. intros (s & -> & Hs). by destruct s. Qed.

Lemma or_else_null_or_nonempty v :
  null_or_nonempty_string v -> Some (or_else v VNull) = v.
Proof. intros [-> | Hv]; [done | by apply or_else_nonempty]. Qed.

Lemma or_else_string v :
  (exists s, v = Some (VStr s)) -> Some (or_else v (VStr EmptyString)) = v.
Proof. intros (s & ->). by destruct s. Qed.

Lemma array_or_empty_array v :
  (exists l, v = Some (VArr l)) -> Some (array_or_empty v) = v.
Proof. by intros (l & ->). Qed.

(** A map with the eleven task properties is determined by them. *)
Lemma task_eq (t u : Task) :
  dom t = task_keys -> dom u = task_keys ->
  (forall k, k ∈ task_keys -> t !! k = u !! k) -> t = u.
Proof.
  intros Ht Hu Hk. apply map_eq. intros k.
  destruct (decide (k ∈ task_keys)) as [Hin | Hout]; [by apply Hk |].
  assert (t !! k = None) as -> by (apply not_elem_of_dom; by rewrite Ht).
  symmetry. apply not_elem_of_dom. by rewrite Hu.
Qed.

(** [coerced] leaves no choice: it describes one task. *)
Lemma coerced_determined `{Host} r i p (t u : Task) :
  coerced r i p t -> coerced r i p u -> t = u.
Proof.
  intros (Ht & Ht1 & Ht2 & Ht3 & Ht4 & Ht5 & Ht6 & Ht7 & Ht8 & Ht9 & Ht10 & Ht11)
         (Hu & Hu1 & Hu2 & Hu3 & Hu4 & Hu5 & Hu6 & Hu7 & Hu8 & Hu9 & Hu10 & Hu11).
  apply task_eq; [done | done |]. intros k Hk. unfold task_keys in Hk.
  rewrite !elem_of_union, !elem_of_singleton in Hk.
  destruct Hk as [[[[[[[[[[-> | ->] | ->] | ->] | ->] | ->] | ->] | ->] | ->] | ->] | ->];
    congruence.
Qed.

Section RoundTrip.
Context `{Host}.

Lemma importItem_well_formed r i (t : Task) :
  well_formed t -> importItem r i (VObj t) = Normal t.
Proof.
  intros (Hdom & (z & Hz & Hz0) & Htext & (b & Hb) & Hpr & Hcat & Hdue & Htags
          & Hnotes & Hsub & Hcr & Hco).
  unfold importItem, get.
  change (Normal (t !! ?k) ≫= ?f) with (f (t !! k)). cbv beta.
  rewrite Hz. simpl Number_.
  repeat (change (Normal ?a ≫= ?f) with (f a); cbv beta).
  assert (ToString (or_else (t !! "text") (VStr EmptyString))
          = Normal (match t !! "text" with Some (VStr s) => s | _ => EmptyString end)) as ->.
  { destruct Htext as (s & ->). by destruct s. }
  repeat (change (Normal ?a ≫= ?f) with (f a); cbv beta).
  assert ((z =? 0) = false) as -> by lia.
  f_equal. apply task_eq; [reflexivity | done |].
  intros k Hk. unfold task_keys in Hk.
  repeat (apply elem_of_union in Hk as [Hk | Hk]);
    apply elem_of_singleton in Hk as ->.
  - by rewrite Hz.
  - destruct Htext as (s & ->). reflexivity.
  - rewrite Hb. reflexivity.
  - rewrite <- (or_else_nonempty _ (VStr "medium") Hpr) at 2. reflexivity.
  - rewrite <- (or_else_nonempty _ (VStr "personal") Hcat) at 2. reflexivity.
  - rewrite <- (or_else_null_or_nonempty _ Hdue) at 2. reflexivity.
  - rewrite <- (array_or_empty_array _ Htags) at 2. reflexivity.
  - rewrite <- (or_else_string _ Hnotes) at 2. reflexivity.
  - rewrite <- (array_or_empty_array _ Hsub) at 2. reflexivity.
  - rewrite <- (or_else_nonempty _ (VStr (stamp r i)) Hcr) at 2. reflexivity.
  - rewrite <- (or_else_null_or_nonempty _ Hco) at 2. reflexivity.
Qed.
Lemma mapM_from_well_formed r (l : list Task) : forall k,
  Forall well_formed l -> mapM_from k (importItem r) (VObj <$> l) = Normal l.
Proof.
  induction l as [| t l IH]; intros k Hall; [done |].
  apply Forall_cons in Hall as [Ht Hl].
  rewrite fmap_cons. cbn [mapM_from].
  rewrite (importItem_well_formed r k t Ht).
  change (Normal t ≫= ?f) with (f t). cbv beta.
  by rewrite (IH (S k) Hl).
Qed.

(** C9, as the code has it: for a collection of well-formed tasks, that is
    tasks of the documented shape whose identifier is not zero and whose
    [priority], [category] and time stamps are not empty, importing what
    [exportTasks] produced succeeds and yields that very collection. *)
Theorem import_of_export (r : Readings) (m m' : TaskModel) :
  Forall well_formed (tasks m) ->
  importTasks (exportTasks m) r m' =
    (true, {| tasks := tasks m; deletedTask := deletedTask m' |}).
Proof.
  intros Hall. unfold exportTasks, importTasks.
  by rewrite (mapM_from_well_formed r (tasks m) 0 Hall).
Qed.
End RoundTrip.

Lemma well_formed_milk : well_formed Sample.milk.
Proof.
  unfold well_formed, null_or_nonempty_string, nonempty_string.
  split_and!; try reflexivity; try (eexists; split; [reflexivity | discriminate]);
    try (eexists; reflexivity); try (left; reflexivity).
Defined.

Lemma import_of_export_witness :
  importTasks (H := Reference.host) (exportTasks Sample.one) Sample.readings Sample.one
    = (true, Sample.one).
Proof.
  apply (import_of_export (H := Reference.host) Sample.readings Sample.one Sample.one).
  apply Forall_cons. split; [exact well_formed_milk | apply Forall_nil_2].
Defined.

(** C9 as stated fails: a task whose category is the empty string has a
    well-formed identifier, and comes back with the category ["personal"]. *)
Lemma import_of_export_changes_empty_category :
  let d := {| text := "Buy milk"; priority := None; category := Some EmptyString;
              dueDate := None; tags := None |} in
  let m := snd (addTask 7 "2024-01-01T00:00:00.000Z" d Sample.empty) in
  tasks m !! 0%nat ≫= (.!! "id") = Some (VNum 7) /\
  tasks m !! 0%nat ≫= (.!! "category") = Some (VStr EmptyString) /\
  exists m',
    importTasks (H := Reference.host) (exportTasks m) Sample.readings m = (true, m') /\
    tasks m' !! 0%nat ≫= (.!! "category") = Some (VStr "personal") /\
    tasks m' <> tasks m.
Proof.
  intros d m. split_and!; [reflexivity | reflexivity |].
  eexists. split_and!; [reflexivity | reflexivity |].
  intros Heq.
  apply (f_equal (fun l : list Task => l !! 0%nat ≫= (.!! "category"))) in Heq.
  vm_compute in Heq. discriminate Heq.
Qed.

(** ** Sorting with a comparator that respects a preorder

    For elements on which the comparator returns, and returns a negative
    number only for pairs in order and a non-negative one only for pairs
    in reverse order, [sort] returns a sorted permutation, however ties
    are answered. *)
Section SortSpec.
Context {A : Type} (comparefn : A -> A -> completion (option Z)).
Context (P : A -> Prop) (le : A -> A -> Prop).
Hypothesis le_trans : forall a b c, le a b -> le b c -> le a c.
Hypothesis comparefn_sound : forall x y, P x -> P y ->
  exists v, comparefn x y = Normal v /\
    (default 0 v < 0 -> le x y) /\ (0 <= default 0 v -> le y x).

Lemma StronglySorted_snoc (R : A -> A -> Prop) l a :
  StronglySorted R l -> Forall (fun y => R y a) l -> StronglySorted R (l ++ [a]).
Proof.
  induction 1 as [| b l Hl IH Hb]; intros Hall; simpl.
  - repeat constructor.
  - apply Forall_cons in Hall as [Hba Hall]. constructor; [by apply IH |].
    apply Forall_app. by split; [| repeat constructor].
Qed.

Lemma StronglySorted_rev (R : A -> A -> Prop) l :
  StronglySorted (flip R) l -> StronglySorted R (rev l).
Proof.
  induction 1 as [| a l Hl IH Ha]; simpl; [constructor |].
  apply StronglySorted_snoc; [done |].
  apply Forall_forall. intros y Hy. rewrite Forall_forall in Ha.
  apply Ha. by apply list_elem_of_In, in_rev, list_elem_of_In.
Qed.

Lemma sort_insert_spec x : forall l,
  P x -> Forall P l -> StronglySorted (flip le) l ->
  exists l', sort_insert comparefn x l = Normal l' /\
    Permutation (x :: l) l' /\ StronglySorted (flip le) l'.
Proof.
  induction l as [| y r IH]; intros Hx Hl Hs.
  - exists [x]. split_and!; [done | done | repeat constructor].
  - apply Forall_cons in Hl as [Hy Hr].
    apply StronglySorted_inv in Hs as [Hsr Hyr].
    destruct (comparefn_sound x y Hx Hy) as (v & Hv & Hlt & Hge).
    simpl. rewrite Hv. change (Normal v ≫= ?f) with (f v). cbv beta.
    destruct (default 0 v <? 0) eqn:Hsign.
    + destruct (IH Hx Hr Hsr) as (r' & Hr' & Hperm & Hsr').
      rewrite Hr'. exists (y :: r'). split_and!; [done | |].
      * rewrite <- Hperm. apply perm_swap.
      * constructor; [done |].
        apply (Permutation_Forall Hperm). constructor; [| done].
        apply Hlt. lia.
    + exists (x :: y :: r). split_and!; [done | done |].
      constructor; [by constructor |].
      assert (le y x) as Hyx by (apply Hge; lia).
      constructor; [done |].
      eapply Forall_impl; [exact Hyr |]. intros z Hz. unfold flip in *.
      by apply (le_trans z y x).
Qed.

Lemma sort_from_spec l : forall acc,
  Forall P acc -> Forall P l -> StronglySorted (flip le) acc ->
  exists out, sort_from comparefn acc l = Normal out /\
    Permutation (rev acc ++ l) out /\ StronglySorted le out.
Proof.
  induction l as [| x l IH]; intros acc Hacc Hl Hs.
  - exists (rev acc). split_and!; [done | by rewrite app_nil_r |].
    by apply StronglySorted_rev.
  - apply Forall_cons in Hl as [Hx Hl].
    destruct (sort_insert_spec x acc Hx Hacc Hs) as (acc' & Hacc' & Hperm & Hs').
    destruct (IH acc') as (out & Hout & Hp & Hso); [| done | done |].
    { by apply (Permutation_Forall Hperm); constructor. }
    exists out. simpl. rewrite Hacc'. split_and!; [done | | done].
    rewrite <- Hp, <- !Permutation_rev, <- Hperm.
    symmetry. apply Permutation_middle.
Qed.

Lemma sort_spec l :
  Forall P l ->
  exists out, sort comparefn l = Normal out /\
    Permutation l out /\ StronglySorted le out.
Proof.
  intros Hl. apply (sort_from_spec l []); [constructor | done | constructor].
Qed.
End SortSpec.

Lemma StronglySorted_lookup {A} (R : A -> A -> Prop) l i j a b :
  StronglySorted R l -> (i < j)%nat -> l !! i = Some a -> l !! j = Some b -> R a b.
Proof.
  intros Hs. revert i j. induction Hs as [| x l Hl IH Hx]; intros i j Hij Hi Hj.
  - done.
  - destruct j as [| j]; [lia |]. destruct i as [| i]; simpl in *.
    + injection Hi as <-. rewrite Forall_forall in Hx. apply Hx.
      by eapply list_elem_of_lookup_2.
    + apply (IH i j); [lia | done | done].
Qed.

(** ** C10: the [duedate] sort key *)

Section DueDate.
Context `{Host}.

Lemma due_le_trans a b c : due_le a b -> due_le b c -> due_le a c.
Proof.
  unfold due_le.
  destruct (due_key a), (due_key b), (due_key c); try done. lia.
Qed.

Lemma due_key_dated t :
  dated t -> has_dueDate t = true -> exists z, due_instant t z /\ due_key t = Some z.
Proof.
  intros Hd Ht. destruct (Hd Ht) as (z & Hz). exists z. split; [done |].
  unfold due_key. by rewrite Ht, Hz.
Qed.

Lemma due_key_undated t : has_dueDate t = false -> due_key t = None.
Proof. intros Ht. unfold due_key. by rewrite Ht. Qed.

Lemma by_dueDate_sound x y :
  dated x -> dated y ->
  exists v, by_dueDate x y = Normal v /\
    (default 0 v < 0 -> due_le x y) /\ (0 <= default 0 v -> due_le y x).
Proof.
  intros Hx Hy. unfold by_dueDate, due_le. fold (has_dueDate x) (has_dueDate y).
  destruct (has_dueDate x) eqn:Ex; simpl.
  - destruct (due_key_dated x Hx Ex) as (zx & Hzx & Hkx). rewrite Hkx.
    destruct (has_dueDate y) eqn:Ey; simpl.
    + destruct (due_key_dated y Hy Ey) as (zy & Hzy & Hky). rewrite Hky.
      unfold due_instant in *. rewrite Hzx, Hzy.
      exists (Some (zx - zy)). split; [done |]. simpl. split; lia.
    + rewrite (due_key_undated y Ey).
      exists (Some (-1)). split; [done |]. simpl. split; [done | lia].
  - rewrite (due_key_undated x Ex).
    exists (Some 1). split; [done |]. simpl. split; [lia |]. by destruct (due_key y).
Qed.

(** Whichever side the task without due date is on, the comparator sends
    it behind the other. *)
Lemma by_dueDate_undated a b :
  has_dueDate a = false ->
  by_dueDate a b = Normal (Some 1) /\
  (has_dueDate b = true -> by_dueDate b a = Normal (Some (-1))).
Proof.
  intros Ha. unfold by_dueDate. fold (has_dueDate a) (has_dueDate b).
  rewrite Ha. split; [done |]. by intros ->.
Qed.

Lemma due_le_ordered a b :
  dated a -> dated b -> due_le a b ->
  (has_dueDate a = false -> has_dueDate b = false) /\
  (has_dueDate a = true -> has_dueDate b = true ->
     exists za zb, due_instant a za /\ due_instant b zb /\ za <= zb).
Proof.
  intros Ha Hb Hle. unfold due_le in Hle. split.
  - intros Ea. rewrite (due_key_undated a Ea) in Hle.
    destruct (has_dueDate b) eqn:Eb; [| done].
    destruct (due_key_dated b Hb Eb) as (zb & _ & Hkb). by rewrite Hkb in Hle.
  - intros Ea Eb.
    destruct (due_key_dated a Ha Ea) as (za & Hza & Hka).
    destruct (due_key_dated b Hb Eb) as (zb & Hzb & Hkb).
    rewrite Hka, Hkb in Hle. by exists za, zb.
Qed.

(** *** The filters *)

Lemma filterM_Forall {A} (Q : A -> Prop) f (l out : list A) :
  filterM f l = Normal out -> Forall Q l -> Forall Q out.
Proof.
  revert out. induction l as [| a l IH]; intros out Hf Hall; simpl in Hf.
  - by injection Hf as <-.
  - apply Forall_cons in Hall as [Ha Hl].
    destruct (f a) as [b |]; [| done]. simpl in Hf.
    destruct (filterM f l) as [rs |]; [| done]. simpl in Hf.
    injection Hf as <-. specialize (IH rs eq_refl Hl).
    destruct b; [by constructor | done].
Qed.

Lemma apply_filters_Forall (Q : Task -> Prop) state ts flt :
  apply_filters state ts = Normal flt -> Forall Q ts -> Forall Q flt.
Proof.
  unfold apply_filters. intros Hf Hall.
  set (l1 := if String.eqb (currentFilter state) "active" then _ else _) in Hf.
  set (l2 := if negb (String.eqb (currentCategory state) "all") then _ else _) in Hf.
  assert (Forall Q l1) as H1.
  { unfold l1. destruct (String.eqb (currentFilter state) "active");
      [by apply Forall_List_filter |].
    destruct (String.eqb (currentFilter state) "completed");
      [by apply Forall_List_filter | done]. }
  assert (Forall Q l2) as H2.
  { unfold l2. destruct (negb (String.eqb (currentCategory state) "all"));
      [by apply Forall_List_filter | done]. }
  destruct (negb (is_empty (searchQuery state))).
  - by eapply filterM_Forall.
  - by injection Hf as <-.
Qed.

Lemma someM_strings q l :
  Forall is_string l ->
  exists b, someM (fun tag => lower_includes (Some tag) q) l = Normal b.
Proof.
  induction 1 as [| v l (s & ->) Hl (b & IH)]; simpl; [by eexists |].
  destruct (includes (toLowerCase s) q); [by eexists | by exists b].
Qed.

Lemma matches_search_searchable q t :
  searchable t -> exists b, matches_search q t = Normal b.
Proof.
  intros ((s & Hs) & Hnotes & Htags). unfold matches_search. rewrite Hs. simpl.
  destruct (includes (toLowerCase s) q); [by eexists |].
  destruct (truthy (t !! "notes")) eqn:En.
  - destruct (Hnotes eq_refl) as (n & Hn). rewrite Hn. simpl.
    destruct (includes (toLowerCase n) q); [by eexists |].
    destruct (truthy (t !! "tags")) eqn:Et; [| by eexists].
    destruct (Htags eq_refl) as (l & -> & Hl). by apply someM_strings.
  - simpl. destruct (truthy (t !! "tags")) eqn:Et; [| by eexists].
    destruct (Htags eq_refl) as (l & -> & Hl). by apply someM_strings.
Qed.

Lemma filterM_searchable q l :
  Forall searchable l -> exists out, filterM (matches_search q) l = Normal out.
Proof.
  induction 1 as [| t l Ht Hl (out & IH)]; simpl; [by eexists |].
  destruct (matches_search_searchable q t Ht) as (b & ->). simpl.
  rewrite IH. simpl. by eexists.
Qed.

Lemma apply_filters_searchable state ts :
  Forall searchable ts -> exists flt, apply_filters state ts = Normal flt.
Proof.
  intros Hall. unfold apply_filters.
  set (l1 := if String.eqb (currentFilter state) "active" then _ else _).
  set (l2 := if negb (String.eqb (currentCategory state) "all") then _ else _).
  assert (Forall searchable l1) as H1.
  { unfold l1. destruct (String.eqb (currentFilter state) "active");
      [by apply Forall_List_filter |].
    destruct (String.eqb (currentFilter state) "completed");
      [by apply Forall_List_filter | done]. }
  assert (Forall searchable l2) as H2.
  { unfold l2. destruct (negb (String.eqb (currentCategory state) "all"));
      [by apply Forall_List_filter | done]. }
  destruct (negb (is_empty (searchQuery state))); [| by eexists].
  by apply filterM_searchable.
Qed.

(** Whenever the filters return, the sort by due date returns a
    permutation of what they kept, in the order of [due_le]. *)
Lemma duedate_sort_after_filters (state : ViewState) (ts flt : list Task) :
  currentSort state = "duedate" ->
  Forall dated ts ->
  apply_filters state ts = Normal flt ->
  exists out,
    applyFiltersAndSort state ts = Normal out /\
    Permutation flt out /\ Forall dated out /\ StronglySorted due_le out.
Proof.
  intros Hkey Hdated Hflt.
  assert (Forall dated flt) as Hd by by eapply apply_filters_Forall.
  destruct (sort_spec by_dueDate dated due_le due_le_trans by_dueDate_sound flt Hd)
    as (out & Hout & Hperm & Hsorted).
  exists out. split_and!; [| done | by apply (Permutation_Forall Hperm) | done].
  unfold applyFiltersAndSort. rewrite Hflt.
  change (Normal flt ≫= ?f) with (f flt). cbv beta.
  unfold apply_sort. rewrite Hkey. exact Hout.
Qed.

(** C10: with the sort key [duedate], on tasks whose due dates denote
    instants (and on which the search does not throw), the view returns a
    permutation of the tasks that pass the filters in which no task without
    due date stands before one with a due date and the due dates ascend. *)
Theorem duedate_sort_undated_last (state : ViewState) (ts : list Task) :
  currentSort state = "duedate" ->
  Forall searchable ts ->
  Forall dated ts ->
  exists flt out,
    apply_filters state ts = Normal flt /\
    applyFiltersAndSort state ts = Normal out /\
    Permutation flt out /\
    forall i j a b, (i < j)%nat -> out !! i = Some a -> out !! j = Some b ->
      (has_dueDate a = false -> has_dueDate b = false) /\
      (has_dueDate a = true -> has_dueDate b = true ->
         exists za zb, due_instant a za /\ due_instant b zb /\ za <= zb).
Proof.
  intros Hkey Hsearch Hdated.
  destruct (apply_filters_searchable state ts Hsearch) as (flt & Hflt).
  destruct (duedate_sort_after_filters state ts flt Hkey Hdated Hflt)
    as (out & Hout & Hperm & Hd & Hsorted).
  exists flt, out. split_and!; [done | done | done |].
  intros i j a b Hij Hi Hj. rewrite Forall_forall in Hd.
  apply due_le_ordered.
  - apply Hd. by eapply list_elem_of_lookup_2.
  - apply Hd. by eapply list_elem_of_lookup_2.
  - by eapply (StronglySorted_lookup due_le out i j).
Qed.
End DueDate.

Lemma duedate_sort_undated_last_witness :
  let state := {| currentFilter := "all"; currentCategory := "all";
                  currentSort := "duedate"; searchQuery := "dog" |} in
  exists flt out,
    apply_filters (H := Reference.host) state Sample.walks = Normal flt /\
    applyFiltersAndSort (H := Reference.host) state Sample.walks = Normal out /\
    Permutation flt out /\
    forall i j a b, (i < j)%nat -> out !! i = Some a -> out !! j = Some b ->
      (has_dueDate a = false -> has_dueDate b = false) /\
      (has_dueDate a = true -> has_dueDate b = true ->
         exists za zb,
           due_instant (H := Reference.host) a za /\
           due_instant (H := Reference.host) b zb /\ za <= zb).
Proof.
  intros state.
  apply (duedate_sort_undated_last (H := Reference.host) state Sample.walks).
  - reflexivity.
  - repeat (apply Forall_cons; split); [| | | apply Forall_nil_2];
      (split_and!;
       [ eexists; reflexivity
       | intros Hn; vm_compute in Hn; discriminate Hn
       | intros Ht; eexists; split;
         [ reflexivity
         | repeat (apply Forall_cons; split; [eexists; reflexivity |]);
           apply Forall_nil_2 ] ]).
  - repeat (apply Forall_cons; split); [| | | apply Forall_nil_2];
      intros Hd;
      first [ vm_compute in Hd; discriminate Hd
            | eexists; unfold due_instant; vm_compute; reflexivity ].
Defined.

(** The same view, evaluated. *)
Example duedate_sort_evaluated :
  applyFiltersAndSort (H := Reference.host)
    {| currentFilter := "all"; currentCategory := "all";
       currentSort := "duedate"; searchQuery := "dog" |} Sample.walks
  = Normal [Sample.walk 3 (Some "2024-02-01"); Sample.walk 2 (Some "2024-03-01");
            Sample.walk 1 None].
Proof. vm_compute. reflexivity. Qed.

(** * Further properties *)

(** ** Lists and filters *)

Lemma filterM_pure {A} (f : A -> completion bool) (g : A -> bool) l :
  Forall (fun a => f a = Normal (g a)) l -> filterM f l = Normal (List.filter g l).
Proof.
  induction 1 as [| a l Ha Hl IH]; [done |].
  simpl. rewrite Ha. simpl. rewrite IH. simpl. by destruct (g a).
Qed.

Lemma filterM_as_filter {A} (f : A -> completion bool) (g : A -> bool) l out :
  (forall a b, f a = Normal b -> b = g a) ->
  filterM f l = Normal out -> out = List.filter g l.
Proof.
  intros Hfg. revert out. induction l as [| a l IH]; intros out Hout; simpl in *.
  - by injection Hout as <-.
  - destruct (f a) as [b |] eqn:Ha; [| done]. simpl in Hout.
    destruct (filterM f l) as [rs |]; [| done]. simpl in Hout.
    injection Hout as <-. rewrite <- (Hfg a b Ha), (IH rs eq_refl).
    by destruct b.
Qed.

Lemma filterM_cons_false {A} (f : A -> completion bool) a l :
  f a = Normal false -> filterM f (a :: l) = filterM f l.
Proof.
  intros Ha. simpl. rewrite Ha. simpl. by destruct (filterM f l).
Qed.

Lemma count_filter_le {A} (f g : A -> bool) l :
  (forall a, f a = true -> g a = true) ->
  count (List.filter f l) <= count (List.filter g l).
Proof.
  intros Hfg. unfold count. apply inj_le.
  induction l as [| a l IH]; simpl; [done |].
  destruct (f a) eqn:Hf.
  - rewrite (Hfg a Hf). simpl. lia.
  - destruct (g a); simpl; lia.
Qed.

Lemma count_nonneg {A} (l : list A) : 0 <= count l.
Proof. unfold count. lia. Qed.

Lemma count_filter_total {A} (f : A -> bool) l :
  count (List.filter f l) <= count l.
Proof.
  unfold count. apply inj_le.
  induction l as [| a l IH]; simpl; [done |]. destruct (f a); simpl; lia.
Qed.

Lemma List_filter_all {A} (f : A -> bool) l :
  Forall (fun a => f a = true) l -> List.filter f l = l.
Proof.
  induction 1 as [| a l Ha Hl IH]; simpl; [done |]. by rewrite Ha, IH.
Qed.

Lemma List_filter_none {A} (f : A -> bool) l :
  Forall (fun a => f a = false) l -> List.filter f l = [].
Proof.
  induction 1 as [| a l Ha Hl IH]; simpl; [done |]. by rewrite Ha, IH.
Qed.

Lemma List_filter_holds {A} (f : A -> bool) l :
  Forall (fun a => f a = true) (List.filter f l).
Proof.
  induction l as [| a l IH]; simpl; [constructor |].
  destruct (f a) eqn:Ha; [by constructor | done].
Qed.

(** ** Statistics *)

Section StatisticsFacts.
Context `{Host}.

Lemma completed_since_timed start t :
  timed t -> completed_since start t = Normal (since start t).
Proof.
  intros Ht. unfold completed_since, since, completion_date.
  destruct (is_completed t) eqn:Hc; [| done].
  destruct (Ht Hc) as (d & ->). done.
Qed.

Lemma completed_since_result start t b :
  completed_since start t = Normal b -> b = since start t.
Proof.
  unfold completed_since, since, completion_date.
  destruct (is_completed t); [| by intros [= <-]].
  destruct (Date_ (t !! "completedAt")) as [d |]; [| done]. by intros [= <-].
Qed.

Lemma getStatistics_as_filters c m s :
  getStatistics c m = Normal s ->
  s = {| total := count (tasks m);
         completed := count (List.filter is_completed (tasks m));
         active := count (tasks m) - count (List.filter is_completed (tasks m));
         todayCompleted := count (List.filter (since (Some (todayStart c))) (tasks m));
         weekCompleted :=
           count (List.filter
                    (since (time_clip (clock c - 7 * 24 * 60 * 60 * 1000))) (tasks m));
         monthCompleted := count (List.filter (since (Some (monthStart c))) (tasks m)) |}.
Proof.
  unfold getStatistics. intros Hs.
  destruct (filterM (completed_since (Some (todayStart c))) (tasks m))
    as [today |] eqn:Htoday; [| done].
  destruct (filterM (completed_since
                       (time_clip (clock c - 7 * 24 * 60 * 60 * 1000))) (tasks m))
    as [week |] eqn:Hweek; [| done].
  destruct (filterM (completed_since (Some (monthStart c))) (tasks m))
    as [month |] eqn:Hmonth; [| done].
  simpl in Hs. injection Hs as <-.
  apply (filterM_as_filter _ (since (Some (todayStart c)))) in Htoday;
    [| intros a b; apply completed_since_result].
  apply (filterM_as_filter _
           (since (time_clip (clock c - 7 * 24 * 60 * 60 * 1000)))) in Hweek;
    [| intros a b; apply completed_since_result].
  apply (filterM_as_filter _ (since (Some (monthStart c)))) in Hmonth;
    [| intros a b; apply completed_since_result].
  by subst.
Qed.

(** X1: when the completion times of the completed tasks can be read as
    dates, [getStatistics] returns; the total is the size of the
    collection, active and completed add up to it, and none of the three
    windowed counts exceeds the completed count. *)
Theorem getStatistics_totals (c : Calendar) (m : TaskModel) :
  Forall timed (tasks m) ->
  exists s, getStatistics c m = Normal s /\
    total s = count (tasks m) /\
    active s + completed s = total s /\
    0 <= active s /\
    0 <= todayCompleted s <= completed s /\
    0 <= weekCompleted s <= completed s /\
    0 <= monthCompleted s <= completed s.
Proof.
  intros Htimed.
  assert (forall start,
    filterM (completed_since start) (tasks m)
    = Normal (List.filter (since start) (tasks m))) as Hf.
  { intros start. apply filterM_pure.
    eapply Forall_impl; [exact Htimed |]. intros t Ht.
    by apply completed_since_timed. }
  eexists. split.
  { unfold getStatistics. rewrite !Hf. reflexivity. }
  assert (forall start,
    count (List.filter (since start) (tasks m))
    <= count (List.filter is_completed (tasks m))) as Hle.
  { intros start. apply count_filter_le. intros t Ht.
    unfold since in Ht. by apply andb_prop in Ht as [-> _]. }
  pose proof (count_filter_total is_completed (tasks m)).
  simpl. split_and!; try done; try apply count_nonneg; try apply Hle; lia.
Qed.

Lemma since_earlier x y t :
  x <= y -> since (Some y) t = true -> since (Some x) t = true.
Proof.
  intros Hxy Ht. unfold since in *. apply andb_prop in Ht as [-> Ht]. simpl.
  unfold on_or_after in *. destruct (completion_date t) as [d |]; [| done].
  apply Z.leb_le in Ht. apply Z.leb_le. lia.
Qed.

(** X2: the windows are nested as the calendar is.  When the first of the
    month is not after today's midnight, the tasks completed today are
    among those completed this month; when today's midnight is not before
    the instant a week ago (an instant that a date can hold), they are
    among those of the week. *)
Theorem getStatistics_windows_nested (c : Calendar) (m : TaskModel) (s : Statistics) :
  getStatistics c m = Normal s ->
  (monthStart c <= todayStart c -> todayCompleted s <= monthCompleted s) /\
  (clock c - 604800000 <= todayStart c ->
   Z.abs (clock c - 604800000) <= 8640000000000000 ->
   todayCompleted s <= weekCompleted s).
Proof.
  intros Hs. apply getStatistics_as_filters in Hs as ->. simpl. split.
  - intros Hle. apply count_filter_le. intros t. by apply since_earlier.
  - intros Hle Hclip. change (7 * 24 * 60 * 60 * 1000) with 604800000.
    unfold time_clip. apply Z.leb_le in Hclip. rewrite Hclip.
    apply count_filter_le. intros t. by apply since_earlier.
Qed.

(** X3: after [clearCompleted], [getStatistics] returns whatever the
    tasks hold: nothing is completed, in any window, and all tasks are
    active. *)
Theorem getStatistics_after_clearCompleted (c : Calendar) (m : TaskModel) :
  let n := count (List.filter (fun t => negb (is_completed t)) (tasks m)) in
  getStatistics c (clearCompleted m) =
    Normal {| total := n; completed := 0; active := n;
              todayCompleted := 0; weekCompleted := 0; monthCompleted := 0 |}.
Proof.
  intros n.
  assert (Forall (fun t => is_completed t = false) (tasks (clearCompleted m))) as Hnone.
  { simpl. eapply Forall_impl; [apply List_filter_holds |].
    intros t Ht. simpl in Ht. by destruct (is_completed t). }
  assert (forall start,
    filterM (completed_since start) (tasks (clearCompleted m)) = Normal []) as Hf.
  { intros start.
    rewrite (filterM_pure _ (fun _ => false)).
    - f_equal. apply List_filter_none. by apply Forall_true.
    - eapply Forall_impl; [exact Hnone |]. intros t Ht.
      unfold completed_since. by rewrite Ht. }
  unfold getStatistics. rewrite !Hf.
  rewrite (List_filter_none is_completed _ Hnone). simpl.
  change (count (@nil Task)) with 0. unfold n. by rewrite Z.sub_0_r.
Qed.

(** X4: a new task counts as one more task and one more active task, and
    leaves the other counts as they were. *)
Theorem getStatistics_after_addTask (c : Calendar) (m : TaskModel) (s : Statistics)
    (now : Z) (iso : string) (d : Draft) :
  getStatistics c m = Normal s ->
  getStatistics c (snd (addTask now iso d m)) =
    Normal {| total := total s + 1; completed := completed s;
              active := active s + 1;
              todayCompleted := todayCompleted s;
              weekCompleted := weekCompleted s;
              monthCompleted := monthCompleted s |}.
Proof.
  intros Hs. unfold getStatistics in *.
  change (tasks (snd (addTask now iso d m))) with (new_task now iso d :: tasks m).
  assert (is_completed (new_task now iso d) = false) as Hnew by reflexivity.
  assert (forall start,
    filterM (completed_since start) (new_task now iso d :: tasks m)
    = filterM (completed_since start) (tasks m)) as Hf.
  { intros start. apply filterM_cons_false.
    unfold completed_since. by rewrite Hnew. }
  rewrite !Hf.
  destruct (filterM (completed_since (Some (todayStart c))) (tasks m))
    as [today |]; [| done].
  destruct (filterM (completed_since
                       (time_clip (clock c - 7 * 24 * 60 * 60 * 1000))) (tasks m))
    as [week |]; [| done].
  destruct (filterM (completed_since (Some (monthStart c))) (tasks m))
    as [month |]; [| done].
  injection Hs as <-.
  repeat (change (Normal ?a ≫= ?f) with (f a); cbv beta). cbn [List.filter].
  rewrite Hnew. cbn [total completed active todayCompleted weekCompleted monthCompleted].
  unfold count. cbn [length]. f_equal. f_equal; lia.
Qed.
End StatisticsFacts.

(** ** clearCompleted *)

Lemma List_filter_sublist {A} (f : A -> bool) l : List.filter f l `sublist_of` l.
Proof.
  induction l as [| a l IH]; simpl; [done |].
  destruct (f a); [by apply sublist_skip | by apply sublist_cons].
Qed.

Lemma List_filter_elem_of {A} (f : A -> bool) l x :
  x ∈ List.filter f l <-> x ∈ l /\ f x = true.
Proof. rewrite !list_elem_of_In. apply filter_In. Qed.

Lemma List_filter_idempotent {A} (f : A -> bool) l :
  List.filter f (List.filter f l) = List.filter f l.
Proof. apply List_filter_all, List_filter_holds. Qed.

(** X5: [clearCompleted] keeps exactly the tasks that are not completed,
    in their order, leaves the undo slot alone, and a second call changes
    nothing more. *)
Theorem clearCompleted_keeps_active (m : TaskModel) :
  Forall (fun t => is_completed t = false) (tasks (clearCompleted m)) /\
  tasks (clearCompleted m) `sublist_of` tasks m /\
  (forall t, t ∈ tasks (clearCompleted m) <-> t ∈ tasks m /\ is_completed t = false) /\
  deletedTask (clearCompleted m) = deletedTask m /\
  clearCompleted (clearCompleted m) = clearCompleted m.
Proof.
  split_and!.
  - simpl. eapply Forall_impl; [apply List_filter_holds |].
    intros t Ht. simpl in Ht. by destruct (is_completed t).
  - apply List_filter_sublist.
  - intros t. simpl. rewrite List_filter_elem_of.
    destruct (is_completed t); simpl; intuition congruence.
  - done.
  - unfold clearCompleted. simpl. by rewrite List_filter_idempotent.
Qed.

(** X6: [clearCompleted] does not empty the undo slot, so a completed task
    that was deleted before comes back with the next [undoDelete]. *)
Theorem undoDelete_after_clearCompleted (m : TaskModel) (d : Deleted) :
  deletedTask m = Some d ->
  is_completed (task d) = true ->
  let m' := snd (undoDelete (clearCompleted m)) in
  task d ∈ tasks m' /\
  ~ Forall (fun t => is_completed t = false) (tasks m') /\
  deletedTask m' = None.
Proof.
  intros Hd Hc m'.
  assert (task d ∈ tasks m') as Hin.
  { unfold m', undoDelete. simpl. rewrite Hd. simpl. unfold splice_in.
    apply elem_of_app. right. apply list_elem_of_here. }
  split_and!; [done | |].
  - intros Hall. rewrite Forall_forall in Hall. specialize (Hall _ Hin). congruence.
  - unfold m', undoDelete. simpl. by rewrite Hd.
Qed.

(** ** updateNotes *)

Lemma updateNotes_found (m : TaskModel) id notes i t :
  first_with_id id (tasks m) i t ->
  updateNotes id notes m =
    (VObj (<["notes" := VStr notes]> t),
     {| tasks := <[i := <["notes" := VStr notes]> t]> (tasks m);
        deletedTask := deletedTask m |}).
Proof.
  intros Hf. apply find_task_Some in Hf. unfold updateNotes. by rewrite Hf.
Qed.

(** X7: [updateNotes] stores the text as it is given, white space
    included, in the first task with the identifier and changes no other
    property; a later call overrides an earlier one; with no such task it
    returns [null] and changes nothing. *)
Theorem updateNotes_verbatim (m : TaskModel) (id : Z) (n1 n2 : string) :
  (forall i t, first_with_id id (tasks m) i t ->
     exists t' : Task,
       updateNotes id n1 m =
         (VObj t', {| tasks := <[i := t']> (tasks m); deletedTask := deletedTask m |}) /\
       t' !! "notes" = Some (VStr n1) /\
       (forall k, k <> "notes" -> t' !! k = t !! k) /\
       updateNotes id n2 (snd (updateNotes id n1 m)) = updateNotes id n2 m) /\
  (no_task_with_id id (tasks m) -> updateNotes id n1 m = (VNull, m)).
Proof.
  split.
  - intros i t Hf. exists (<["notes" := VStr n1]> t).
    pose proof Hf as (Hl & Hid & _).
    rewrite (updateNotes_found m id n1 i t Hf). split_and!.
    + done.
    + by rewrite lookup_insert_eq.
    + intros k Hk. by rewrite lookup_insert_ne.
    + simpl. rewrite (updateNotes_found m id n2 i t Hf).
      rewrite (updateNotes_found _ id n2 i (<["notes" := VStr n1]> t)).
      * simpl. by rewrite list_insert_insert_eq, insert_insert_eq.
      * apply (first_with_id_insert id (tasks m) i t); [done |].
        by rewrite has_id_insert.
  - intros Hn. apply find_task_None in Hn. unfold updateNotes. by rewrite Hn.
Qed.

(** ** Subtasks *)

(** X8: [addSubtask] on a task whose [subtasks] is an array, with a text
    that is not blank, appends a subtask with the clock reading as
    identifier, the trimmed text and [completed] false, returns it, and
    changes nothing else of the task or of the model. *)
Theorem addSubtask_appends (m : TaskModel) (taskId now : Z) (txt : string)
    (i : nat) (t : Task) (l : list value) :
  first_with_id taskId (tasks m) i t ->
  is_empty (trim txt) = false ->
  t !! "subtasks" = Some (VArr l) ->
  exists (sub : Obj) (t' : Task),
    addSubtask taskId txt now m =
      (Normal (VObj sub),
       {| tasks := <[i := t']> (tasks m); deletedTask := deletedTask m |}) /\
    sub !! "id" = Some (VNum now) /\
    sub !! "text" = Some (VStr (trim txt)) /\
    sub !! "completed" = Some (VBool false) /\
    t' !! "subtasks" = Some (VArr (l ++ [VObj sub])) /\
    (forall k, k <> "subtasks" -> t' !! k = t !! k) /\
    (forall j, j <> i -> <[i := t']> (tasks m) !! j = tasks m !! j).
Proof.
  intros Hf Hne Hl. apply find_task_Some in Hf.
  unfold addSubtask. rewrite Hf, Hne, Hl.
  eexists _, _. split_and!; try reflexivity.
  - by rewrite lookup_insert_eq.
  - intros k Hk. by rewrite lookup_insert_ne.
  - intros j Hj. by apply list_lookup_insert_ne.
Qed.

(** X9: [addSubtask] returns [null] and changes nothing for a blank text or
    an unknown task, throws and changes nothing when the task's [subtasks]
    is not an array; the model changes only when a subtask is returned. *)
Theorem addSubtask_rejects (m : TaskModel) (taskId now : Z) (txt : string) :
  (is_empty (trim txt) = true -> addSubtask taskId txt now m = (Normal VNull, m)) /\
  (no_task_with_id taskId (tasks m) -> addSubtask taskId txt now m = (Normal VNull, m)) /\
  (forall i t, first_with_id taskId (tasks m) i t ->
     is_empty (trim txt) = false ->
     (forall l, t !! "subtasks" <> Some (VArr l)) ->
     addSubtask taskId txt now m = (Throw, m)) /\
  ((forall sub, fst (addSubtask taskId txt now m) <> Normal (VObj sub)) ->
   snd (addSubtask taskId txt now m) = m).
Proof.
  unfold addSubtask. split_and!.
  - intros He. rewrite He. by destruct (find_task taskId (tasks m)) as [[i t] |].
  - intros Hn. apply find_task_None in Hn. by rewrite Hn.
  - intros i t Hf Hne Hl. apply find_task_Some in Hf. rewrite Hf, Hne.
    destruct (t !! "subtasks") as [[] |]; try done. by destruct (Hl l).
  - intros Hno. destruct (find_task taskId (tasks m)) as [[i t] |]; [| done].
    destruct (is_empty (trim txt)); [done |].
    destruct (t !! "subtasks") as [[] |]; try done.
    simpl in Hno. by destruct (Hno _ eq_refl).
Qed.

Lemma find_subtask_found subtaskId l : forall k j s,
  find_subtask subtaskId k l = Normal (Some (j, s)) ->
  exists p, j = (k + p)%nat /\ l !! p = Some (VObj s) /\ has_id subtaskId s = true /\
    forall s', has_id subtaskId s' = true ->
      find_subtask subtaskId k (<[p := VObj s']> l) = Normal (Some (j, s')).
Proof.
  induction l as [| v l IH]; intros k j s Hfind; simpl in Hfind; [done |].
  destruct v as [| b | z | x | a | o].
  - done.
  - destruct (IH _ _ _ Hfind) as (p & -> & Hp & Hid & Hins).
    exists (S p). split_and!; [lia | done | done |]. intros s' Hs'. simpl. by apply Hins.
  - destruct (IH _ _ _ Hfind) as (p & -> & Hp & Hid & Hins).
    exists (S p). split_and!; [lia | done | done |]. intros s' Hs'. simpl. by apply Hins.
  - destruct (IH _ _ _ Hfind) as (p & -> & Hp & Hid & Hins).
    exists (S p). split_and!; [lia | done | done |]. intros s' Hs'. simpl. by apply Hins.
  - destruct (IH _ _ _ Hfind) as (p & -> & Hp & Hid & Hins).
    exists (S p). split_and!; [lia | done | done |]. intros s' Hs'. simpl. by apply Hins.
  - destruct (has_id subtaskId o) eqn:Ho.
    + injection Hfind as <- <-. exists 0%nat.
      split_and!; [lia | done | done |]. intros s' Hs'. simpl. by rewrite Hs'.
    + destruct (IH _ _ _ Hfind) as (p & -> & Hp & Hid & Hins).
      exists (S p). split_and!; [lia | done | done |].
      intros s' Hs'. simpl. rewrite Ho. by apply Hins.
Qed.

Lemma toggleSubtask_found (m : TaskModel) taskId subtaskId i t l j s :
  first_with_id taskId (tasks m) i t ->
  t !! "subtasks" = Some (VArr l) ->
  find_subtask subtaskId 0 l = Normal (Some (j, s)) ->
  let s' := <["completed" := VBool (negb (truthy (s !! "completed")))]> s in
  let t' := <["subtasks" := VArr (<[j := VObj s']> l)]> t in
  toggleSubtask taskId subtaskId m =
    (Normal (VObj s'),
     {| tasks := <[i := t']> (tasks m); deletedTask := deletedTask m |}).
Proof.
  intros Hf Hl Hs. apply find_task_Some in Hf.
  unfold toggleSubtask. by rewrite Hf, Hl, Hs.
Qed.

(** X10: [toggleSubtask] flips [completed] of the first subtask with the
    identifier and changes nothing else: the other subtasks and the other
    properties of the task stay.  Called twice on a subtask whose
    [completed] is a boolean, it leaves the model exactly as it was. *)
Theorem toggleSubtask_twice (m : TaskModel) (taskId subtaskId : Z)
    (i j : nat) (t : Task) (l : list value) (s : Obj) (b : bool) :
  first_with_id taskId (tasks m) i t ->
  t !! "subtasks" = Some (VArr l) ->
  find_subtask subtaskId 0 l = Normal (Some (j, s)) ->
  s !! "completed" = Some (VBool b) ->
  (exists (s' : Obj) (t' : Task) (l' : list value),
     toggleSubtask taskId subtaskId m =
       (Normal (VObj s'),
        {| tasks := <[i := t']> (tasks m); deletedTask := deletedTask m |}) /\
     s' !! "completed" = Some (VBool (negb b)) /\
     (forall k, k <> "completed" -> s' !! k = s !! k) /\
     t' !! "subtasks" = Some (VArr l') /\
     l' !! j = Some (VObj s') /\
     length l' = length l /\
     (forall p, p <> j -> l' !! p = l !! p) /\
     (forall k, k <> "subtasks" -> t' !! k = t !! k)) /\
  snd (toggleSubtask taskId subtaskId (snd (toggleSubtask taskId subtaskId m))) = m.
Proof.
  intros Hf Hl Hs Hb.
  destruct (find_subtask_found subtaskId l 0 j s Hs) as (p & Hj & Hp & Hid & Hins).
  simpl in Hj. subst p.
  pose proof Hf as (Hi & Htid & _).
  set (s' := <["completed" := VBool (negb (truthy (s !! "completed")))]> s).
  set (t' := <["subtasks" := VArr (<[j := VObj s']> l)]> t).
  pose proof (toggleSubtask_found m taskId subtaskId i t l j s Hf Hl Hs) as Hfirst.
  fold s' t' in Hfirst.
  assert (j < length l)%nat as Hjl by by eapply lookup_lt_Some.
  assert (i < length (tasks m))%nat as Hil by by eapply lookup_lt_Some.
  split.
  - exists s', t', (<[j := VObj s']> l). split_and!.
    + done.
    + unfold s'. rewrite lookup_insert_eq, Hb. done.
    + intros k Hk. unfold s'. by rewrite lookup_insert_ne.
    + unfold t'. by rewrite lookup_insert_eq.
    + by apply list_lookup_insert_eq.
    + by rewrite length_insert.
    + intros q Hq. by apply list_lookup_insert_ne.
    + intros k Hk. unfold t'. by rewrite lookup_insert_ne.
  - rewrite Hfirst. simpl.
    assert (has_id subtaskId s' = true) as Hid'.
    { unfold s'. by rewrite has_id_insert. }
    rewrite (toggleSubtask_found _ taskId subtaskId i t' (<[j := VObj s']> l) j s').
    + simpl. rewrite list_insert_insert_eq.
      assert (<["completed" := VBool (negb (truthy (s' !! "completed")))]> s' = s) as ->.
      { unfold s'. rewrite lookup_insert_eq, insert_insert_eq, Hb. simpl.
        rewrite negb_involutive. by apply insert_id. }
      rewrite list_insert_insert_eq, (list_insert_id l j) by done.
      assert (<["subtasks" := VArr l]> t' = t) as ->.
      { unfold t'. rewrite insert_insert_eq. by apply insert_id. }
      rewrite (list_insert_id (tasks m) i) by done. by destruct m.
    + apply (first_with_id_insert taskId (tasks m) i t); [done |].
      unfold t'. by rewrite has_id_insert.
    + unfold t'. by rewrite lookup_insert_eq.
    + by apply Hins.
Qed.

(** ** Tags ([tagsFromString]) *)

Lemma is_empty_false s : is_empty s = false <-> s <> EmptyString.
Proof. by destruct s. Qed.

Lemma split_comma_free s : Forall (fun w => comma_free w = true) (split_comma s).
Proof.
  induction s as [| c s IH]; simpl; [by repeat constructor |].
  destruct (Ascii.eqb c ",") eqn:Hc; [by constructor |].
  destruct (split_comma s) as [| w ws]; [by repeat constructor; simpl; rewrite Hc |].
  apply Forall_cons in IH as [Hw Hws]. constructor; [| done].
  simpl. by rewrite Hc, Hw.
Qed.

Lemma trimStart_comma_free s : comma_free s = true -> comma_free (trimStart s) = true.
Proof.
  induction s as [| c s IH]; simpl; [done |]. intros Hs.
  destruct (is_white_space c); [| done].
  apply IH. by apply andb_prop in Hs as [_ ->].
Qed.

Lemma trimEnd_comma_free s : comma_free s = true -> comma_free (trimEnd s) = true.
Proof.
  induction s as [| c s IH]; simpl; [done |]. intros Hs.
  apply andb_prop in Hs as [Hc Hs]. specialize (IH Hs).
  destruct (trimEnd s) as [| c' r].
  - destruct (is_white_space c); simpl; [done | by rewrite Hc].
  - simpl in *. by rewrite Hc, IH.
Qed.

Lemma trim_comma_free s : comma_free s = true -> comma_free (trim s) = true.
Proof. intros Hs. by apply trimEnd_comma_free, trimStart_comma_free. Qed.

Lemma trimmed_tags (l : list string) :
  Forall trimmed_nonempty
    (List.filter (fun s => negb (is_empty s)) (trim <$> l)).
Proof.
  induction l as [| s l IH]; simpl; [constructor |].
  destruct (is_empty (trim s)) eqn:He; simpl; [done |].
  constructor; [| done]. split; [by apply is_empty_false | apply trim_idempotent].
Qed.

Lemma split_comma_cons s : exists w ws, split_comma s = w :: ws.
Proof.
  destruct s as [| c s]; simpl; [by eexists _, _ |].
  destruct (Ascii.eqb c ","); [by eexists _, _ |].
  destruct (split_comma s); by eexists _, _.
Qed.

(** X11: every tag that [tagsFromString] returns is non-empty, has no
    white space at its ends and no comma in it, whatever the input; an
    input of white space and commas alone gives no tags. *)
Theorem tagsFromString_clean (tagString : string) :
  Forall (fun s => trimmed_nonempty s /\ comma_free s = true)
    (tagsFromString tagString) /\
  (blank_or_commas tagString = true -> tagsFromString tagString = []).
Proof.
  split.
  - unfold tagsFromString.
    pose proof (split_comma_free tagString) as Hfree.
    induction (split_comma tagString) as [| w ws IH]; simpl; [constructor |].
    apply Forall_cons in Hfree as [Hw Hws].
    destruct (is_empty (trim w)) eqn:He; simpl; [by apply IH |].
    constructor; [| by apply IH]. split; [split |].
    + by apply is_empty_false.
    + apply trim_idempotent.
    + by apply trim_comma_free.
  - unfold tagsFromString.
    induction tagString as [| c s IH]; simpl; [done |]. intros Hb.
    apply andb_prop in Hb as [Hc Hs]. specialize (IH Hs).
    destruct (Ascii.eqb c ",") eqn:Hcomma; [done |].
    rewrite orb_false_r in Hc.
    destruct (split_comma_cons s) as (w & ws & Hsplit). rewrite Hsplit in *.
    simpl in *. unfold trim in *. simpl. rewrite Hc.
    destruct (is_empty (trimEnd (trimStart w))); [done | done].
Qed.

(** ** The documented shape as an invariant *)

Lemma well_formed_insert (t : Task) k v :
  well_formed t -> k ∈ task_keys -> field_ok k v -> well_formed (<[k := v]> t).
Proof.
  intros (Hdom & Hid & Htext & Hcompleted & Hpr & Hcat & Hdue & Htags & Hnotes
          & Hsub & Hcr & Hco) Hk
         (Fid & Ftext & Fcompleted & Fpr & Fcat & Fdue & Ftags & Fnotes
          & Fsub & Fcr & Fco).
  unfold well_formed.
  split; [rewrite dom_insert_L, Hdom;
          by apply subseteq_union_1_L, singleton_subseteq_l |].
  split; [destruct (decide (k = "id")) as [-> | Hne];
          [rewrite lookup_insert_eq; destruct (Fid eq_refl) as (z & -> & Hz); eauto
          | by rewrite lookup_insert_ne] |].
  split; [destruct (decide (k = "text")) as [-> | Hne];
          [rewrite lookup_insert_eq; destruct (Ftext eq_refl) as (s & ->); eauto
          | by rewrite lookup_insert_ne] |].
  split; [destruct (decide (k = "completed")) as [-> | Hne];
          [rewrite lookup_insert_eq; destruct (Fcompleted eq_refl) as (b & ->); eauto
          | by rewrite lookup_insert_ne] |].
  split; [destruct (decide (k = "priority")) as [-> | Hne];
          [rewrite lookup_insert_eq; by apply Fpr | by rewrite lookup_insert_ne] |].
  split; [destruct (decide (k = "category")) as [-> | Hne];
          [rewrite lookup_insert_eq; by apply Fcat | by rewrite lookup_insert_ne] |].
  split; [destruct (decide (k = "dueDate")) as [-> | Hne];
          [rewrite lookup_insert_eq; by apply Fdue | by rewrite lookup_insert_ne] |].
  split; [destruct (decide (k = "tags")) as [-> | Hne];
          [rewrite lookup_insert_eq; destruct (Ftags eq_refl) as (l & ->); eauto
          | by rewrite lookup_insert_ne] |].
  split; [destruct (decide (k = "notes")) as [-> | Hne];
          [rewrite lookup_insert_eq; destruct (Fnotes eq_refl) as (s & ->); eauto
          | by rewrite lookup_insert_ne] |].
  split; [destruct (decide (k = "subtasks")) as [-> | Hne];
          [rewrite lookup_insert_eq; destruct (Fsub eq_refl) as (l & ->); eauto
          | by rewrite lookup_insert_ne] |].
  split; [destruct (decide (k = "createdAt")) as [-> | Hne];
          [rewrite lookup_insert_eq; by apply Fcr | by rewrite lookup_insert_ne] |].
  destruct (decide (k = "completedAt")) as [-> | Hne];
    [rewrite lookup_insert_eq; by apply Fco | by rewrite lookup_insert_ne].
Qed.

Ltac field_ok_of k :=
  unfold field_ok; split_and!; intros Hkey; try discriminate Hkey; clear Hkey.

Ltac in_task_keys :=
  unfold task_keys; rewrite !elem_of_union, !elem_of_singleton; tauto.

Lemma well_formed_new_task now iso d :
  now <> 0 -> iso <> EmptyString ->
  priority d <> Some EmptyString -> category d <> Some EmptyString ->
  well_formed (new_task now iso d).
Proof.
  intros Hnow Hiso Hpr Hcat. unfold well_formed, null_or_nonempty_string, nonempty_string.
  split_and!.
  - reflexivity.
  - by exists now.
  - by eexists.
  - by eexists.
  - exists (default "medium" (priority d)). split; [reflexivity |].
    destruct (priority d) as [p |]; simpl; [congruence | done].
  - exists (default "personal" (category d)). split; [reflexivity |].
    destruct (category d) as [p |]; simpl; [congruence | done].
  - change (new_task now iso d !! "dueDate") with
      (Some (match dueDate d with
             | Some s => if is_empty s then VNull else VStr s
             | None => VNull
             end)).
    destruct (dueDate d) as [s |]; [| by left].
    destruct s; simpl; [by left | right; by eexists].
  - by eexists.
  - by eexists.
  - by eexists.
  - by exists iso.
  - by left.
Qed.

Lemma well_formed_toggled iso t :
  iso <> EmptyString -> well_formed t -> well_formed (toggled iso t).
Proof.
  intros Hiso Ht. unfold toggled.
  apply well_formed_insert.
  - apply well_formed_insert; [done | in_task_keys |].
    field_ok_of "completed". by eexists.
  - in_task_keys.
  - field_ok_of "completedAt".
    destruct (negb (truthy (t !! "completed"))); [right; by exists iso | by left].
Qed.

Section Shape.
Context `{Host}.

Lemma step_keeps_shape (m : TaskModel) (o : op) :
  model_well_formed m -> keeps_shape o -> model_well_formed (step m o).
Proof.
  intros Hm Hk. pose proof Hm as [Hts Hd]. destruct o; simpl in *.
  - (* addTask *)
    destruct Hk as (Hnow & Hiso & Hpr & Hcat).
    split; [| done]. constructor; [by apply well_formed_new_task | done].
  - (* updateTask *)
    destruct Hk as (s & ->). unfold updateTask.
    destruct (find_task id (tasks m)) as [[i t] |] eqn:Hf; [| done].
    apply find_task_Some in Hf as (Hl & _). split; [| done]. simpl.
    apply Forall_insert; [done |].
    rewrite <- insert_union_singleton_l.
    apply well_formed_insert; [by eapply Forall_lookup_1 | in_task_keys |].
    field_ok_of "text". by eexists.
  - (* toggleTask *)
    unfold toggleTask.
    destruct (find_task id (tasks m)) as [[i t] |] eqn:Hf; [| done].
    apply find_task_Some in Hf as (Hl & _). split; [| done]. simpl.
    apply Forall_insert; [done |].
    apply well_formed_toggled; [done | by eapply Forall_lookup_1].
  - (* deleteTask *)
    unfold deleteTask.
    destruct (find_task id (tasks m)) as [[i t] |] eqn:Hf; [| done].
    apply find_task_Some in Hf as (Hl & _). split; simpl.
    + by apply Forall_delete.
    + intros d [= <-]. simpl. by eapply Forall_lookup_1.
  - (* undoDelete *)
    unfold undoDelete. destruct (deletedTask m) as [d |] eqn:Hdel; [| exact Hm].
    split; [| done]. simpl. apply Forall_splice_in; [by apply Hd | done].
  - (* clearCompleted *)
    split; [| done]. simpl. by apply Forall_List_filter.
  - (* addSubtask *)
    unfold addSubtask.
    destruct (find_task taskId (tasks m)) as [[i t] |] eqn:Hf; [| done].
    apply find_task_Some in Hf as (Hl & _).
    destruct (is_empty (trim txt)); [done |].
    destruct (t !! "subtasks") as [[] |]; try done.
    split; [| done]. simpl. apply Forall_insert; [done |].
    apply well_formed_insert; [by eapply Forall_lookup_1 | in_task_keys |].
    field_ok_of "subtasks". by eexists.
  - (* toggleSubtask *)
    unfold toggleSubtask.
    destruct (find_task taskId (tasks m)) as [[i t] |] eqn:Hf; [| done].
    apply find_task_Some in Hf as (Hl & _).
    destruct (t !! "subtasks") as [[] |]; try done.
    destruct (find_subtask subtaskId 0 l) as [[[j s] |] |]; try done.
    split; [| done]. simpl. apply Forall_insert; [done |].
    apply well_formed_insert; [by eapply Forall_lookup_1 | in_task_keys |].
    field_ok_of "subtasks". by eexists.
  - (* updateNotes *)
    unfold updateNotes.
    destruct (find_task taskId (tasks m)) as [[i t] |] eqn:Hf; [| done].
    apply find_task_Some in Hf as (Hl & _).
    split; [| done]. simpl. apply Forall_insert; [done |].
    apply well_formed_insert; [by eapply Forall_lookup_1 | in_task_keys |].
    field_ok_of "notes". by eexists.
  - (* importTasks *)
    done.
Qed.

(** X12: the calls of the interface keep the documented shape of every
    task (and of the task in the undo slot), so what any sequence of them
    leaves can be exported and imported back unchanged. *)
Theorem calls_keep_shape (m : TaskModel) (ops : list op) (r : Readings) :
  model_well_formed m -> Forall keeps_shape ops ->
  model_well_formed (run m ops) /\
  importTasks (exportTasks (run m ops)) r (run m ops) = (true, run m ops).
Proof.
  intros Hm Hops.
  assert (model_well_formed (run m ops)) as Hrun.
  { revert m Hm. induction Hops as [| o ops Ho Hops IH]; intros m Hm; [done |].
    simpl. apply IH. by apply step_keeps_shape. }
  split; [done |]. destruct Hrun as [Hts _].
  unfold exportTasks, importTasks.
  rewrite (mapM_from_well_formed r (tasks (run m ops)) 0 Hts).
  by destruct (run m ops).
Qed.
End Shape.

(** ** Text is kept non-empty by the handlers *)

Lemma named_new_task now iso d :
  is_empty (trim (text d)) = false -> named (new_task now iso d).
Proof.
  intros He. exists (trim (text d)). split; [reflexivity |].
  split; [by apply is_empty_false | apply trim_idempotent].
Qed.

(** X13: the two handlers that write the text of a task keep every text
    a non-empty trimmed string: the add button and the inline edit.  The
    inline edit changes nothing when the field is blank or holds the text
    that was displayed. *)
Theorem handlers_keep_text (m : TaskModel) (now id : Z) (iso prev input : string)
    (f : AddForm) :
  Forall named (tasks m) ->
  Forall named (tasks (onAddTaskClick now iso f m)) /\
  Forall named (tasks (onEditSave id prev input m)) /\
  (is_empty (trim input) = true \/ trim input = prev -> onEditSave id prev input m = m).
Proof.
  intros Hall. split_and!.
  - unfold onAddTaskClick. destruct (is_empty (trim (taskInput f))) eqn:He; [done |].
    simpl. constructor; [| done]. apply named_new_task. simpl.
    by rewrite trim_idempotent.
  - unfold onEditSave.
    destruct (negb (is_empty (trim input)) && negb (String.eqb (trim input) prev))
      eqn:Hgo; [| done].
    apply andb_prop in Hgo as [Hne _]. apply negb_true_iff in Hne.
    unfold updateTask.
    destruct (find_task id (tasks m)) as [[i t] |] eqn:Hf; [| done]. simpl.
    apply Forall_insert; [done |].
    exists (trim input). split.
    + rewrite lookup_union, lookup_singleton_eq. by destruct (t !! "text").
    + split; [by apply is_empty_false | apply trim_idempotent].
  - intros [He | Hsame]; unfold onEditSave.
    + by rewrite He.
    + rewrite Hsame, String.eqb_refl. by rewrite andb_false_r.
Qed.

(** ** Reordering after a drag ([reorderModelFromDOM]) *)

Lemma has_id_task_id id t : has_id id t = true <-> task_id t = Some id.
Proof.
  unfold has_id, task_id. destruct (t !! "id") as [[] |]; try done.
  rewrite Z.eqb_eq. split; congruence.
Qed.

Lemma find_task_cons id a l :
  find_task id (a :: l) =
    if has_id id a then Some (0%nat, a)
    else prod_map S (fun t => t) <$> find_task id l.
Proof.
  unfold find_task. simpl. destruct (has_id id a); simpl; [done |].
  by destruct (list_find _ l) as [[] |].
Qed.

Lemma find_task_distinct id l t :
  distinct_ids l -> t ∈ l -> task_id t = Some id ->
  snd <$> find_task id l = Some t.
Proof.
  intros [_ Hnd]. induction l as [| a l IH]; intros Hin Hid; [by inversion Hin |].
  rewrite find_task_cons. simpl in Hnd. apply NoDup_cons in Hnd as [Ha Hnd].
  apply elem_of_cons in Hin as [-> | Hin].
  - by rewrite (proj2 (has_id_task_id id a) Hid).
  - destruct (has_id id a) eqn:Hida.
    + apply has_id_task_id in Hida. destruct Ha. rewrite Hida, <- Hid.
      by apply list_elem_of_fmap_2.
    + specialize (IH Hnd Hin Hid).
      destruct (find_task id l) as [[i u] |]; simpl in *; [done | done].
Qed.

Lemma find_task_elem_of id l i t : find_task id l = Some (i, t) -> t ∈ l.
Proof.
  intros Hf. apply find_task_Some in Hf as (Hl & _). by eapply list_elem_of_lookup_2.
Qed.

(** X14: in a model whose tasks have distinct numeric identifiers, a drag
    leaves exactly the tasks that are displayed, in the order displayed:
    the tasks that the current filter hides are dropped from the
    collection.  The undo slot is untouched. *)
Theorem reorder_keeps_displayed (m : TaskModel) (ids : list Z) (shown : list Task) :
  distinct_ids (tasks m) ->
  Forall2 (fun id t => task_id t = Some id /\ t ∈ tasks m) ids shown ->
  shown <> [] ->
  reorderModelFromDOM ids m = {| tasks := shown; deletedTask := deletedTask m |}.
Proof.
  intros Hd Hshown Hne. unfold reorderModelFromDOM.
  assert (omap (fun id => snd <$> find_task id (tasks m)) ids = shown) as ->.
  { induction Hshown as [| id t ids shown [Hid Hin] Hrest IH]; [done |].
    simpl. rewrite (find_task_distinct id (tasks m) t Hd Hin Hid). simpl.
    f_equal. destruct shown as [| u shown'].
    - by inversion Hrest.
    - by apply IH. }
  by destruct shown.
Qed.

(** X15: whatever the identifiers displayed, a drag never puts a task
    into the collection that was not in it, never touches the undo slot,
    and leaves the model as it was when none of the identifiers is that of
    a task (an empty list in particular). *)
Theorem reorder_never_invents (m : TaskModel) (ids : list Z) :
  (forall t, t ∈ tasks (reorderModelFromDOM ids m) -> t ∈ tasks m) /\
  deletedTask (reorderModelFromDOM ids m) = deletedTask m /\
  (length (tasks (reorderModelFromDOM ids m)) <= length ids
   \/ reorderModelFromDOM ids m = m)%nat /\
  (Forall (fun id => no_task_with_id id (tasks m)) ids ->
   reorderModelFromDOM ids m = m).
Proof.
  unfold reorderModelFromDOM.
  set (found := omap (fun id => snd <$> find_task id (tasks m)) ids).
  assert (forall t, t ∈ found -> t ∈ tasks m) as Hsub.
  { intros t Ht. apply list_elem_of_omap in Ht as (id & _ & Hid).
    destruct (find_task id (tasks m)) as [[i u] |] eqn:Hf; [| done].
    simpl in Hid. injection Hid as <-. by eapply find_task_elem_of. }
  assert (length found <= length ids)%nat as Hlen.
  { unfold found. clear. induction ids as [| id ids IH]; simpl; [done |].
    unfold omap in IH.
    destruct (snd <$> find_task id (tasks m)); simpl; lia. }
  split_and!.
  - destruct found; [done | done].
  - by destruct found.
  - destruct found; [by right | by left].
  - intros Hnone.
    assert (found = []) as ->; [| done].
    unfold found. clear -Hnone.
    induction Hnone as [| id ids Hid Hids IH]; [done |].
    simpl. apply find_task_None in Hid. by rewrite Hid.
Qed.

(** ** Sorting: ties and sorted inputs

    Lemmas on the insertion sort of the model.  The properties of the view
    use them through [keyed_sort] only, for comparators that subtract the
    keys of their arguments: there the sort is a stable sort by the key,
    which is what the language asks of every engine. *)

Section SortTies.
Context {A : Type} (comparefn : A -> A -> completion (option Z)).
Context (P : A -> Prop).

Lemma sort_insert_tied f x : forall l l',
  tied comparefn P f -> P x -> Forall P l ->
  sort_insert comparefn x l = Normal l' ->
  Forall P l' /\
  List.filter f l' = if f x then x :: List.filter f l else List.filter f l.
Proof.
  induction l as [| y r IH]; intros l' Htied Hx Hl Hins; simpl in Hins.
  - injection Hins as <-. split; [by repeat constructor |]. simpl. by destruct (f x).
  - apply Forall_cons in Hl as [Hy Hr].
    destruct (comparefn x y) as [v |] eqn:Hv; [| done]. simpl in Hins.
    destruct (default 0 v <? 0) eqn:Hsign.
    + destruct (sort_insert comparefn x r) as [r' |] eqn:Hr'; [| done].
      simpl in Hins. injection Hins as <-.
      destruct (IH r' Htied Hx Hr eq_refl) as [HP Hf].
      split; [by constructor |]. simpl. rewrite Hf.
      destruct (f x) eqn:Hfx, (f y) eqn:Hfy; try done.
      specialize (Htied x y v Hx Hy Hfx Hfy Hv). lia.
    + injection Hins as <-. split; [by repeat constructor |].
      simpl. by destruct (f x).
Qed.

Lemma sort_from_tied f l : forall acc out,
  tied comparefn P f -> Forall P acc -> Forall P l ->
  sort_from comparefn acc l = Normal out ->
  List.filter f out = List.filter f (rev acc ++ l).
Proof.
  induction l as [| x l IH]; intros acc out Htied Hacc Hl Hout; simpl in Hout.
  - injection Hout as <-. by rewrite app_nil_r.
  - apply Forall_cons in Hl as [Hx Hl].
    destruct (sort_insert comparefn x acc) as [acc' |] eqn:Hins; [| done].
    simpl in Hout.
    destruct (sort_insert_tied f x acc acc' Htied Hx Hacc Hins) as [HP Hf].
    rewrite (IH acc' out Htied HP Hl Hout).
    rewrite !List.filter_app, !List.filter_rev, Hf. simpl.
    destruct (f x); simpl; [| done]. by rewrite <- app_assoc.
Qed.

(** Elements of a tied class keep their relative order. *)
Lemma sort_tied f l out :
  tied comparefn P f -> Forall P l -> sort comparefn l = Normal out ->
  List.filter f out = List.filter f l.
Proof. intros Htied Hl Hout. by apply (sort_from_tied f l [] out). Qed.

Lemma sort_from_settled l : forall acc,
  settled comparefn (head acc) l -> sort_from comparefn acc l = Normal (rev acc ++ l).
Proof.
  induction l as [| x l IH]; intros acc Hs; simpl.
  - by rewrite app_nil_r.
  - destruct Hs as [Hx Hl].
    assert (sort_insert comparefn x acc = Normal (x :: acc)) as ->.
    { destruct acc as [| y r]; [done |]. simpl in *.
      destruct Hx as (v & -> & Hv). simpl.
      by destruct (default 0 v <? 0) eqn:E; [lia |]. }
    simpl. rewrite (IH (x :: acc)); [| done]. simpl. by rewrite <- app_assoc.
Qed.

Lemma sort_settled l : settled comparefn None l -> sort comparefn l = Normal l.
Proof. intros Hs. by apply (sort_from_settled l []). Qed.

Lemma settled_sorted (le : A -> A -> Prop) l :
  (forall x y, P x -> P y -> le y x ->
     exists v, comparefn x y = Normal v /\ 0 <= default 0 v) ->
  Forall P l -> StronglySorted le l -> settled comparefn None l.
Proof.
  intros Hkeep Hl Hs.
  assert (forall prev, (forall y, prev = Some y -> P y /\ Forall (le y) l) ->
            settled comparefn prev l) as Hgen; [| by apply Hgen].
  induction Hs as [| x l Hsl IH Hx]; intros prev Hprev; simpl; [done |].
  apply Forall_cons in Hl as [HPx HPl]. split.
  - destruct prev as [y |]; [| done].
    destruct (Hprev y eq_refl) as [HPy Hall]. apply Forall_cons in Hall as [Hyx _].
    by apply Hkeep.
  - apply IH; [done |]. by intros y [= <-].
Qed.
End SortTies.

(** Comparators that subtract the keys of their arguments. *)
Section Keyed.
Context {A : Type} (comparefn : A -> A -> completion (option Z)).
Context (P : A -> Prop) (key : A -> Z).
Hypothesis comparefn_key :
  forall x y, P x -> P y -> comparefn x y = Normal (Some (key x - key y)).

Lemma keyed_sort l :
  Forall P l ->
  exists out,
    sort comparefn l = Normal out /\
    Permutation l out /\
    StronglySorted (fun a b => key a <= key b) out /\
    (forall k, List.filter (fun a => key a =? k) out
               = List.filter (fun a => key a =? k) l) /\
    sort comparefn out = Normal out.
Proof.
  intros Hl.
  destruct (sort_spec comparefn P (fun a b => key a <= key b)) with (l := l)
    as (out & Hout & Hperm & Hsorted); [| | done |].
  { intros a b c. lia. }
  { intros x y Hx Hy. rewrite (comparefn_key x y Hx Hy).
    eexists. split; [done |]. simpl. split; lia. }
  exists out. split_and!; [done | done | done | |].
  - intros k. apply (sort_tied comparefn P); [| done | done].
    intros x y v Hx Hy Hfx Hfy. rewrite (comparefn_key x y Hx Hy).
    intros [= <-]. simpl. apply Z.eqb_eq in Hfx, Hfy. lia.
  - apply sort_settled.
    apply (settled_sorted comparefn P (fun a b => key a <= key b));
      [| by apply (Permutation_Forall Hperm) | done].
    intros x y Hx Hy Hle. rewrite (comparefn_key x y Hx Hy).
    eexists. split; [done |]. simpl. lia.
Qed.
End Keyed.

(** ** The other sort keys *)

Section SortKeys.
Context `{Host}.

Lemma apply_sort_after_filters state ts flt :
  apply_filters state ts = Normal flt ->
  applyFiltersAndSort state ts = apply_sort state flt.
Proof. intros Hflt. unfold applyFiltersAndSort. by rewrite Hflt. Qed.

Lemma order_ranked t : ranked t -> order (t !! "priority") = Normal (Some (rank t)).
Proof. unfold rank. by intros [-> | [-> | ->]]. Qed.

Lemma by_priority_key x y :
  ranked x -> ranked y ->
  by_priority x y = Normal (Some ((- rank x) - (- rank y))).
Proof.
  intros Hx Hy. unfold by_priority.
  rewrite (order_ranked y Hy), (order_ranked x Hx). simpl.
  do 2 f_equal. lia.
Qed.

(** X16: with the sort key [priority], on tasks whose priority is one of
    the three, the view is a permutation of the tasks that pass the
    filters with high before medium before low, and tasks of the same
    priority in the order they had. *)
Theorem priority_sort_stable (state : ViewState) (ts : list Task) :
  currentSort state = "priority" ->
  Forall searchable ts ->
  Forall ranked ts ->
  exists flt out,
    apply_filters state ts = Normal flt /\
    applyFiltersAndSort state ts = Normal out /\
    Permutation flt out /\
    (forall i j a b, (i < j)%nat -> out !! i = Some a -> out !! j = Some b ->
       rank b <= rank a) /\
    (forall p, List.filter (has_priority p) out = List.filter (has_priority p) flt).
Proof.
  intros Hkey Hsearch Hranked.
  destruct (apply_filters_searchable state ts Hsearch) as (flt & Hflt).
  assert (Forall ranked flt) as Hr by by eapply apply_filters_Forall.
  destruct (keyed_sort by_priority ranked (fun t => - rank t) by_priority_key flt Hr)
    as (out & Hout & Hperm & Hsorted & _ & _).
  exists flt, out. split_and!; [done | | done | |].
  - rewrite (apply_sort_after_filters state ts flt Hflt).
    unfold apply_sort. by rewrite Hkey.
  - intros i j a b Hij Hi Hj.
    pose proof (StronglySorted_lookup _ out i j a b Hsorted Hij Hi Hj). simpl in *. lia.
  - intros p. apply (sort_tied by_priority ranked); [| done | done].
    intros x y v Hx Hy Hfx Hfy. rewrite (by_priority_key x y Hx Hy).
    intros [= <-]. simpl. unfold has_priority, rank in *.
    destruct (x !! "priority") as [[| | | sx | |] |]; try done.
    destruct (y !! "priority") as [[| | | sy | |] |]; try done.
    apply String.eqb_eq in Hfx, Hfy. subst. lia.
Qed.

Lemma by_createdAt_key x y :
  created x -> created y ->
  by_createdAt x y = Normal (Some (created_instant x - created_instant y)).
Proof.
  intros (zx & Hx) (zy & Hy). unfold by_createdAt, created_instant.
  by rewrite Hx, Hy.
Qed.

Lemma by_createdAt_desc_key x y :
  created x -> created y ->
  by_createdAt y x = Normal (Some ((- created_instant x) - (- created_instant y))).
Proof.
  intros Hx Hy. rewrite (by_createdAt_key y x Hy Hx). do 2 f_equal. lia.
Qed.

(** X17: with the sort keys [date-asc] and [date-desc], on tasks whose
    creation time denotes an instant, the view is a permutation of the
    tasks that pass the filters, with the instants of creation ascending,
    respectively descending. *)
Theorem date_sort_orders (state : ViewState) (ts : list Task) :
  currentSort state = "date-asc" \/ currentSort state = "date-desc" ->
  Forall searchable ts ->
  Forall created ts ->
  exists flt out,
    apply_filters state ts = Normal flt /\
    applyFiltersAndSort state ts = Normal out /\
    Permutation flt out /\
    forall i j a b, (i < j)%nat -> out !! i = Some a -> out !! j = Some b ->
      if String.eqb (currentSort state) "date-asc"
      then created_instant a <= created_instant b
      else created_instant b <= created_instant a.
Proof.
  intros Hkey Hsearch Hcreated.
  destruct (apply_filters_searchable state ts Hsearch) as (flt & Hflt).
  assert (Forall created flt) as Hc by by eapply apply_filters_Forall.
  rewrite (apply_sort_after_filters state ts flt Hflt). unfold apply_sort.
  destruct Hkey as [-> | ->]; simpl.
  - destruct (keyed_sort by_createdAt created created_instant by_createdAt_key flt Hc)
      as (out & Hout & Hperm & Hsorted & _ & _).
    exists flt, out. split_and!; [done | done | done |].
    intros i j a b Hij Hi Hj.
    exact (StronglySorted_lookup _ out i j a b Hsorted Hij Hi Hj).
  - destruct (keyed_sort (fun a b => by_createdAt b a) created
                (fun t => - created_instant t) by_createdAt_desc_key flt Hc)
      as (out & Hout & Hperm & Hsorted & _ & _).
    exists flt, out. split_and!; [done | done | done |].
    intros i j a b Hij Hi Hj.
    pose proof (StronglySorted_lookup _ out i j a b Hsorted Hij Hi Hj). simpl in *. lia.
Qed.

Lemma scheduled_dated t : scheduled t -> dated t.
Proof. by intros [_ Hz] _. Qed.

Lemma by_dueDate_key x y :
  scheduled x -> scheduled y ->
  by_dueDate x y = Normal (Some (due_time x - due_time y)).
Proof.
  intros [Hx (zx & Hzx)] [Hy (zy & Hzy)].
  unfold by_dueDate, due_time, due_key. fold (has_dueDate x) (has_dueDate y).
  unfold due_instant in *. by rewrite Hx, Hy, Hzx, Hzy.
Qed.

(** X18: with the sort key [duedate], on tasks that all have a due date
    denoting an instant, tasks with the same due instant keep the order
    they had among themselves.  (The comparator is then the difference of
    the instants, and the language fixes the result of the sort; among
    tasks without a due date it answers [1] both ways, and their order is
    the engine's.) *)
Theorem duedate_sort_keeps_ties (state : ViewState) (ts flt out : list Task)
    (z : Z) :
  currentSort state = "duedate" ->
  Forall scheduled ts ->
  apply_filters state ts = Normal flt ->
  applyFiltersAndSort state ts = Normal out ->
  List.filter (fun t => due_time t =? z) out
    = List.filter (fun t => due_time t =? z) flt.
Proof.
  intros Hkey Hsched Hflt Hout.
  assert (Forall scheduled flt) as Hs by by eapply apply_filters_Forall.
  rewrite (apply_sort_after_filters state ts flt Hflt) in Hout.
  unfold apply_sort in Hout. rewrite Hkey in Hout. simpl in Hout.
  destruct (keyed_sort by_dueDate scheduled due_time by_dueDate_key flt Hs)
    as (out' & Hout' & _ & _ & Hties & _).
  rewrite Hout in Hout'. injection Hout' as <-. apply Hties.
Qed.
End SortKeys.

(** ** The filters, and the view applied twice *)

Lemma filterM_selects {A} (f : A -> completion bool) l out :
  filterM f l = Normal out ->
  out `sublist_of` l /\
  Forall (fun a => f a = Normal true) out /\
  (forall a, a ∈ l -> f a = Normal true -> a ∈ out).
Proof.
  revert out. induction l as [| a l IH]; intros out Hout; simpl in Hout.
  - injection Hout as <-. split_and!; [done | constructor |]. by intros a Ha.
  - destruct (f a) as [b |] eqn:Ha; [| done]. simpl in Hout.
    destruct (filterM f l) as [rs |]; [| done]. simpl in Hout.
    injection Hout as <-. destruct (IH rs eq_refl) as (Hsub & Hall & Hin).
    destruct b.
    + split_and!; [by apply sublist_skip | by constructor |].
      intros x Hx Hfx. apply elem_of_cons in Hx as [-> | Hx];
        [apply list_elem_of_here | apply list_elem_of_further; by apply Hin].
    + split_and!; [by apply sublist_cons | done |].
      intros x Hx Hfx. apply elem_of_cons in Hx as [-> | Hx]; [congruence | by apply Hin].
Qed.

Lemma filterM_all {A} (f : A -> completion bool) l :
  Forall (fun a => f a = Normal true) l -> filterM f l = Normal l.
Proof.
  induction 1 as [| a l Ha Hl IH]; [done |]. simpl. by rewrite Ha, IH.
Qed.

Lemma List_filter_filter {A} (f g : A -> bool) l :
  List.filter g (List.filter f l) = List.filter (fun a => f a && g a) l.
Proof.
  induction l as [| a l IH]; simpl; [done |].
  destruct (f a); simpl; [| done]. destruct (g a); by rewrite IH.
Qed.

Section ViewFacts.
Context `{Host}.

Lemma apply_filters_unfold state ts :
  apply_filters state ts =
    let kept := List.filter (fun t => status_ok state t && category_ok state t) ts in
    if negb (is_empty (searchQuery state))
    then filterM (matches_search (toLowerCase (searchQuery state))) kept
    else Normal kept.
Proof.
  unfold apply_filters. cbv zeta.
  assert ((if negb (String.eqb (currentCategory state) "all")
           then List.filter (is_category (currentCategory state))
                  (if String.eqb (currentFilter state) "active"
                   then List.filter (fun t => negb (is_completed t)) ts
                   else if String.eqb (currentFilter state) "completed"
                        then List.filter is_completed ts
                        else ts)
           else (if String.eqb (currentFilter state) "active"
                 then List.filter (fun t => negb (is_completed t)) ts
                 else if String.eqb (currentFilter state) "completed"
                      then List.filter is_completed ts
                      else ts))
          = List.filter (fun t => status_ok state t && category_ok state t) ts) as ->;
    [| done].
  unfold status_ok, category_ok.
  destruct (negb (String.eqb (currentCategory state) "all"));
    destruct (String.eqb (currentFilter state) "active");
    try destruct (String.eqb (currentFilter state) "completed");
    rewrite ?List_filter_filter;
    first [ apply List.filter_ext; intros t; simpl; by rewrite ?andb_true_r
          | symmetry; by apply List_filter_all, Forall_true ].
Qed.

Lemma apply_filters_passes state ts flt :
  apply_filters state ts = Normal flt -> Forall (passes state) flt.
Proof.
  rewrite apply_filters_unfold. cbv zeta.
  set (kept := List.filter (fun t => status_ok state t && category_ok state t) ts).
  assert (Forall (fun t => status_ok state t = true /\ category_ok state t = true) kept)
    as Hkept.
  { eapply Forall_impl; [apply List_filter_holds |]. intros t Ht. simpl in Ht.
    by apply andb_prop in Ht. }
  intros Hflt. unfold passes, search_ok.
  destruct (is_empty (searchQuery state)) eqn:He; simpl in Hflt.
  - injection Hflt as <-. eapply Forall_impl; [exact Hkept |].
    intros t [H1 H2]. split_and!; [done | done |]. intros Hq. congruence.
  - apply filterM_selects in Hflt as (Hs & Hall & _).
    apply Forall_forall. intros t Ht.
    rewrite Forall_forall in Hkept, Hall.
    destruct (Hkept t) as [H1 H2]; [by eapply elem_of_sublist |].
    split_and!; [done | done |]. intros _. by apply Hall.
Qed.

(** X19: the filters return, in their order, exactly the tasks that pass
    all three of them; under the filters [all], [all] and an empty query
    the list is returned as it is. *)
Theorem apply_filters_selects (state : ViewState) (ts flt : list Task) :
  apply_filters state ts = Normal flt ->
  flt `sublist_of` ts /\
  Forall (passes state) flt /\
  (forall t, t ∈ ts -> passes state t -> t ∈ flt) /\
  (currentFilter state = "all" -> currentCategory state = "all" ->
   searchQuery state = EmptyString -> flt = ts).
Proof.
  rewrite apply_filters_unfold. cbv zeta.
  set (kept := List.filter (fun t => status_ok state t && category_ok state t) ts).
  assert (kept `sublist_of` ts) as Hsub by apply List_filter_sublist.
  assert (forall t, t ∈ ts -> status_ok state t = true -> category_ok state t = true ->
            t ∈ kept) as Hin.
  { intros t Ht H1 H2. apply List_filter_elem_of. by rewrite H1, H2. }
  intros Hflt. split_and!.
  - destruct (negb (is_empty (searchQuery state))).
    + apply filterM_selects in Hflt as (Hs & _). by etrans.
    + by injection Hflt as <-.
  - apply (apply_filters_passes state ts). by rewrite apply_filters_unfold.
  - intros t Ht (H1 & H2 & H3). unfold search_ok in H3.
    destruct (is_empty (searchQuery state)) eqn:He; simpl in Hflt.
    + injection Hflt as <-. by apply Hin.
    + apply filterM_selects in Hflt as (_ & _ & Hall). apply Hall; [by apply Hin | by apply H3].
  - intros Hf Hc Hq. rewrite Hq in Hflt. simpl in Hflt. injection Hflt as <-.
    unfold kept. apply List_filter_all, Forall_true. intros t.
    unfold status_ok, category_ok. by rewrite Hf, Hc.
Qed.

Lemma apply_filters_fixed state l :
  Forall (passes state) l -> apply_filters state l = Normal l.
Proof.
  intros Hall. rewrite apply_filters_unfold. cbv zeta.
  rewrite List_filter_all.
  - destruct (is_empty (searchQuery state)) eqn:He; simpl; [done |].
    apply filterM_all. eapply Forall_impl; [exact Hall |].
    intros t (_ & _ & Hs). by apply Hs.
  - eapply Forall_impl; [exact Hall |]. intros t (-> & -> & _). done.
Qed.

Lemma apply_sort_typed state flt out :
  sort_typed state flt ->
  apply_sort state flt = Normal out ->
  Permutation flt out /\ apply_sort state out = Normal out.
Proof.
  intros (Hdue & Hpri & Hdate & Halpha & Hcat). unfold apply_sort. cbv zeta.
  destruct (String.eqb (currentSort state) "date-desc") eqn:E1.
  { apply String.eqb_eq in E1. intros Hout.
    destruct (keyed_sort (fun a b => by_createdAt b a) created
                (fun t => - created_instant t) by_createdAt_desc_key flt)
      as (out' & Hout' & Hperm & _ & _ & Hfix); [by apply Hdate; right |].
    rewrite Hout in Hout'. injection Hout' as <-. done. }
  destruct (String.eqb (currentSort state) "date-asc") eqn:E2.
  { apply String.eqb_eq in E2. intros Hout.
    destruct (keyed_sort by_createdAt created created_instant by_createdAt_key flt)
      as (out' & Hout' & Hperm & _ & _ & Hfix); [by apply Hdate; left |].
    rewrite Hout in Hout'. injection Hout' as <-. done. }
  destruct (String.eqb (currentSort state) "priority") eqn:E3.
  { apply String.eqb_eq in E3. intros Hout.
    destruct (keyed_sort by_priority ranked (fun t => - rank t) by_priority_key flt)
      as (out' & Hout' & Hperm & _ & _ & Hfix); [by apply Hpri |].
    rewrite Hout in Hout'. injection Hout' as <-. done. }
  destruct (String.eqb (currentSort state) "alphabetical") eqn:E4.
  { by apply String.eqb_eq in E4. }
  destruct (String.eqb (currentSort state) "duedate") eqn:E5.
  { apply String.eqb_eq in E5. intros Hout.
    destruct (keyed_sort by_dueDate scheduled due_time by_dueDate_key flt)
      as (out' & Hout' & Hperm & _ & _ & Hfix); [by apply Hdue |].
    rewrite Hout in Hout'. injection Hout' as <-. done. }
  destruct (String.eqb (currentSort state) "category") eqn:E6.
  { by apply String.eqb_eq in E6. }
  by intros [= <-].
Qed.

(** X20: the view of a view is that view.  For every sort key but the two
    that compare with the locale, on tasks that the key's comparator
    orders consistently (for the due date: tasks that all have one),
    applying filters and sort to what they returned returns it again. *)
Theorem view_idempotent (state : ViewState) (ts out : list Task) :
  sort_typed state ts ->
  applyFiltersAndSort state ts = Normal out ->
  applyFiltersAndSort state out = Normal out.
Proof.
  intros Htyped Hout. unfold applyFiltersAndSort in Hout.
  destruct (apply_filters state ts) as [flt |] eqn:Hflt; [| done].
  change (Normal flt ≫= ?f) with (f flt) in Hout. cbv beta in Hout.
  assert (sort_typed state flt) as Htyped'.
  { destruct Htyped as (H1 & H2 & H3 & H4 & H5).
    split_and!; [| | | done | done]; intros Hk;
      eapply apply_filters_Forall; eauto. }
  destruct (apply_sort_typed state flt out Htyped' Hout) as [Hperm Hfix].
  pose proof (apply_filters_passes state ts flt Hflt) as Hpass.
  rewrite (apply_sort_after_filters state out out); [done |].
  apply apply_filters_fixed. by apply (Permutation_Forall Hperm).
Qed.
End ViewFacts.

(** ** Due dates: labels, overdue marks and reminders *)

Lemma ceil_div_bounds x n :
  ceil_div x day_ms = n <-> (n - 1) * day_ms < x <= n * day_ms.
Proof.
  unfold ceil_div, day_ms. change (1000 * 60 * 60 * 24) with 86400000. split.
  - intros <-. pose proof (Z.div_mod (- x) 86400000 ltac:(lia)).
    pose proof (Z.mod_pos_bound (- x) 86400000 ltac:(lia)). lia.
  - intros Hx. enough ((- x) / 86400000 = - n) by lia.
    symmetry. apply (Z.div_unique _ _ _ (n * 86400000 - x)); lia.
Qed.

Section DateFacts.
Context `{Host}.
Variable toLocaleDateString : option Z -> string.

Lemma formatDueDate_dated now dueISO d :
  truthy dueISO = true -> Date_ dueISO = Normal (Some d) ->
  formatDueDate toLocaleDateString now dueISO =
    Normal (let n := ceil_div (d - now) day_ms in
            if n <? 0
            then ("Overdue by " +:+ NumberToString (Z.abs n) +:+ " days")%string
            else if n =? 0 then "Due today"%string
            else if n =? 1 then "Due tomorrow"%string
            else if n <=? 7
            then ("Due in " +:+ NumberToString n +:+ " days")%string
            else toLocaleDateString (Some d)).
Proof.
  intros Ht Hd. unfold formatDueDate. by rewrite Ht, Hd.
Qed.

Lemma label_overdue now d dueISO :
  truthy dueISO = true -> Date_ dueISO = Normal (Some d) ->
  day_ms <= now - d ->
  1 <= (now - d) / day_ms /\
  formatDueDate toLocaleDateString now dueISO =
    Normal ("Overdue by " +:+ NumberToString ((now - d) / day_ms) +:+ " days")%string.
Proof.
  intros Ht Hd Hover. rewrite (formatDueDate_dated now dueISO d Ht Hd). cbv zeta.
  assert (0 < day_ms) as Hday by (unfold day_ms; lia).
  assert (ceil_div (d - now) day_ms = - ((now - d) / day_ms)) as ->.
  { unfold ceil_div. by replace (- (d - now)) with (now - d) by lia. }
  assert (1 <= (now - d) / day_ms) as Hone.
  { apply Z.div_le_lower_bound; lia. }
  split; [done |].
  replace (- ((now - d) / day_ms) <? 0) with true by (symmetry; apply Z.ltb_lt; lia).
  by replace (Z.abs (- ((now - d) / day_ms))) with ((now - d) / day_ms) by lia.
Qed.

Lemma label_near now d dueISO (n : Z) :
  truthy dueISO = true -> Date_ dueISO = Normal (Some d) ->
  0 <= n <= 1 -> (n - 1) * day_ms < d - now <= n * day_ms ->
  formatDueDate toLocaleDateString now dueISO =
    Normal (if (n =? 0)%Z then "Due today"%string else "Due tomorrow"%string).
Proof.
  intros Ht Hd Hn Hwin. rewrite (formatDueDate_dated now dueISO d Ht Hd). cbv zeta.
  rewrite (proj2 (ceil_div_bounds (d - now) n) Hwin).
  assert (n = 0 \/ n = 1) as [-> | ->] by lia; done.
Qed.

(** X21: the label of a due date that reads as the instant [d], by the
    distance from the clock: overdue from a full day back, with the count
    of the full days (as far back as the difference is exact); today for
    the day before the reading; tomorrow for the day after it; a count of
    days up to a week; the date beyond. *)
Theorem formatDueDate_labels (now d : Z) (dueISO : option value) :
  truthy dueISO = true -> Date_ dueISO = Normal (Some d) ->
  (day_ms <= now - d <= 2 ^ 53 ->
     1 <= (now - d) / day_ms /\
     formatDueDate toLocaleDateString now dueISO =
       Normal ("Overdue by " +:+ NumberToString ((now - d) / day_ms) +:+ " days")%string) /\
  (0 <= now - d < day_ms ->
     formatDueDate toLocaleDateString now dueISO = Normal "Due today"%string) /\
  (0 < d - now <= day_ms ->
     formatDueDate toLocaleDateString now dueISO = Normal "Due tomorrow"%string) /\
  (day_ms < d - now <= 7 * day_ms ->
     2 <= ceil_div (d - now) day_ms <= 7 /\
     formatDueDate toLocaleDateString now dueISO =
       Normal ("Due in " +:+ NumberToString (ceil_div (d - now) day_ms) +:+ " days")%string) /\
  (7 * day_ms < d - now ->
     formatDueDate toLocaleDateString now dueISO = Normal (toLocaleDateString (Some d))).
Proof.
  intros Ht Hd. rewrite (formatDueDate_dated now dueISO d Ht Hd). cbv zeta.
  pose proof (proj1 (ceil_div_bounds (d - now) _) eq_refl) as Hn.
  set (n := ceil_div (d - now) day_ms) in *.
  assert (0 < day_ms) as Hday by (unfold day_ms; lia).
  split_and!.
  - intros Hover.
    assert (n = - ((now - d) / day_ms)) as Hq.
    { unfold n, ceil_div. by replace (- (d - now)) with (now - d) by lia. }
    assert (1 <= (now - d) / day_ms) as Hone.
    { apply Z.div_le_lower_bound; lia. }
    split; [done |].
    replace (n <? 0) with true by (symmetry; apply Z.ltb_lt; lia).
    by replace (Z.abs n) with ((now - d) / day_ms) by lia.
  - intros Htoday. assert (n = 0) as -> by nia. done.
  - intros Htom. assert (n = 1) as -> by nia. done.
  - intros Hweek. assert (2 <= n <= 7) as Hr by nia. split; [done |].
    replace (n <? 0) with false by (symmetry; apply Z.ltb_ge; lia).
    replace (n =? 0) with false by (symmetry; apply Z.eqb_neq; lia).
    replace (n =? 1) with false by (symmetry; apply Z.eqb_neq; lia).
    by replace (n <=? 7) with true by (symmetry; apply Z.leb_le; lia).
  - intros Hfar. assert (7 < n) as Hr by nia.
    replace (n <? 0) with false by (symmetry; apply Z.ltb_ge; lia).
    replace (n =? 0) with false by (symmetry; apply Z.eqb_neq; lia).
    replace (n =? 1) with false by (symmetry; apply Z.eqb_neq; lia).
    by replace (n <=? 7) with false by (symmetry; apply Z.leb_gt; lia).
Qed.

Lemma isOverdue_true now t :
  isOverdue now t = Normal true ->
  has_dueDate t = true /\ is_completed t = false /\
  exists d, due_instant t d /\ d < now.
Proof.
  unfold isOverdue, has_dueDate, due_instant.
  destruct (truthy (t !! "dueDate")); simpl; [| done].
  destruct (is_completed t); simpl; [done |].
  destruct (Date_ (t !! "dueDate")) as [[d |] |]; simpl; try done.
  intros [= Hlt]. split_and!; [done | done |]. exists d. split; [done |].
  by apply Z.ltb_lt.
Qed.

(** X22: a task that the list marks as overdue carries the label
    [Due today] until a full day has passed since its due date; from then
    on, as far as the difference is exact, the label says overdue. *)
Theorem overdue_mark_and_label (now : Z) (t : Task) :
  isOverdue now t = Normal true ->
  exists d, due_instant t d /\ d < now /\
    forall later, now <= later -> later - d <= 2 ^ 53 ->
      formatDueDate toLocaleDateString later (t !! "dueDate") =
        Normal (if later - d <? day_ms then "Due today"%string
                else ("Overdue by " +:+ NumberToString ((later - d) / day_ms)
                        +:+ " days")%string).
Proof.
  intros Hover. apply isOverdue_true in Hover as (Hdue & _ & d & Hd & Hlt).
  exists d. split_and!; [done | done |]. intros later Hlater Hexact.
  destruct (later - d <? day_ms) eqn:Hday.
  - apply Z.ltb_lt in Hday.
    apply (label_near later d (t !! "dueDate") 0 Hdue Hd); lia.
  - apply Z.ltb_ge in Hday.
    by apply (label_overdue later d (t !! "dueDate") Hdue Hd).
Qed.

(** X23: a task for which a reminder is requested is due within the hour
    after the reading; it is not marked overdue at that reading or before
    it, and its label there is [Due tomorrow]. *)
Theorem reminder_mark_and_label (now : Z) (t : Task) :
  dueSoon now t = Normal true ->
  exists d, due_instant t d /\ now < d <= now + 60 * 60 * 1000 /\
    formatDueDate toLocaleDateString now (t !! "dueDate") = Normal "Due tomorrow"%string /\
    forall earlier, earlier <= now -> isOverdue earlier t = Normal false.
Proof.
  unfold dueSoon, due_instant. intros Hsoon.
  destruct (truthy (t !! "dueDate")) eqn:Hdue; simpl in Hsoon; [| done].
  destruct (is_completed t) eqn:Hc; simpl in Hsoon; [done |].
  destruct (Date_ (t !! "dueDate")) as [[d |] |] eqn:Hd; simpl in Hsoon; try done.
  injection Hsoon as Hsoon. apply andb_prop in Hsoon as [Hafter Huntil].
  apply Z.ltb_lt in Hafter. unfold time_clip in Huntil.
  destruct (Z.abs (now + 60 * 60 * 1000) <=? 8640000000000000); simpl in Huntil;
    [| done].
  apply Z.leb_le in Huntil.
  exists d. split_and!; [done | done | done | |].
  - apply (label_near now d (t !! "dueDate") 1 Hdue Hd); unfold day_ms; lia.
  - intros earlier Hle. unfold isOverdue. rewrite Hdue, Hc, Hd. simpl.
    f_equal. apply Z.ltb_ge. lia.
Qed.
End DateFacts.

(** ** The single-file version *)

Lemma deleteTask_tasks_cons `{Host} id a l dt :
  tasks (snd (deleteTask id {| tasks := a :: l; deletedTask := dt |})) =
    if has_id id a then l
    else a :: tasks (snd (deleteTask id {| tasks := l; deletedTask := dt |})).
Proof.
  unfold deleteTask. cbn [tasks]. rewrite find_task_cons.
  destruct (has_id id a); [done |].
  by destruct (find_task id l) as [[i t] |].
Qed.

Lemma List_filter_fixed {A} (f : A -> bool) l :
  List.filter f l = l <-> Forall (fun a => f a = true) l.
Proof.
  split; [| apply List_filter_all].
  intros Heq. rewrite <- Heq. apply List_filter_holds.
Qed.

Lemma List_filter_empty {A} (f : A -> bool) l :
  length (List.filter f l) = 0%nat <-> Forall (fun a => f a = false) l.
Proof.
  induction l as [| a l IH]; simpl; [by split; [constructor |] |].
  destruct (f a) eqn:Ha; simpl.
  - split; [done |]. intros Hall. apply Forall_cons in Hall as [Hf _]. congruence.
  - rewrite IH. split; [by constructor |]. by intros [_ ?]%Forall_cons.
Qed.

(** X24: the single-file [deleteTask] removes every task with the
    identifier and keeps the others in their order, where the model's
    removes the first one only: the two leave the same collection exactly
    when at most one task has the identifier. *)
Theorem script_deleteTask_agrees `{Host} (id : Z) (m : TaskModel) :
  no_task_with_id id (Script.deleteTask id (tasks m)) /\
  Script.deleteTask id (tasks m) `sublist_of` tasks m /\
  (Script.deleteTask id (tasks m) = tasks (snd (deleteTask id m)) <->
   (occurrences id (tasks m) <= 1)%nat).
Proof.
  destruct m as [ts dt]. simpl. unfold Script.deleteTask, occurrences. split_and!.
  - eapply Forall_impl; [apply List_filter_holds |]. intros t Ht. simpl in Ht.
    by destruct (has_id id t).
  - apply List_filter_sublist.
  - induction ts as [| a l IH]; [simpl; split; [lia | done] |].
    rewrite deleteTask_tasks_cons. simpl. destruct (has_id id a) eqn:Ha; simpl.
    + rewrite List_filter_fixed.
      transitivity (length (List.filter (has_id id) l) = 0%nat); [| lia].
      rewrite List_filter_empty. apply Forall_iff. intros t.
      by destruct (has_id id t).
    + rewrite <- IH. split; [by intros [= ?] | by intros ->].
Qed.

Lemma count_filter_negb {A} (f : A -> bool) l :
  count (List.filter (fun a => negb (f a)) l) = count l - count (List.filter f l).
Proof.
  unfold count. induction l as [| a l IH]; simpl; [done |].
  destruct (f a); simpl; lia.
Qed.

(** X25: the three counters of the single-file version are the first
    three statistics of the model on the same collection. *)
Theorem script_updateStats_agrees `{Host} (c : Calendar) (m : TaskModel) (s : Statistics) :
  getStatistics c m = Normal s ->
  Script.updateStats (tasks m) = (total s, active s, completed s).
Proof.
  intros Hs. rewrite (getStatistics_as_filters c m s Hs). simpl.
  unfold Script.updateStats. fold (count (tasks m)).
  fold (count (List.filter (fun t => negb (is_completed t)) (tasks m))).
  fold (count (List.filter is_completed (tasks m))).
  by rewrite count_filter_negb.
Qed.

(** X26: in the single-file version, toggling twice a task whose
    [completed] is a boolean gives the collection back. *)
Theorem script_toggleTask_twice (id : Z) (ts : list Task) (i : nat) (t : Task) (b : bool) :
  find_task id ts = Some (i, t) ->
  t !! "completed" = Some (VBool b) ->
  Script.toggleTask id (Script.toggleTask id ts) = ts.
Proof.
  intros Hf Hb. unfold Script.toggleTask at 2. rewrite Hf.
  pose proof Hf as Hfirst. apply find_task_Some in Hfirst.
  set (t' := <["completed" := VBool (negb (truthy (t !! "completed")))]> t).
  assert (first_with_id id (<[i := t']> ts) i t') as Hf'.
  { apply (first_with_id_insert id ts i t); [done |].
    unfold t'. rewrite has_id_insert by done.
    by destruct Hfirst as (_ & ? & _). }
  apply find_task_Some in Hf'. unfold Script.toggleTask. rewrite Hf'.
  rewrite list_insert_insert_eq. unfold t'.
  rewrite lookup_insert_eq, insert_insert_eq, Hb. simpl. rewrite negb_involutive.
  rewrite (insert_id t) by done. apply list_insert_id. by destruct Hfirst.
Qed.

(** ** Calls in sequence *)

Section Sequences.
Context `{Host}.

(** X27: the undo slot holds one deletion.  After two deletions in a row
    [undoDelete] brings back the second task only: the collection is what
    the first deletion left, the slot is empty and a further [undoDelete]
    returns [null] and changes nothing. *)
Theorem undo_is_single_level (m : TaskModel) (id1 id2 : Z)
    (i1 i2 : nat) (t1 t2 : Task) :
  first_with_id id1 (tasks m) i1 t1 ->
  first_with_id id2 (tasks (snd (deleteTask id1 m))) i2 t2 ->
  let m1 := snd (deleteTask id1 m) in
  let m3 := snd (undoDelete (snd (deleteTask id2 m1))) in
  m3 = {| tasks := tasks m1; deletedTask := None |} /\
  S (length (tasks m3)) = length (tasks m) /\
  undoDelete m3 = (VNull, m3).
Proof.
  intros H1 H2 m1 m3.
  assert (m3 = {| tasks := tasks m1; deletedTask := None |}) as Hm3.
  { unfold m3. fold m1 in H2. pose proof H2 as (Hl & _).
    apply find_task_Some in H2. unfold deleteTask at 1. rewrite H2.
    unfold undoDelete. simpl. by rewrite splice_in_delete. }
  split_and!; [done | | by rewrite Hm3].
  rewrite Hm3. simpl. unfold m1, deleteTask. pose proof H1 as (Hl & _).
  apply find_task_Some in H1. rewrite H1. simpl.
  rewrite length_delete by done. apply lookup_lt_Some in Hl. lia.
Qed.

Lemma find_task_insert id l i t t' :
  find_task id l = Some (i, t) -> has_id id t' = true ->
  find_task id (<[i := t']> l) = Some (i, t').
Proof.
  intros Hf Ht'. apply find_task_Some. apply (first_with_id_insert id l i t);
    [by apply find_task_Some | done].
Qed.

Lemma has_id_patched id (patch t : Obj) :
  patch !! "id" = None -> has_id id (patch ∪ t) = has_id id t.
Proof.
  intros Hp. unfold has_id. by rewrite lookup_union_r.
Qed.

(** X28: two patches of the same task, the first of which leaves [id]
    alone, amount to one call with the second patch laid over the first,
    in what is returned and in the model. *)
Theorem updateTask_twice (m : TaskModel) (id : Z) (p1 p2 : Obj) :
  p1 !! "id" = None ->
  updateTask id p2 (snd (updateTask id p1 m)) = updateTask id (p2 ∪ p1) m.
Proof.
  intros Hid. unfold updateTask at 2 3.
  destruct (find_task id (tasks m)) as [[i t] |] eqn:Hf; simpl.
  - assert (has_id id (p1 ∪ t) = true) as Ht'.
    { rewrite has_id_patched by done. apply find_task_Some in Hf. by destruct Hf as (_ & ? & _). }
    unfold updateTask. simpl.
    rewrite (find_task_insert id (tasks m) i t (p1 ∪ t) Hf Ht').
    by rewrite list_insert_insert_eq, (assoc_L (∪)).
  - unfold updateTask. by rewrite Hf.
Qed.

(** X29: a call by identifier right after [addTask] reaches the task just
    added, also when an older task has the same identifier: [deleteTask]
    gives the collection back and records the new task at index 0,
    [toggleTask] and [updateTask] change and return the new task. *)
Theorem calls_reach_newest (m : TaskModel) (now : Z) (iso iso' : string)
    (d : Draft) (patch : Obj) :
  let t := new_task now iso d in
  let m' := snd (addTask now iso d m) in
  snd (deleteTask now m') =
    {| tasks := tasks m; deletedTask := Some {| task := t; index := 0 |} |} /\
  toggleTask now iso' m' =
    (VObj (toggled iso' t),
     {| tasks := toggled iso' t :: tasks m; deletedTask := deletedTask m |}) /\
  updateTask now patch m' =
    (VObj (patch ∪ t),
     {| tasks := (patch ∪ t) :: tasks m; deletedTask := deletedTask m |}).
Proof.
  intros t m'.
  assert (find_task now (tasks m') = Some (0%nat, t)) as Hf.
  { unfold m', addTask. cbn [snd tasks]. rewrite find_task_cons.
    assert (has_id now (new_task now iso d) = true) as ->; [| done].
    unfold has_id, new_task.
    assert (forall v (l : list (string * value)),
              (list_to_map (("id", v) :: l) : Obj) !! "id" = Some v) as ->.
    { intros v l. simpl. apply lookup_insert_eq. }
    apply Z.eqb_refl. }
  unfold deleteTask, toggleTask, updateTask. rewrite Hf. done.
Qed.
End Sequences.

(** X30: the guard of the add-subtask handler is the model's own: on the
    model, the handler does what the bare call of [addSubtask] does,
    whatever the field holds.  (The add button differs: its guard is the
    only one that keeps a blank text out.) *)
Theorem subtask_handler_is_model_call (tId now : Z) (input : string)
    (m : TaskModel) :
  onAddSubtaskClick tId input now m = snd (addSubtask tId input now m) /\
  (is_empty (trim input) = true -> onAddSubtaskClick tId input now m = m).
Proof.
  unfold onAddSubtaskClick, addSubtask.
  destruct (is_empty (trim input)) eqn:He; simpl; [| done].
  split; [| done]. by destruct (find_task tId (tasks m)) as [[i t] |].
Qed.

(** * The further properties on sample data *)

Section OnSamples.
#[local] Existing Instance Reference.host.
#[local] Open Scope string_scope.

Lemma getStatistics_totals_witness :
  exists s, getStatistics Samples.calendar Samples.household = Normal s /\
    total s = count (tasks Samples.household) /\
    active s + completed s = total s /\
    0 <= active s /\
    0 <= todayCompleted s <= completed s /\
    0 <= weekCompleted s <= completed s /\
    0 <= monthCompleted s <= completed s.
Proof.
  apply (getStatistics_totals Samples.calendar Samples.household).
  repeat (apply Forall_cons; split; [intros _; eexists; reflexivity |]).
  apply Forall_nil_2.
Defined.

Lemma getStatistics_windows_nested_witness :
  todayCompleted Samples.household_statistics
    <= monthCompleted Samples.household_statistics.
Proof.
  apply (proj1 (getStatistics_windows_nested (H := Reference.host)
                  Samples.calendar Samples.household Samples.household_statistics
                  ltac:(vm_compute; reflexivity))).
  vm_compute. discriminate.
Defined.

Lemma getStatistics_after_addTask_witness :
  getStatistics Samples.calendar
    (snd (addTask 9 "2024-01-03" (Sample.draft "Walk dog") Samples.household)) =
  Normal {| total := 3; completed := 1; active := 2;
            todayCompleted := 1; weekCompleted := 1; monthCompleted := 1 |}.
Proof.
  apply (getStatistics_after_addTask Samples.calendar Samples.household
           Samples.household_statistics 9 "2024-01-03" (Sample.draft "Walk dog")).
  reflexivity.
Defined.

Lemma undoDelete_after_clearCompleted_witness :
  let m := {| tasks := [Sample.milk];
              deletedTask := Some {| task := Samples.milk_bought; index := 0 |} |} in
  let m' := snd (undoDelete (clearCompleted m)) in
  Samples.milk_bought ∈ tasks m' /\
  ~ Forall (fun t => is_completed t = false) (tasks m') /\
  deletedTask m' = None.
Proof.
  intros m.
  apply (undoDelete_after_clearCompleted m {| task := Samples.milk_bought; index := 0 |});
    reflexivity.
Defined.

Lemma updateNotes_verbatim_witness :
  exists t' : Task,
    updateNotes 7 " call mum " Sample.one =
      (VObj t', {| tasks := <[0%nat := t']> (tasks Sample.one);
                   deletedTask := deletedTask Sample.one |}) /\
    t' !! "notes" = Some (VStr " call mum ") /\
    (forall k, k <> "notes" -> t' !! k = Sample.milk !! k) /\
    updateNotes 7 "later" (snd (updateNotes 7 " call mum " Sample.one)) =
      updateNotes 7 "later" Sample.one.
Proof.
  apply (proj1 (updateNotes_verbatim Sample.one 7 " call mum " "later") 0%nat Sample.milk).
  split_and!; [reflexivity | reflexivity |]. intros j u _ Hlt. lia.
Defined.

Lemma addSubtask_appends_witness :
  exists (sub : Obj) (t' : Task),
    addSubtask 7 " carton " 11 Sample.one =
      (Normal (VObj sub),
       {| tasks := <[0%nat := t']> (tasks Sample.one);
          deletedTask := deletedTask Sample.one |}) /\
    sub !! "id" = Some (VNum 11) /\
    sub !! "text" = Some (VStr (trim " carton ")) /\
    sub !! "completed" = Some (VBool false) /\
    t' !! "subtasks" = Some (VArr ([] ++ [VObj sub])) /\
    (forall k, k <> "subtasks" -> t' !! k = Sample.milk !! k) /\
    (forall j, j <> 0%nat -> <[0%nat := t']> (tasks Sample.one) !! j = tasks Sample.one !! j).
Proof.
  apply (addSubtask_appends Sample.one 7 11 " carton " 0%nat Sample.milk []).
  - split_and!; [reflexivity | reflexivity |]. intros j u _ Hlt. lia.
  - reflexivity.
  - reflexivity.
Defined.

Lemma addSubtask_rejects_witness :
  addSubtask 7 "  " 11 Sample.one = (Normal VNull, Sample.one).
Proof.
  apply (proj1 (addSubtask_rejects Sample.one 7 11 "  ")). reflexivity.
Defined.

Lemma toggleSubtask_twice_witness :
  snd (toggleSubtask 7 11 (snd (toggleSubtask 7 11 Samples.stepped))) = Samples.stepped.
Proof.
  apply (proj2 (toggleSubtask_twice Samples.stepped 7 11 0%nat 0%nat
                  Samples.milk_with_step [VObj Samples.carton] Samples.carton false
                  ltac:(split_and!; [reflexivity | reflexivity | intros j u _ Hlt; lia])
                  ltac:(reflexivity) ltac:(reflexivity) ltac:(reflexivity))).
Defined.

Lemma tagsFromString_clean_witness : tagsFromString " , ," = [].
Proof.
  apply (proj2 (tagsFromString_clean " , ,")). reflexivity.
Defined.

Lemma calls_keep_shape_witness :
  let ops := [ToggleTask 7 "2024-01-02";
              AddTask 9 "2024-01-03" (Sample.draft "Walk dog");
              UpdateTask 9 {[ "text" := VStr "Walk the dog" ]};
              AddSubtask 9 "leash" 12; UpdateNotes 9 "in the evening";
              DeleteTask 7; UndoDelete; ClearCompleted] in
  model_well_formed (run Sample.one ops) /\
  importTasks (exportTasks (run Sample.one ops)) Sample.readings (run Sample.one ops)
    = (true, run Sample.one ops).
Proof.
  intros ops. apply (calls_keep_shape Sample.one ops Sample.readings).
  - split; [| intros d Hd; discriminate Hd].
    apply Forall_cons. split; [exact well_formed_milk | apply Forall_nil_2].
  - repeat (apply Forall_cons; split;
            [first [ exact I
                   | eexists; reflexivity
                   | split_and!; discriminate
                   | discriminate ] |]).
    apply Forall_nil_2.
Defined.

Lemma handlers_keep_text_witness :
  let f := {| taskInput := "  Walk dog "; prioritySelect := "high";
              categorySelect := "personal"; dueDateInput := EmptyString;
              tagInput := "dog, outside" |} in
  Forall named (tasks (onAddTaskClick 9 "2024-01-03" f Sample.one)) /\
  Forall named (tasks (onEditSave 7 "Buy milk" " Buy oat milk " Sample.one)) /\
  (is_empty (trim " Buy oat milk ") = true \/ trim " Buy oat milk " = "Buy milk" ->
   onEditSave 7 "Buy milk" " Buy oat milk " Sample.one = Sample.one).
Proof.
  intros f.
  apply (handlers_keep_text Sample.one 9 7 "2024-01-03" "Buy milk" " Buy oat milk " f).
  apply Forall_cons. split; [| apply Forall_nil_2].
  exists "Buy milk". split; [reflexivity |]. split; [discriminate | reflexivity].
Defined.

Lemma reorder_keeps_displayed_witness :
  let m := {| tasks := Sample.walks; deletedTask := None |} in
  reorderModelFromDOM [3; 1] m =
    {| tasks := [Sample.walk 3 (Some "2024-02-01"); Sample.walk 1 None];
       deletedTask := deletedTask m |}.
Proof.
  intros m.
  apply (reorder_keeps_displayed m [3; 1]
           [Sample.walk 3 (Some "2024-02-01"); Sample.walk 1 None]).
  - split.
    + repeat (apply Forall_cons; split; [eexists; reflexivity |]). apply Forall_nil_2.
    + apply (bool_decide_unpack _). vm_compute. exact I.
  - apply Forall2_cons. split.
    { split; [reflexivity |]. by apply (list_elem_of_lookup_2 _ 2%nat). }
    apply Forall2_cons. split.
    { split; [reflexivity |]. by apply (list_elem_of_lookup_2 _ 0%nat). }
    apply Forall2_nil_2.
  - discriminate.
Defined.

Lemma reorder_never_invents_witness :
  reorderModelFromDOM [5; 6] Sample.one = Sample.one.
Proof.
  apply (proj2 (proj2 (proj2 (reorder_never_invents Sample.one [5; 6])))).
  repeat (apply Forall_cons; split;
          [apply Forall_cons; split; [reflexivity | apply Forall_nil_2] |]).
  apply Forall_nil_2.
Defined.

Lemma priority_sort_stable_witness :
  let state := {| currentFilter := "all"; currentCategory := "all";
                  currentSort := "priority"; searchQuery := EmptyString |} in
  exists flt out,
    apply_filters state Samples.chores = Normal flt /\
    applyFiltersAndSort state Samples.chores = Normal out /\
    Permutation flt out /\
    (forall i j a b, (i < j)%nat -> out !! i = Some a -> out !! j = Some b ->
       rank b <= rank a) /\
    (forall p, List.filter (has_priority p) out = List.filter (has_priority p) flt).
Proof.
  intros state. apply (priority_sort_stable state Samples.chores).
  - reflexivity.
  - repeat (apply Forall_cons; split); [| | | apply Forall_nil_2];
      (split_and!;
       [ eexists; reflexivity
       | intros Hn; vm_compute in Hn; discriminate Hn
       | intros Ht; eexists; split; [reflexivity | apply Forall_nil_2] ]).
  - repeat (apply Forall_cons; split;
            [first [ left; reflexivity
                   | right; left; reflexivity
                   | right; right; reflexivity ] |]).
    apply Forall_nil_2.
Defined.

Lemma date_sort_orders_witness :
  let state := {| currentFilter := "all"; currentCategory := "all";
                  currentSort := "date-desc"; searchQuery := EmptyString |} in
  exists flt out,
    apply_filters state Samples.chores = Normal flt /\
    applyFiltersAndSort state Samples.chores = Normal out /\
    Permutation flt out /\
    forall i j a b, (i < j)%nat -> out !! i = Some a -> out !! j = Some b ->
      if String.eqb (currentSort state) "date-asc"
      then created_instant a <= created_instant b
      else created_instant b <= created_instant a.
Proof.
  intros state. apply (date_sort_orders state Samples.chores).
  - right. reflexivity.
  - repeat (apply Forall_cons; split); [| | | apply Forall_nil_2];
      (split_and!;
       [ eexists; reflexivity
       | intros Hn; vm_compute in Hn; discriminate Hn
       | intros Ht; eexists; split; [reflexivity | apply Forall_nil_2] ]).
  - repeat (apply Forall_cons; split; [eexists; vm_compute; reflexivity |]).
    apply Forall_nil_2.
Defined.

Lemma scheduled_errands : Forall scheduled Samples.errands.
Proof.
  repeat (apply Forall_cons; split;
          [split; [reflexivity | eexists; unfold due_instant; vm_compute; reflexivity] |]).
  apply Forall_nil_2.
Defined.

Lemma duedate_sort_keeps_ties_witness :
  List.filter (fun t => (due_time t =? Samples.march_first)%Z) Samples.errands_by_due
    = List.filter (fun t => (due_time t =? Samples.march_first)%Z) Samples.errands.
Proof.
  apply (duedate_sort_keeps_ties (H := Reference.host) Samples.by_due Samples.errands
           Samples.errands Samples.errands_by_due Samples.march_first).
  - reflexivity.
  - exact scheduled_errands.
  - vm_compute. reflexivity.
  - vm_compute. reflexivity.
Defined.

Lemma apply_filters_selects_witness :
  let state := {| currentFilter := "active"; currentCategory := "all";
                  currentSort := "duedate"; searchQuery := "dog" |} in
  let ts := Samples.milk_bought :: Sample.milk :: Sample.walks in
  Sample.walks `sublist_of` ts /\
  Forall (passes state) Sample.walks /\
  (forall t, t ∈ ts -> passes state t -> t ∈ Sample.walks) /\
  (currentFilter state = "all" -> currentCategory state = "all" ->
   searchQuery state = EmptyString -> Sample.walks = ts).
Proof.
  intros state ts.
  apply (apply_filters_selects (H := Reference.host) state ts Sample.walks).
  vm_compute. reflexivity.
Defined.

Lemma view_idempotent_witness :
  applyFiltersAndSort Samples.by_due Samples.errands_by_due
    = Normal Samples.errands_by_due.
Proof.
  apply (view_idempotent (H := Reference.host) Samples.by_due Samples.errands
           Samples.errands_by_due).
  - split_and!.
    + intros _. exact scheduled_errands.
    + intros Hk. discriminate Hk.
    + intros [Hk | Hk]; discriminate Hk.
    + discriminate.
    + discriminate.
  - vm_compute. reflexivity.
Defined.

Lemma formatDueDate_labels_witness :
  formatDueDate (fun _ => "Mar 1, 2024") (Samples.march_first + 3600000)
    (Some (VStr "2024-03-01")) = Normal "Due today" /\
  formatDueDate (fun _ => "Mar 1, 2024") (Samples.march_first - 3600000)
    (Some (VStr "2024-03-01")) = Normal "Due tomorrow".
Proof.
  split.
  - apply (proj1 (proj2 (formatDueDate_labels (H := Reference.host)
                           (fun _ => "Mar 1, 2024") (Samples.march_first + 3600000)
                           Samples.march_first (Some (VStr "2024-03-01"))
                           ltac:(reflexivity) ltac:(vm_compute; reflexivity)))).
    vm_compute. split; [discriminate | reflexivity].
  - apply (proj1 (proj2 (proj2 (formatDueDate_labels (H := Reference.host)
                           (fun _ => "Mar 1, 2024") (Samples.march_first - 3600000)
                           Samples.march_first (Some (VStr "2024-03-01"))
                           ltac:(reflexivity) ltac:(vm_compute; reflexivity))))).
    vm_compute. split; [reflexivity | discriminate].
Defined.

Lemma overdue_mark_and_label_witness :
  let t := Sample.walk 3 (Some "2024-02-01") in
  exists d, due_instant t d /\ d < Samples.march_first /\
    forall later, Samples.march_first <= later -> later - d <= 2 ^ 53 ->
      formatDueDate (fun _ => "Feb 1, 2024") later (t !! "dueDate") =
        Normal (if (later - d <? day_ms)%Z then "Due today"
                else "Overdue by " +:+ NumberToString ((later - d) / day_ms) +:+ " days").
Proof.
  intros t.
  apply (overdue_mark_and_label (H := Reference.host) (fun _ => "Feb 1, 2024")
           Samples.march_first t).
  vm_compute. reflexivity.
Defined.

Lemma reminder_mark_and_label_witness :
  let t := Sample.walk 2 (Some "2024-03-01") in
  let now := Samples.march_first - 1800000 in
  exists d, due_instant t d /\ now < d <= now + 60 * 60 * 1000 /\
    formatDueDate (fun _ => "Mar 1, 2024") now (t !! "dueDate") = Normal "Due tomorrow" /\
    forall earlier, earlier <= now -> isOverdue earlier t = Normal false.
Proof.
  intros t now.
  apply (reminder_mark_and_label (H := Reference.host) (fun _ => "Mar 1, 2024") now t).
  vm_compute. reflexivity.
Defined.

Lemma script_updateStats_agrees_witness :
  Script.updateStats (tasks Samples.household) = (2, 1, 1).
Proof.
  apply (script_updateStats_agrees (H := Reference.host) Samples.calendar
           Samples.household Samples.household_statistics).
  vm_compute. reflexivity.
Defined.

Lemma script_toggleTask_twice_witness :
  Script.toggleTask 7 (Script.toggleTask 7 [Sample.milk]) = [Sample.milk].
Proof.
  apply (script_toggleTask_twice 7 [Sample.milk] 0%nat Sample.milk false);
    reflexivity.
Defined.

Lemma undo_is_single_level_witness :
  let m := {| tasks := Sample.walks; deletedTask := None |} in
  let m1 := snd (deleteTask 1 m) in
  let m3 := snd (undoDelete (snd (deleteTask 3 m1))) in
  m3 = {| tasks := tasks m1; deletedTask := None |} /\
  S (length (tasks m3)) = length (tasks m) /\
  undoDelete m3 = (VNull, m3).
Proof.
  intros m.
  apply (undo_is_single_level m 1 3 0%nat 1%nat (Sample.walk 1 None)
           (Sample.walk 3 (Some "2024-02-01"))).
  - split_and!; [reflexivity | reflexivity |]. intros j u _ Hlt. lia.
  - split_and!; [reflexivity | reflexivity |]. intros j u Hj Hlt.
    assert (j = 0%nat) as -> by lia. injection Hj as <-. reflexivity.
Defined.

Lemma updateTask_twice_witness :
  updateTask 7 {[ "notes" := VStr "oat" ]}
    (snd (updateTask 7 {[ "text" := VStr "Buy oat milk" ]} Sample.one)) =
  updateTask 7 ({[ "notes" := VStr "oat" ]} ∪ {[ "text" := VStr "Buy oat milk" ]})
    Sample.one.
Proof.
  apply (updateTask_twice Sample.one 7). reflexivity.
Defined.

Lemma subtask_handler_is_model_call_witness :
  onAddSubtaskClick 7 "  " 11 Sample.one = Sample.one.
Proof.
  apply (proj2 (subtask_handler_is_model_call 7 11 "  " Sample.one)). reflexivity.
Defined.
End OnSamples.
